(** * Lax Stats Captain: the live game tracker and the face-off drill

    A shallow embedding of the game-tracking core of the application: the
    types and the GameTracker component (src/unnamed/part_001), the team and
    game handlers of the application component
    (src/services/storageService.ts), the form of the Schedule component
    (src/unnamed/part_002) and the motion detection and the sessions of the
    FaceOffTrainer component (src/unnamed/part_004), followed by the
    properties of the specification checked against it and by further
    properties of the same code.

    Conventions.
    - A JavaScript [number] that holds a clock value, a score, a period or a
      counter is an integer in this program (all of them start from integer
      literals and move by integer steps), and is modelled as [Z].  The
      numbers of the face-off drill (luma, time stamps) are genuine IEEE 754
      binary64 values and are modelled with Rocq's primitive floats, which
      implement the same arithmetic.
    - An optional field ([userId?], [assistingPlayerId?], [aiSummary?]) is an
      [option].
    - [Date.now()] is an input of the handlers that read it.
    - A React state update followed by the re-render is one transition of the
      component state; an effect that depends on a piece of state runs inside
      the transition that changed it. *)

From Stdlib Require Import ZArith List Sorted Floats.
From Stdlib.Strings Require Import Byte.
From Stdlib.Strings Require Ascii.
From stdpp Require Import base decidable option list gmap strings pretty.

Set Warnings "-inexact-float".
Local Open Scope Z_scope.

(** ** The types (src/unnamed/part_001, first part) *)

Module Player.
Record t := mk {
  id : string;
  name : string;
  jerseyNumber : string;
  position : string;
  userId : option string
}.
End Player.

Module Team.
Record t := mk {
  id : string;
  name : string;
  roster : list Player.t
}.
End Team.

Inductive StatType :=
| GOAL
| ASSIST
| SHOT
| SAVE
| GROUND_BALL
| TURNOVER
| CAUSED_TURNOVER
| FACEOFF_WIN
| FACEOFF_LOSS.

Module Stat.
Record t := mk {
  id : string;
  playerId : string;
  teamId : string;
  type : StatType;
  timestamp : Z;
  assistingPlayerId : option string
}.
End Stat.

Inductive PenaltyType :=
| SLASHING
| TRIPPING
| CROSS_CHECK
| UNSPORTSMANLIKE_CONDUCT
| ILLEGAL_BODY_CHECK
| HOLDING
| INTERFERENCE
| ILLEGAL_PROCEDURE
| PUSHING
| OFFSIDES
| WARDING
| ILLEGAL_STICK.

Module Penalty.
Record t := mk {
  id : string;
  playerId : string;
  teamId : string;
  type : PenaltyType;
  duration : Z;
  startTime : Z;
  releaseTime : Z
}.
End Penalty.

Inductive GameStatus := scheduled | live | finished.

Module Score.
Record t := mk { home : Z; away : Z }.
End Score.

Module Game.
(** [penalties] is read everywhere as [game.penalties || []]: the field may
    be missing from a stored game, hence the [option]. *)
Record t := mk {
  id : string;
  homeTeam : Team.t;
  awayTeam : Team.t;
  scheduledTime : string;
  status : GameStatus;
  score : Score.t;
  stats : list Stat.t;
  penalties : option (list Penalty.t);
  currentPeriod : Z;
  gameClock : Z;
  aiSummary : option string
}.
End Game.

Inductive Role := ADMIN | COACH | PARENT | PLAYER | FAN.

Global Instance StatType_eq_dec : EqDecision StatType.
Proof. solve_decision. Defined.
Global Instance PenaltyType_eq_dec : EqDecision PenaltyType.
Proof. solve_decision. Defined.
Global Instance GameStatus_eq_dec : EqDecision GameStatus.
Proof. solve_decision. Defined.
Global Instance Role_eq_dec : EqDecision Role.
Proof. solve_decision. Defined.
Global Instance Player_eq_dec : EqDecision Player.t.
Proof. solve_decision. Defined.

Definition StatType_code (t : StatType) : nat :=
  match t with
  | GOAL => 0 | ASSIST => 1 | SHOT => 2 | SAVE => 3 | GROUND_BALL => 4
  | TURNOVER => 5 | CAUSED_TURNOVER => 6 | FACEOFF_WIN => 7 | FACEOFF_LOSS => 8
  end%nat.

Definition StatType_of_code (n : nat) : option StatType :=
  match n with
  | 0 => Some GOAL | 1 => Some ASSIST | 2 => Some SHOT | 3 => Some SAVE
  | 4 => Some GROUND_BALL | 5 => Some TURNOVER | 6 => Some CAUSED_TURNOVER
  | 7 => Some FACEOFF_WIN | 8 => Some FACEOFF_LOSS | _ => None
  end%nat.

Global Instance StatType_countable : Countable StatType.
Proof.
  apply (inj_countable StatType_code StatType_of_code).
  intros []; reflexivity.
Defined.

(** ** JavaScript helpers *)

(** Truthiness of an optional string: [undefined], [null] and the empty
    string are falsy. *)
Definition truthy (o : option string) : bool :=
  match o with
  | Some s => negb (String.eqb s "")
  | None => false
  end.

(** [Array.prototype.sort(compareFn)]: a stable sort; an element moves in
    front of another only when [compareFn] is positive the other way. *)
Section ArraySort.
Context {A : Type} (compareFn : A -> A -> Z).

Fixpoint sort_insert (x : A) (l : list A) : list A :=
  match l with
  | [] => [x]
  | y :: l' => if compareFn x y <=? 0 then x :: y :: l' else y :: sort_insert x l'
  end.

Definition Array_sort (l : list A) : list A := foldr sort_insert [] l.
End ArraySort.

(** [`${prefix}${Date.now()}`] *)
Definition fresh_id (prefix : string) (now : Z) : string := prefix +:+ pretty now.

(** Object spread with one overridden field, [{...game, field: v}]. *)
Module GameSpread.
Import Game.
Definition with_status (v : GameStatus) (g : t) : t :=
  mk (id g) (homeTeam g) (awayTeam g) (scheduledTime g) v (score g) (stats g)
     (penalties g) (currentPeriod g) (gameClock g) (aiSummary g).
Definition with_score (v : Score.t) (g : t) : t :=
  mk (id g) (homeTeam g) (awayTeam g) (scheduledTime g) (status g) v (stats g)
     (penalties g) (currentPeriod g) (gameClock g) (aiSummary g).
Definition with_stats (v : list Stat.t) (g : t) : t :=
  mk (id g) (homeTeam g) (awayTeam g) (scheduledTime g) (status g) (score g) v
     (penalties g) (currentPeriod g) (gameClock g) (aiSummary g).
Definition with_penalties (v : list Penalty.t) (g : t) : t :=
  mk (id g) (homeTeam g) (awayTeam g) (scheduledTime g) (status g) (score g) (stats g)
     (Some v) (currentPeriod g) (gameClock g) (aiSummary g).
Definition with_currentPeriod (v : Z) (g : t) : t :=
  mk (id g) (homeTeam g) (awayTeam g) (scheduledTime g) (status g) (score g) (stats g)
     (penalties g) v (gameClock g) (aiSummary g).
Definition with_gameClock (v : Z) (g : t) : t :=
  mk (id g) (homeTeam g) (awayTeam g) (scheduledTime g) (status g) (score g) (stats g)
     (penalties g) (currentPeriod g) v (aiSummary g).
Definition with_aiSummary (v : string) (g : t) : t :=
  mk (id g) (homeTeam g) (awayTeam g) (scheduledTime g) (status g) (score g) (stats g)
     (penalties g) (currentPeriod g) (gameClock g) (Some v).
End GameSpread.

(** ** Game creation (src/services/storageService.ts) *)

(** The object literal of [handleAddGame]. *)
Definition newGame (homeTeam awayTeam : Team.t) (scheduledTime : string) (now : Z) : Game.t :=
  Game.mk (fresh_id "game_" now) homeTeam awayTeam scheduledTime scheduled
    (Score.mk 0 0) [] (Some []) 1 720 None.

Definition find_team (teams : list Team.t) (teamId : string) : option Team.t :=
  List.find (fun t => String.eqb (Team.id t) teamId) teams.

(** [awayTeamInfo : { id?: string; name?: string }] *)
Record AwayTeamInfo := mkAwayTeamInfo {
  info_id : option string;
  info_name : option string
}.

(** [handleAddGame] on the application state it touches ([teams], [games]):
    the opponent is looked up by id, or created with an empty roster from a
    name; the game is added only when both teams exist. *)
Definition handleAddGame (teams : list Team.t) (games : list Game.t)
    (homeTeamId : string) (awayTeamInfo : AwayTeamInfo) (scheduledTime : string)
    (now : Z) : list Team.t * list Game.t :=
  let homeTeam := find_team teams homeTeamId in
  let '(teams', awayTeam) :=
    if truthy (info_id awayTeamInfo) then
      (teams, find_team teams (default "" (info_id awayTeamInfo)))
    else if truthy (info_name awayTeamInfo) then
      let newOpponentTeam :=
        Team.mk (fresh_id "team_" now) (default "" (info_name awayTeamInfo)) [] in
      (teams ++ [newOpponentTeam], Some newOpponentTeam)
    else (teams, None) in
  match homeTeam, awayTeam with
  | Some h, Some a => (teams', games ++ [newGame h a scheduledTime now])
  | _, _ => (teams', games)
  end.

(** ** The GameTracker component (src/unnamed/part_001, second part) *)

Definition STAT_DEFINITIONS : list StatType :=
  [GOAL; ASSIST; SHOT; GROUND_BALL; TURNOVER; CAUSED_TURNOVER; SAVE;
   FACEOFF_WIN; FACEOFF_LOSS].

(** [{ [playerId: string]: { [key in StatType]?: number } }].  The object is
    used as a map from player ids; ids are generated as [player_...], so no
    key collides with a property of [Object.prototype]. *)
Abbreviation StatsByPlayer := (gmap string (gmap StatType Z)).

(** [playerStats[playerId]?.[key] || 0] *)
Definition statCount (playerStats : StatsByPlayer) (playerId : string)
    (key : StatType) : Z :=
  default 0 (playerStats !! playerId ≫= (fun row => row !! key)).

(** [StatsTable]: the team totals row. *)
Definition teamTotals (team : Team.t) (playerStats : StatsByPlayer) : gmap StatType Z :=
  foldl (fun acc key =>
           <[key := foldl (fun sum player =>
                             sum + statCount playerStats (Player.id player) key)
                          0 (Team.roster team)]> acc)
        ∅ STAT_DEFINITIONS.

(** [PenaltyBox]: the penalties shown for a clock value. *)
Definition activePenalties (penalties : list Penalty.t) (clock : Z) : list Penalty.t :=
  Array_sort (fun a b => Penalty.releaseTime a - Penalty.releaseTime b)
    (List.filter (fun p => clock >? Penalty.releaseTime p) penalties).

(** *** The clock *)

(** The calls the clock effect makes on the audio collaborators: [speak(text)],
    [window.speechSynthesis.cancel()] and [playBuzzer()]. *)
Inductive Cue :=
| Speak (text : string)
| SpeechCancel
| Buzzer.

Global Instance Cue_eq_dec : EqDecision Cue.
Proof. solve_decision. Defined.

(** The state updater of the interval callback, with the cues it emits (it
    runs once for each tick); [speechSynthesis] is
    ['speechSynthesis' in window]. *)
Definition tickClock (speechSynthesis : bool) (prevClock : Z) : Z * list Cue :=
  let newClock := prevClock - 1 in
  (newClock,
   if (newClock <=? 10) && (newClock >? 0) then [Speak (pretty newClock)]
   else if newClock =? 0 then
     (if speechSynthesis then [SpeechCancel] else []) ++ [Buzzer]
   else []).

(** The interval exists while [isClockRunning && clock > 0]. *)
Definition intervalActive (isClockRunning : bool) (clock : Z) : bool :=
  isClockRunning && (clock >? 0).

(** The cleanup of the clock effect. *)
Definition clockEffectCleanup (speechSynthesis : bool) : list Cue :=
  if speechSynthesis then [SpeechCancel] else [].

Definition adjustClock (seconds : Z) (prev : Z) : Z := Z.max 0 (prev + seconds).

(** The reset button: [setClock(720)]. *)
Definition resetClock : Z := 720.

(** *** The audio collaborators *)

(** [audioCtx.state] as [playBuzzer] reads it; the component never closes
    its context. *)
Inductive AudioContextState := ctx_suspended | ctx_running.

(** The calls of [speak] and [playBuzzer] on the browser. *)
Inductive Call :=
| speechSynthesis_cancel
| speechSynthesis_speak (text : string) (rate : float)
| new_AudioContext
| console_error (message : string)
| audioCtx_resume
| createOscillator
| createGain
| oscillator_connect_gainNode
| gainNode_connect_destination
| oscillator_type (type : string)
| frequency_setValueAtTime (value : Z)
| gain_setValueAtTime (value : float)
| oscillator_start
| oscillator_stop (secondsFromNow : float).

(** What the browser decides: whether [new AudioContext()] (or its webkit
    form) returns rather than throws, and what [audioCtx.state] reads at the
    n-th call of [playBuzzer] that gets that far. *)
Record Browser := mkBrowser {
  AudioContext_constructs : bool;
  audioCtx_state : nat -> AudioContextState
}.

(** [audioCtxRef]: whether it holds a context, and how many times
    [playBuzzer] has read the state of that context. *)
Record AudioRefs := mkAudioRefs {
  audioCtxRef : bool;
  stateReads : nat
}.

(** [speak(text)] *)
Definition speak (speechSynthesis : bool) (text : string) : list Call :=
  if speechSynthesis
  then [speechSynthesis_cancel; speechSynthesis_speak text 1.3%float]
  else [].

(** [playBuzzer()] *)
Definition playBuzzer (b : Browser) (a : AudioRefs) : AudioRefs * list Call :=
  let sound (created : list Call) :=
    (mkAudioRefs true (S (stateReads a)),
     created
     ++ (match audioCtx_state b (stateReads a) with
         | ctx_suspended => [audioCtx_resume]
         | ctx_running => []
         end)
     ++ [createOscillator; createGain; oscillator_connect_gainNode;
         gainNode_connect_destination; oscillator_type "sine";
         frequency_setValueAtTime 800; gain_setValueAtTime 0.5%float;
         oscillator_start; oscillator_stop 0.8%float]) in
  if audioCtxRef a then sound []
  else if AudioContext_constructs b then sound [new_AudioContext]
  else (a, [new_AudioContext;
            console_error "Web Audio API is not supported in this browser."]).

(** The calls behind one cue, and behind the cues of a run. *)
Definition performCue (speechSynthesis : bool) (b : Browser) (a : AudioRefs) (cue : Cue)
    : AudioRefs * list Call :=
  match cue with
  | Speak text => (a, speak speechSynthesis text)
  | SpeechCancel => (a, [speechSynthesis_cancel])
  | Buzzer => playBuzzer b a
  end.

Fixpoint perform (speechSynthesis : bool) (b : Browser) (a : AudioRefs) (cues : list Cue)
    : AudioRefs * list Call :=
  match cues with
  | [] => (a, [])
  | cue :: cues' =>
      let '(a', calls) := performCue speechSynthesis b a cue in
      let '(a'', calls') := perform speechSynthesis b a' cues' in
      (a'', calls ++ calls')
  end.

(** *** Stats, score and penalties *)

Definition handleStatAdd (game : Game.t) (clock : Z) (now : Z)
    (player : Player.t) (teamId : string) (type : StatType)
    (assistingPlayerId : option string) : Game.t :=
  let newStat :=
    Stat.mk (fresh_id "stat_" now) (Player.id player) teamId type clock
            assistingPlayerId in
  let newScore :=
    if decide (type = GOAL) then
      if String.eqb teamId (Team.id (Game.homeTeam game))
      then Score.mk (Score.home (Game.score game) + 1) (Score.away (Game.score game))
      else Score.mk (Score.home (Game.score game)) (Score.away (Game.score game) + 1)
    else Game.score game in
  GameSpread.with_score newScore
    (GameSpread.with_stats (Game.stats game ++ [newStat]) game).

Inductive teamType := home | away.

(** [delta: 1 | -1] *)
Inductive Delta := plus_one | minus_one.

Definition delta_value (d : Delta) : Z :=
  match d with plus_one => 1 | minus_one => -1 end.

Definition handleManualScoreChange (game : Game.t) (t : teamType) (delta : Delta)
    : Game.t :=
  let newScore :=
    match t with
    | home => Score.mk (Z.max 0 (Score.home (Game.score game) + delta_value delta))
                       (Score.away (Game.score game))
    | away => Score.mk (Score.home (Game.score game))
                       (Z.max 0 (Score.away (Game.score game) + delta_value delta))
    end in
  GameSpread.with_score newScore game.

(** [handleAddPenalty]: [None] when no player is selected (the early return),
    otherwise the game passed to [onUpdateGame]. *)
Definition handleAddPenalty (game : Game.t) (clock : Z) (now : Z)
    (selectedPlayerInfo : option (Player.t * string))
    (penaltyType : PenaltyType) (duration : Z) : option Game.t :=
  match selectedPlayerInfo with
  | None => None
  | Some (player, teamId) =>
      let newPenalty :=
        Penalty.mk (fresh_id "penalty_" now) (Player.id player) teamId penaltyType
                   duration clock (clock - duration) in
      Some (GameSpread.with_penalties
              (default [] (Game.penalties game) ++ [newPenalty]) game)
  end.

Definition handleEndGame (game : Game.t) : Game.t :=
  GameSpread.with_gameClock 0 (GameSpread.with_status finished game).

(** *** Aggregation *)

(** One iteration of [game.stats.forEach] in [playerStats]. *)
Definition ensureRow (playerId : string) (m : StatsByPlayer) : StatsByPlayer :=
  match m !! playerId with
  | Some _ => m
  | None => <[playerId := ∅]> m
  end.

Definition increment (playerId : string) (key : StatType) (m : StatsByPlayer)
    : StatsByPlayer :=
  let row := default ∅ (m !! playerId) in
  <[playerId := <[key := default 0 (row !! key) + 1]> row]> m.

Definition addStat (m : StatsByPlayer) (stat : Stat.t) : StatsByPlayer :=
  let m1 := increment (Stat.playerId stat) (Stat.type stat)
              (ensureRow (Stat.playerId stat) m) in
  if bool_decide (Stat.type stat = GOAL) && truthy (Stat.assistingPlayerId stat) then
    let a := default "" (Stat.assistingPlayerId stat) in
    increment a ASSIST (ensureRow a m1)
  else m1.

Definition emptyRows (players : list Player.t) : StatsByPlayer :=
  foldl (fun m p => <[Player.id p := ∅]> m) ∅ players.

Definition playerStats (game : Game.t) : StatsByPlayer :=
  foldl addStat
    (emptyRows (Team.roster (Game.homeTeam game) ++ Team.roster (Game.awayTeam game)))
    (Game.stats game).

(** *** The component as a transition system *)

Record AssistModal := mkAssistModal {
  show : bool;
  scoringPlayer : option Player.t;
  scoringTeamId : option string
}.

Definition assistModalClosed : AssistModal := mkAssistModal false None None.

(** The props and the [useState] cells of [GameTracker].  [game] is the prop:
    [onUpdateGame g] stores [g] in the application, which passes it back as
    the prop of the next render.  [summaryRequest] is the game captured by a
    pending [handleGenerateSummary]. *)
Record State := mkState {
  game : Game.t;
  clock : Z;
  isClockRunning : bool;
  assistModal : AssistModal;
  isPenaltyModalOpen : bool;
  isGeneratingSummary : bool;
  selectedPlayerInfo : option (Player.t * string);
  summaryRequest : option Game.t
}.

(** What the component reads from outside its state. *)
Record Env := mkEnv {
  currentUser_role : Role;
  speechSynthesis_in_window : bool
}.

Definition mount (g : Game.t) : State :=
  mkState g (Game.gameClock g) false assistModalClosed false false None None.

Definition onUpdateGame (g : Game.t) (s : State) : State :=
  mkState g (clock s) (isClockRunning s) (assistModal s) (isPenaltyModalOpen s)
          (isGeneratingSummary s) (selectedPlayerInfo s) (summaryRequest s).
Definition setClock (v : Z) (s : State) : State :=
  mkState (game s) v (isClockRunning s) (assistModal s) (isPenaltyModalOpen s)
          (isGeneratingSummary s) (selectedPlayerInfo s) (summaryRequest s).
Definition setIsClockRunning (v : bool) (s : State) : State :=
  mkState (game s) (clock s) v (assistModal s) (isPenaltyModalOpen s)
          (isGeneratingSummary s) (selectedPlayerInfo s) (summaryRequest s).
Definition setAssistModal (v : AssistModal) (s : State) : State :=
  mkState (game s) (clock s) (isClockRunning s) v (isPenaltyModalOpen s)
          (isGeneratingSummary s) (selectedPlayerInfo s) (summaryRequest s).
Definition setIsPenaltyModalOpen (v : bool) (s : State) : State :=
  mkState (game s) (clock s) (isClockRunning s) (assistModal s) v
          (isGeneratingSummary s) (selectedPlayerInfo s) (summaryRequest s).
Definition setSelectedPlayerInfo (v : option (Player.t * string)) (s : State) : State :=
  mkState (game s) (clock s) (isClockRunning s) (assistModal s) (isPenaltyModalOpen s)
          (isGeneratingSummary s) v (summaryRequest s).
Definition setSummary (generating : bool) (req : option Game.t) (s : State) : State :=
  mkState (game s) (clock s) (isClockRunning s) (assistModal s) (isPenaltyModalOpen s)
          generating (selectedPlayerInfo s) req.

(** The user and timer events of the component. *)
Inductive Event :=
| ClockToggleClick
| PeriodMinusClick
| PeriodPlusClick
| ResetClockClick
| AdjustClockClick (seconds : Z)
| EndGameClick
| ReturnClick
| ScoreClick (t : teamType) (delta : Delta)
| PlayerClick (player : Player.t) (teamId : string)
| CancelClick
| StatClick (type : StatType) (now : Z)
| GoalClick
| PenaltyClick
| AssistClick (assistingPlayer : option Player.t) (now : Z)
| PenaltySubmitClick (penaltyType : PenaltyType) (duration : Z) (now : Z)
| PenaltyCloseClick
| SummaryClick
| SummaryResolved (summary : string)
| IntervalFire.

Definition isCoachOrAdmin (env : Env) : bool :=
  bool_decide (currentUser_role env = ADMIN) || bool_decide (currentUser_role env = COACH).

Definition notFinished (s : State) : bool :=
  negb (bool_decide (Game.status (game s) = finished)).

Definition teamOfId (g : Game.t) (teamId : string) : Team.t :=
  if String.eqb teamId (Team.id (Game.homeTeam g)) then Game.homeTeam g
  else Game.awayTeam g.

(** The roster buttons of the assist modal. *)
Definition assistCandidates (s : State) : list Player.t :=
  match scoringPlayer (assistModal s), scoringTeamId (assistModal s) with
  | Some scorer, Some teamId =>
      List.filter (fun p => negb (String.eqb (Player.id p) (Player.id scorer)))
        (Team.roster (teamOfId (game s) teamId))
  | _, _ => []
  end.

Definition assistModalShown (s : State) : bool :=
  show (assistModal s)
  && bool_decide (is_Some (scoringPlayer (assistModal s)))
  && truthy (scoringTeamId (assistModal s)).

(** Which controls the render offers (the JSX conditions of the component)
    and when the interval exists. *)
Definition enabled (env : Env) (s : State) (e : Event) : bool :=
  match e with
  | ClockToggleClick | PeriodMinusClick | PeriodPlusClick | ResetClockClick => true
  | AdjustClockClick seconds =>
      bool_decide (seconds = -10) || bool_decide (seconds = 10)
  | EndGameClick => notFinished s
  | ReturnClick => true
  | ScoreClick _ _ => isCoachOrAdmin env && notFinished s
  | PlayerClick player teamId =>
      notFinished s
      && (String.eqb teamId (Team.id (Game.homeTeam (game s)))
            && bool_decide (player ∈ Team.roster (Game.homeTeam (game s)))
          || String.eqb teamId (Team.id (Game.awayTeam (game s)))
            && bool_decide (player ∈ Team.roster (Game.awayTeam (game s))))
  | CancelClick | GoalClick | PenaltyClick =>
      notFinished s && bool_decide (is_Some (selectedPlayerInfo s))
  | StatClick type _ =>
      notFinished s && bool_decide (is_Some (selectedPlayerInfo s))
      && bool_decide (type ∈ [SHOT; GROUND_BALL; TURNOVER; CAUSED_TURNOVER;
                              FACEOFF_WIN; FACEOFF_LOSS; SAVE])
  | AssistClick assistingPlayer _ =>
      assistModalShown s
      && match assistingPlayer with
         | None => true
         | Some p => bool_decide (p ∈ assistCandidates s)
         end
  | PenaltySubmitClick _ duration _ =>
      isPenaltyModalOpen s && bool_decide (is_Some (selectedPlayerInfo s))
      && bool_decide (duration ∈ [30; 60; 90; 120; 180])
  | PenaltyCloseClick =>
      isPenaltyModalOpen s && bool_decide (is_Some (selectedPlayerInfo s))
  | SummaryClick =>
      negb (notFinished s) && negb (truthy (Game.aiSummary (game s)))
      && negb (isGeneratingSummary s)
  | SummaryResolved _ => bool_decide (is_Some (summaryRequest s))
  | IntervalFire => intervalActive (isClockRunning s) (clock s)
  end.

(** The handlers, with the cues their state updaters emit. *)
Definition handle (env : Env) (s : State) (e : Event) : State * list Cue :=
  match e with
  | ClockToggleClick => (setIsClockRunning (negb (isClockRunning s)) s, [])
  | PeriodMinusClick =>
      (onUpdateGame
         (GameSpread.with_currentPeriod (Z.max 1 (Game.currentPeriod (game s) - 1)) (game s))
         s, [])
  | PeriodPlusClick =>
      (onUpdateGame
         (GameSpread.with_currentPeriod (Game.currentPeriod (game s) + 1) (game s)) s, [])
  | ResetClockClick => (setClock resetClock s, [])
  | AdjustClockClick seconds => (setClock (adjustClock seconds (clock s)) s, [])
  | EndGameClick => (onUpdateGame (handleEndGame (game s)) (setIsClockRunning false s), [])
  | ReturnClick => (setIsClockRunning false s, [])
  | ScoreClick t delta => (onUpdateGame (handleManualScoreChange (game s) t delta) s, [])
  | PlayerClick player teamId => (setSelectedPlayerInfo (Some (player, teamId)) s, [])
  | CancelClick => (setSelectedPlayerInfo None s, [])
  | StatClick type now =>
      match selectedPlayerInfo s with
      | Some (player, teamId) =>
          (setSelectedPlayerInfo None
             (onUpdateGame (handleStatAdd (game s) (clock s) now player teamId type None) s),
           [])
      | None => (s, [])
      end
  | GoalClick =>
      match selectedPlayerInfo s with
      | Some (player, teamId) =>
          (setAssistModal (mkAssistModal true (Some player) (Some teamId))
             (setIsClockRunning false s), [])
      | None => (s, [])
      end
  | PenaltyClick => (setIsPenaltyModalOpen true s, [])
  | AssistClick assistingPlayer now =>
      let s1 :=
        match scoringPlayer (assistModal s), scoringTeamId (assistModal s) with
        | Some scorer, Some teamId =>
            if truthy (Some teamId) then
              onUpdateGame
                (handleStatAdd (game s) (clock s) now scorer teamId GOAL
                   (Player.id <$> assistingPlayer)) s
            else s
        | _, _ => s
        end in
      (setSelectedPlayerInfo None (setAssistModal assistModalClosed s1), [])
  | PenaltySubmitClick penaltyType duration now =>
      match handleAddPenalty (game s) (clock s) now (selectedPlayerInfo s)
              penaltyType duration with
      | Some g =>
          (setSelectedPlayerInfo None (setIsPenaltyModalOpen false (onUpdateGame g s)), [])
      | None => (s, [])
      end
  | PenaltyCloseClick => (setIsPenaltyModalOpen false s, [])
  | SummaryClick => (setSummary true (Some (game s)) s, [])
  | SummaryResolved summary =>
      match summaryRequest s with
      | Some g => (setSummary false None (onUpdateGame (GameSpread.with_aiSummary summary g) s), [])
      | None => (s, [])
      end
  | IntervalFire =>
      let '(newClock, cues) := tickClock (speechSynthesis_in_window env) (clock s) in
      (setClock newClock s, cues)
  end.

(** The effects that run after a transition from [s] to [s']: the clock
    effect is torn down and set up again when [isClockRunning] or [clock]
    changed, and the game clock is synchronised into the game when [clock]
    changed. *)
Definition runEffects (env : Env) (s s' : State) : State * list Cue :=
  let cleanup :=
    if bool_decide (clock s' = clock s) && bool_decide (isClockRunning s' = isClockRunning s)
    then [] else clockEffectCleanup (speechSynthesis_in_window env) in
  let synced :=
    if bool_decide (clock s' = clock s) then s'
    else onUpdateGame (GameSpread.with_gameClock (clock s') (game s')) s' in
  (synced, cleanup).

Definition step (env : Env) (s : State) (e : Event) : State * list Cue :=
  if enabled env s e then
    let '(s', cues) := handle env s e in
    let '(s'', cues') := runEffects env s s' in
    (s'', cues ++ cues')
  else (s, []).

Fixpoint run (env : Env) (s : State) (es : list Event) : State * list Cue :=
  match es with
  | [] => (s, [])
  | e :: es' =>
      let '(s', cues) := step env s e in
      let '(s'', cues') := run env s' es' in
      (s'', cues ++ cues')
  end.

(** *** What the component displays *)

(** [formatTime]: [Math.floor(seconds / 60)] and the remainder [seconds % 60],
    which has the sign of [seconds]. *)
Definition formatTime (seconds : Z) : string :=
  let min := seconds `div` 60 in
  let sec := Z.rem seconds 60 in
  pretty min +:+ ":" +:+ (if sec <? 10 then "0" else "") +:+ pretty sec.

(** The string value of a [StatType]. *)
Definition StatType_value (t : StatType) : string :=
  match t with
  | GOAL => "Goal"
  | ASSIST => "Assist"
  | SHOT => "Shot"
  | SAVE => "Save"
  | GROUND_BALL => "Ground Ball"
  | TURNOVER => "Turnover"
  | CAUSED_TURNOVER => "Caused Turnover"
  | FACEOFF_WIN => "Faceoff Win"
  | FACEOFF_LOSS => "Faceoff Loss"
  end.

(** [roster.find(p => p.id === playerId)] *)
Definition find_player (roster : list Player.t) (playerId : string) : option Player.t :=
  List.find (fun p => String.eqb (Player.id p) playerId) roster.

(** [getPlayerInfo] of [PenaltyBox]: the team is the home team when the id
    is the home team's, and the away team for any other id. *)
Definition getPlayerInfo (homeTeam awayTeam : Team.t) (playerId teamId : string)
    : string * option Player.t :=
  let team := if String.eqb teamId (Team.id homeTeam) then homeTeam else awayTeam in
  (Team.name team, find_player (Team.roster team) playerId).

(** One card of the penalty box. *)
Record PenaltyCard := mkPenaltyCard {
  card_key : string;
  card_teamName : string;
  card_player : option Player.t;
  card_type : PenaltyType;
  card_duration : Z;
  card_remaining : string
}.

(** [PenaltyBox]: [None] is the [null] it returns when no penalty is active. *)
Definition PenaltyBox (penalties : list Penalty.t) (clock : Z) (homeTeam awayTeam : Team.t)
    : option (list PenaltyCard) :=
  let active := activePenalties penalties clock in
  if (length active =? 0)%nat then None
  else Some (List.map
               (fun penalty =>
                  let '(teamName, player) :=
                    getPlayerInfo homeTeam awayTeam (Penalty.playerId penalty)
                                  (Penalty.teamId penalty) in
                  let remainingTime := clock - Penalty.releaseTime penalty in
                  mkPenaltyCard (Penalty.id penalty) teamName player (Penalty.type penalty)
                                (Penalty.duration penalty) (formatTime remainingTime))
               active).

(** One line of the game log. *)
Record LogLine := mkLogLine {
  line_id : string;
  line_text : string;
  line_timestamp : Z
}.

Definition allPlayers (game : Game.t) : list Player.t :=
  Team.roster (Game.homeTeam game) ++ Team.roster (Game.awayTeam game).

(** The callback of [gameLog]'s [map]: [None] is the [null] of a stat whose
    player is on neither roster. *)
Definition logLine (game : Game.t) (stat : Stat.t) : option LogLine :=
  match find_player (allPlayers game) (Stat.playerId stat) with
  | None => None
  | Some player =>
      let team := teamOfId game (Stat.teamId stat) in
      let text :=
        Team.name team +:+ ": #" +:+ Player.jerseyNumber player +:+ " "
        +:+ Player.name player +:+ " - " +:+ StatType_value (Stat.type stat) in
      let text' :=
        if bool_decide (Stat.type stat = GOAL) && truthy (Stat.assistingPlayerId stat) then
          match find_player (allPlayers game) (default "" (Stat.assistingPlayerId stat)) with
          | Some assistPlayer =>
              text +:+ " (Assist #" +:+ Player.jerseyNumber assistPlayer +:+ " "
              +:+ Player.name assistPlayer +:+ ")"
          | None => text
          end
        else text in
      Some (mkLogLine (Stat.id stat) text' (Stat.timestamp stat))
  end.

(** [gameLog]: the stats by descending timestamp, one line for each stat
    whose player is found. *)
Definition gameLog (game : Game.t) : list LogLine :=
  omap (logLine game)
    (Array_sort (fun a b => Stat.timestamp b - Stat.timestamp a) (Game.stats game)).

(** ** The FaceOffTrainer component: motion detection (src/unnamed/part_004) *)

Module FaceOffTrainer.

(** A constant to tune motion sensitivity. Higher means less sensitive. *)
Definition SENSITIVITY_THRESHOLD : float := 10%float.

Inductive DrillState := idle | starting | countdown | set | measuring | result | error.

(** A non-negative integer below 2^53 as a JavaScript number. *)
Definition number_of (z : Z) : float := PrimFloat.of_uint63 (Uint63.of_Z z).

(** An element of a [Uint8ClampedArray] read as a number. *)
Definition byte_number (b : byte) : float := number_of (Z.of_N (Byte.to_N b)).

(** The integer part of a finite number, towards zero. *)
Definition truncate (x : float) : Z :=
  match Prim2SF x with
  | S754_finite s m e =>
      let magnitude := if 0 <=? e then Z.shiftl (Z.pos m) e else Z.shiftr (Z.pos m) (- e) in
      if s then - magnitude else magnitude
  | _ => 0
  end.

(** The conversion of a store into a [Uint8Array]: NaN and the infinities
    give 0, any other number is truncated and taken modulo 256. *)
Definition ToUint8 (x : float) : Z := truncate x mod 256.

(** [Math.round]: the nearest integer, a tie going up; zeros, infinities and
    NaN are returned as they are. *)
Definition Math_round (x : float) : float :=
  match Prim2SF x with
  | S754_finite s m e =>
      if 0 <=? e then x
      else
        let n := if s then Z.neg m else Z.pos m in
        let z := Z.shiftr (2 * n + Z.shiftl 1 (- e)) (- e + 1) in
        if z =? 0 then (if s then neg_zero else zero)
        else if z <? 0 then (- number_of (- z))%float
        else number_of z
  | _ => x
  end.

(** The luma expression of [toGrayscale], in binary64 arithmetic. *)
Definition luma (r g b : byte) : float :=
  (0.299 * byte_number r + 0.587 * byte_number g + 0.114 * byte_number b)%float.

(** [toGrayscale]: one [Uint8Array] element for each RGBA quadruple. *)
Fixpoint toGrayscale (data : list byte) : list Z :=
  match data with
  | r :: g :: b :: _ :: data' => ToUint8 (luma r g b) :: toGrayscale data'
  | _ => []
  end.

(** The loop [for (i < referenceGrayscale.length) diff += Math.abs(...)];
    an index past the end of the current frame reads [undefined]. *)
Fixpoint sumAbsDiff (diff : float) (referenceGrayscale currentGrayscale : list Z) : float :=
  match referenceGrayscale with
  | [] => diff
  | r :: reference' =>
      let c := match currentGrayscale with
               | c :: _ => number_of c
               | [] => nan
               end in
      sumAbsDiff (diff + abs (number_of r - c))%float reference' (tail currentGrayscale)
  end.

Definition averageDiff (referenceGrayscale currentGrayscale : list Z) : float :=
  (sumAbsDiff 0 referenceGrayscale currentGrayscale
   / number_of (Z.of_nat (length referenceGrayscale)))%float.

(** What [startMotionDetection] leaves in the closure of [detect]. *)
Record Detection := mkDetection {
  referenceGrayscale : list Z;
  startTime : float
}.

(** The calls a callback makes on the component and on the browser. *)
Inductive SessionState := setup | running | finished.

Inductive Action :=
| setError (message : string)
| setDrillState (st : DrillState)
| setSessionState (st : SessionState)
| setReactionTime (time : float)
| stopCamera
| clearTimeouts
| clearInterval
| handleDrillComplete (time : float)
| onCompleteAssignment
| playSound (sound : string)
| requestAnimationFrame
| cancelAnimationFrame.

(** [startMotionDetection], given whether the video and the canvas are ready,
    whether the canvas gave a 2d context, the frame drawn on the canvas and
    [performance.now()]. *)
Definition startMotionDetection (videoReady contextReady : bool)
    (referenceFrameData : list byte) (now : float) : list Action * option Detection :=
  if negb videoReady then
    ([setError "Video feed not ready."; setDrillState error], None)
  else if negb contextReady then ([], None)
  else ([requestAnimationFrame],
        Some (mkDetection (toGrayscale referenceFrameData) now)).

(** [detect], one animation-frame callback: the frame drawn on the canvas and
    [performance.now()] are its inputs. *)
Definition detect (d : Detection) (currentFrameData : list byte) (now : float)
    : list Action :=
  let currentGrayscale := toGrayscale currentFrameData in
  if (SENSITIVITY_THRESHOLD <? averageDiff (referenceGrayscale d) currentGrayscale)%float
  then
    let finalTime := Math_round (now - startTime d)%float in
    [setReactionTime finalTime; setDrillState result; stopCamera;
     handleDrillComplete finalTime]
  else [requestAnimationFrame].

(** The last scheduled callback of [runDrillSequence], which enters the
    measuring state. *)
Definition goSignal (videoReady contextReady : bool) (referenceFrameData : list byte)
    (now : float) : list Action * option Detection :=
  let '(actions, d) := startMotionDetection videoReady contextReady referenceFrameData now in
  ([setDrillState measuring; playSound "whistle"] ++ actions, d).

Definition requestsFrame (actions : list Action) : bool :=
  existsb (fun a => match a with requestAnimationFrame => true | _ => false end) actions.

(** The browser runs [detect] on each animation frame for as long as the
    previous call requested one. *)
Fixpoint animationFrames (d : Detection) (frames : list (list byte * float))
    : list (list Action) :=
  match frames with
  | [] => []
  | (data, now) :: frames' =>
      let actions := detect d data now in
      actions :: (if requestsFrame actions then animationFrames d frames' else [])
  end.

(** *** The measurement and the session timer *)

(** What the measurement shares with the rest of the component:
    [animationFrameIdRef] holds an id or [null]; [pendingDetect] is the
    callback the browser will run on the next animation frame, with its
    closure; [timerSet] says that the one-second interval of a timed session
    exists, and [timeRemaining] is its state. *)
Record Polling := mkPolling {
  animationFrameIdRef : bool;
  pendingDetect : option Detection;
  timerSet : bool;
  timeRemaining : Z
}.

(** [handleFinishSession], reading the ref and [activeAssignment]. *)
Definition handleFinishSession (animationFrameIdRef activeAssignment : bool)
    : list Action :=
  [stopCamera; clearTimeouts]
  ++ (if animationFrameIdRef then [cancelAnimationFrame] else [])
  ++ (if activeAssignment then [onCompleteAssignment]
      else [setDrillState idle; setSessionState finished]).

Inductive BrowserEvent :=
| AnimationFrame (currentFrameData : list byte) (now : float)
| SessionTimer.

(** One callback of the browser during a measurement: an animation frame
    runs the pending [detect]; the interval of a timed session runs the
    updater of [timeRemaining], which finishes the session at the last
    second. *)
Definition pollingStep (activeAssignment : bool) (p : Polling) (e : BrowserEvent)
    : Polling * list Action :=
  match e with
  | AnimationFrame data now =>
      match pendingDetect p with
      | Some d =>
          let actions := detect d data now in
          (mkPolling true (if requestsFrame actions then Some d else None)
                     (timerSet p) (timeRemaining p),
           actions)
      | None => (p, [])
      end
  | SessionTimer =>
      if timerSet p then
        if timeRemaining p <=? 1 then
          (mkPolling false None false 0,
           clearInterval :: handleFinishSession (animationFrameIdRef p) activeAssignment)
        else
          (mkPolling (animationFrameIdRef p) (pendingDetect p) true (timeRemaining p - 1), [])
      else (p, [])
  end.

Fixpoint pollingRun (activeAssignment : bool) (p : Polling) (es : list BrowserEvent)
    : Polling * list Action :=
  match es with
  | [] => (p, [])
  | e :: es' =>
      let '(p', actions) := pollingStep activeAssignment p e in
      let '(p'', actions') := pollingRun activeAssignment p' es' in
      (p'', actions ++ actions')
  end.

(** Following the specification's words: the luma of a pixel is
    [0.299*R + 0.587*G + 0.114*B], with no conversion to an integer, and the
    mean difference is the mean absolute difference of two frames of such
    lumas. *)
Fixpoint spec_luma_frame (data : list byte) : list float :=
  match data with
  | r :: g :: b :: _ :: data' => luma r g b :: spec_luma_frame data'
  | _ => []
  end.

Fixpoint spec_sumAbsDiff (diff : float) (reference current : list float) : float :=
  match reference, current with
  | r :: reference', c :: current' =>
      spec_sumAbsDiff (diff + abs (r - c))%float reference' current'
  | _, _ => diff
  end.

Definition spec_meanDiff (referenceData currentData : list byte) : float :=
  (spec_sumAbsDiff 0 (spec_luma_frame referenceData) (spec_luma_frame currentData)
   / number_of (Z.of_nat (length (spec_luma_frame referenceData))))%float.

(** *** Vocabulary of the properties of the detection *)

(** The frame differs from the reference by more than the threshold. *)
Definition exceeds (d : Detection) (currentFrameData : list byte) : bool :=
  (SENSITIVITY_THRESHOLD
   <? averageDiff (referenceGrayscale d) (toGrayscale currentFrameData))%float.

(** What [detect] does when it sees motion at time [now]. *)
Definition detected (d : Detection) (now : float) : list Action :=
  [setReactionTime (Math_round (now - startTime d)%float); setDrillState result;
   stopCamera; handleDrillComplete (Math_round (now - startTime d)%float)].

(** The event is not a frame that exceeds the threshold. *)
Definition stillEvent (d : Detection) (e : BrowserEvent) : Prop :=
  match e with
  | AnimationFrame data _ => exceeds d data = false
  | SessionTimer => True
  end.

(** The number of timer callbacks among the events. *)
Definition timerTicks (es : list BrowserEvent) : nat :=
  length (List.filter (fun e => match e with SessionTimer => true | _ => false end) es).

(** What a still event calls during a measurement. *)
Definition stillActions (e : BrowserEvent) : list Action :=
  match e with
  | AnimationFrame _ _ => [requestAnimationFrame]
  | SessionTimer => []
  end.

(** RGBA pixels: black, a dim red (36, 0, 0) and white. *)
Definition black_pixel : list byte := [x00; x00; x00; xff].

Definition dim_red_pixel : list byte := [x24; x00; x00; xff].

Definition white_pixel : list byte := [xff; xff; xff; xff].

Definition detection_on_black : Detection := mkDetection (toGrayscale black_pixel) 0%float.

End FaceOffTrainer.

(** ** The application component, continued (src/services/storageService.ts) *)

Module View.
Inductive t :=
| dashboard | teams | schedule | game | trainingMenu | faceOffTrainer | shootingDrill
| users | devSupport | playerDashboard | parentDashboard | soundEffects | feedback
| gameReport | analytics.
End View.

Global Instance View_eq_dec : EqDecision View.t.
Proof. solve_decision. Defined.

Module User.
Inductive Status := active | blocked.

Record t := mk {
  id : string;
  username : string;
  email : string;
  password : string;
  role : Role;
  teamIds : option (list string);
  followedTeamIds : option (list string);
  followedPlayerIds : option (list string);
  status : option Status
}.
End User.

(** The state of the application component that the game handlers read and
    write. *)
Record App := mkApp {
  app_teams : list Team.t;
  app_games : list Game.t;
  app_activeGameId : option string;
  app_currentView : View.t
}.

(** [games.find(g => g.id === gameId)] *)
Definition find_game (games : list Game.t) (gameId : string) : option Game.t :=
  List.find (fun g => String.eqb (Game.id g) gameId) games.

(** [activeGame]: no game has the id [null]. *)
Definition activeGame (a : App) : option Game.t :=
  match app_activeGameId a with
  | Some gameId => find_game (app_games a) gameId
  | None => None
  end.

(** [handleUpdateGame]: the new state, and whether the four-second timeout
    was set. *)
Definition handleUpdateGame (a : App) (updatedGame : Game.t) : App * bool :=
  (mkApp (app_teams a)
         (List.map (fun g => if String.eqb (Game.id g) (Game.id updatedGame)
                             then updatedGame else g)
                   (app_games a))
         (app_activeGameId a) (app_currentView a),
   bool_decide (Some (Game.id updatedGame) = app_activeGameId a)
   && bool_decide (Game.status updatedGame = finished)).

(** The callback of that timeout, with the [currentView] of its closure. *)
Definition navigateAfterFinish (currentView : View.t) (a : App) : App :=
  if bool_decide (currentView = View.game)
  then mkApp (app_teams a) (app_games a) None (app_currentView a)
  else a.

Definition handleDeleteGame (a : App) (gameId : string) : App :=
  mkApp (app_teams a)
        (List.filter (fun g => negb (String.eqb (Game.id g) gameId)) (app_games a))
        (app_activeGameId a) (app_currentView a).

Definition handleDeleteTeam (a : App) (teamId : string) : App :=
  mkApp (List.filter (fun t => negb (String.eqb (Team.id t) teamId)) (app_teams a))
        (List.filter
           (fun g => negb (String.eqb (Team.id (Game.homeTeam g)) teamId)
                     && negb (String.eqb (Team.id (Game.awayTeam g)) teamId))
           (app_games a))
        (app_activeGameId a) (app_currentView a).

Definition startGame (a : App) (gameId : string) : App :=
  match find_game (app_games a) gameId with
  | Some g =>
      let a' := (handleUpdateGame a (GameSpread.with_status live g)).1 in
      mkApp (app_teams a') (app_games a') (Some gameId) View.game
  | None => a
  end.

(** [handleAddTeam], on [teams] and [users]: when the only team is the
    sample team, its roster is emptied and the users lose what ties them to
    it. *)
Definition cleanUser (sampleTeamPlayerIds : list string) (user : User.t) : User.t :=
  let includesSample (ids : option (list string)) : bool :=
    match ids with
    | Some l => bool_decide ("sample_team_id" ∈ l)
    | None => false
    end in
  let withoutSample (ids : option (list string)) : option (list string) :=
    if includesSample ids
    then List.filter (fun id => negb (String.eqb id "sample_team_id")) <$> ids
    else ids in
  let followedPlayerIds' :=
    List.filter (fun id => negb (bool_decide (id ∈ sampleTeamPlayerIds)))
      <$> User.followedPlayerIds user in
  let hasChanged :=
    includesSample (User.teamIds user)
    || includesSample (User.followedTeamIds user)
    || match User.followedPlayerIds user, followedPlayerIds' with
       | Some l, Some l' => negb (length l =? length l')%nat
       | _, _ => false
       end in
  let newUser :=
    User.mk (User.id user) (User.username user) (User.email user) (User.password user)
            (User.role user) (withoutSample (User.teamIds user))
            (withoutSample (User.followedTeamIds user)) followedPlayerIds'
            (User.status user) in
  if hasChanged then newUser else user.

Definition handleAddTeam (teams : list Team.t) (users : list User.t) (teamName : string)
    (now : Z) : list Team.t * list User.t :=
  let newTeam := Team.mk (fresh_id "team_" now) teamName [] in
  let sampleTeam := find_team teams "sample_team_id" in
  let finalTeams := teams ++ [newTeam] in
  match sampleTeam with
  | Some sample =>
      if (length teams =? 1)%nat then
        let sampleTeamPlayerIds := Player.id <$> Team.roster sample in
        (List.map (fun team => if String.eqb (Team.id team) "sample_team_id"
                               then Team.mk (Team.id team) (Team.name team) []
                               else team)
                  finalTeams,
         List.map (cleanUser sampleTeamPlayerIds) users)
      else (finalTeams, users)
  | None => (finalTeams, users)
  end.

(** ** The Schedule component (src/unnamed/part_002, second part) *)

(** What [handleAddGame] of the schedule form does: an alert, or a call of
    [onAddGame] (after which the three fields are emptied). *)
Inductive ScheduleOutcome :=
| alert (message : string)
| onAddGame (homeTeamId : string) (awayTeamInfo : AwayTeamInfo) (scheduledTime : string).

Section Schedule.
(** [String.prototype.toLowerCase] and [String.prototype.trim]. *)
Variables toLowerCase trim : string -> string.

Definition Schedule_handleAddGame (teams : list Team.t)
    (homeTeamId awayTeamName gameDate : string) : ScheduleOutcome :=
  let trimmedAwayName := trim awayTeamName in
  match find_team teams homeTeamId with
  | Some homeTeam =>
      if truthy (Some trimmedAwayName) && truthy (Some gameDate) then
        if String.eqb (toLowerCase (Team.name homeTeam)) (toLowerCase trimmedAwayName)
        then alert "Home and Away teams cannot be the same."
        else
          let existingAwayTeam :=
            List.find (fun t => String.eqb (toLowerCase (Team.name t))
                                           (toLowerCase trimmedAwayName)) teams in
          let awayTeamInfo :=
            match existingAwayTeam with
            | Some t => mkAwayTeamInfo (Some (Team.id t)) None
            | None => mkAwayTeamInfo None (Some trimmedAwayName)
            end in
          onAddGame homeTeamId awayTeamInfo gameDate
      else alert "Please fill out all fields to schedule a game."
  | None => alert "Please fill out all fields to schedule a game."
  end.
End Schedule.

(** ** The FaceOffTrainer component: sessions (src/unnamed/part_004) *)

(** The callbacks of the component are made with [useCallback], each with
    the complete list of what it reads, so a callback made in one render
    reads the state of that render.  A drill is started by [handleStartDrill]
    of one render and ends, seconds later, in [handleDrillComplete] of that
    same render: the state it reads is the [closure] below, the state at the
    time the drill was started.  The updater functions passed to the state
    setters read the state of the moment.  The camera, the sounds and the
    timeouts do not act on the state modelled here and are left out. *)
Module FaceOffSession.

Inductive SessionType := count | timed.

Global Instance SessionType_eq_dec : EqDecision SessionType.
Proof. solve_decision. Defined.
Global Instance SessionState_eq_dec : EqDecision FaceOffTrainer.SessionState.
Proof. solve_decision. Defined.
Global Instance DrillState_eq_dec : EqDecision FaceOffTrainer.DrillState.
Proof. solve_decision. Defined.

Record SessionConfig := mkSessionConfig {
  type : SessionType;
  value : Z
}.

Record Component := mkComponent {
  sessionState : FaceOffTrainer.SessionState;
  sessionConfig : option SessionConfig;
  drillState : FaceOffTrainer.DrillState;
  reactionTime : option float;
  reactionTimes : list float;
  completedDrills : Z;
  timeRemaining : Z
}.

(** The initial values of the [useState] calls; [activeAssignment] is the id
    of the assignment, if any. *)
Definition mount (activeAssignment : option string) : Component :=
  mkComponent (match activeAssignment with
               | Some _ => FaceOffTrainer.running
               | None => FaceOffTrainer.setup
               end)
              None FaceOffTrainer.idle None [] 0 0.

(** A call [onCompleteAssignment(id, DrillStatus.COMPLETED, { reactionTimes })]. *)
Record Report := mkReport {
  assignmentId : string;
  results_reactionTimes : list float
}.

Definition setDrillState (v : FaceOffTrainer.DrillState) (st : Component) : Component :=
  mkComponent (sessionState st) (sessionConfig st) v (reactionTime st) (reactionTimes st)
              (completedDrills st) (timeRemaining st).

Definition setSessionState (v : FaceOffTrainer.SessionState) (st : Component) : Component :=
  mkComponent v (sessionConfig st) (drillState st) (reactionTime st) (reactionTimes st)
              (completedDrills st) (timeRemaining st).

Definition setReactionTime (v : option float) (st : Component) : Component :=
  mkComponent (sessionState st) (sessionConfig st) (drillState st) v (reactionTimes st)
              (completedDrills st) (timeRemaining st).

(** [handleFinishSession] of the render whose state is [closure]. *)
Definition handleFinishSession (activeAssignment : option string)
    (closure st : Component) : Component * list Report :=
  match activeAssignment with
  | Some id => (st, [mkReport id (reactionTimes closure)])
  | None => (setSessionState FaceOffTrainer.finished (setDrillState FaceOffTrainer.idle st), [])
  end.

(** [handleDrillComplete] of the render whose state is [closure]. *)
Definition handleDrillComplete (activeAssignment : option string)
    (closure : Component) (time : float) (st : Component) : Component * list Report :=
  let newCount := completedDrills st + 1 in
  let st' :=
    mkComponent (sessionState st) (sessionConfig st) (drillState st) (reactionTime st)
                (reactionTimes st ++ [time]) newCount (timeRemaining st) in
  if (match sessionConfig closure with
      | Some c => bool_decide (type c = count)
      | None => false
      end
      || bool_decide (is_Some activeAssignment))
     && (newCount >=? default 1 (value <$> sessionConfig closure))
  then handleFinishSession activeAssignment closure st'
  else (st', []).

(** The branch of [detect] that has seen motion, for the rounded time. *)
Definition motionDetected (activeAssignment : option string) (closure : Component)
    (finalTime : float) (st : Component) : Component * list Report :=
  handleDrillComplete activeAssignment closure finalTime
    (setDrillState FaceOffTrainer.result (setReactionTime (Some finalTime) st)).

(** [handleStartDrill], and the drill sequence up to the whistle. *)
Definition handleStartDrill (st : Component) : Component :=
  setReactionTime None (setDrillState FaceOffTrainer.starting st).

Definition whistle (st : Component) : Component :=
  setDrillState FaceOffTrainer.measuring st.

Definition handleSelectSession (type : SessionType) (value : Z) (st : Component) : Component :=
  handleStartDrill
    (mkComponent FaceOffTrainer.running (Some (mkSessionConfig type value)) (drillState st)
                 (reactionTime st) [] 0
                 (match type with timed => value * 60 | count => timeRemaining st end)).

(** The effect that follows a result. *)
Inductive EffectOutcome := nothing | finishSession | startNextDrill.

Definition resultEffect (st : Component) : EffectOutcome :=
  if negb (bool_decide (sessionState st = FaceOffTrainer.running))
     || negb (bool_decide (drillState st = FaceOffTrainer.result))
  then nothing
  else if match sessionConfig st with
          | Some c => bool_decide (type c = count) && (completedDrills st >=? value c)
          | None => false
          end
  then nothing
  else if match sessionConfig st with
          | Some c => bool_decide (type c = timed) && (timeRemaining st <=? 5)
          | None => false
          end
  then finishSession
  else startNextDrill.

(** The drills of a session whose timer does not run, one for each measured
    time: the drill started with [closure] ends in [motionDetected]; the
    effect of the render that follows then ends the session, leaves it, or
    starts the next drill with its own state as closure. *)
Fixpoint drills (activeAssignment : option string) (closure st : Component)
    (times : list float) : Component * list Report :=
  match times with
  | [] => (st, [])
  | time :: times' =>
      let '(st1, reports) := motionDetected activeAssignment closure time (whistle st) in
      match resultEffect st1 with
      | nothing => (st1, reports)
      | finishSession =>
          let '(st2, reports') := handleFinishSession activeAssignment st1 st1 in
          (st2, reports ++ reports')
      | startNextDrill =>
          let '(st2, reports') :=
            drills activeAssignment st1 (handleStartDrill st1) times' in
          (st2, reports ++ reports')
      end
  end.

Definition handleStartNewSession (st : Component) : Component :=
  mkComponent FaceOffTrainer.setup None (drillState st) (reactionTime st) [] 0
              (timeRemaining st).

(** A session started on the setup screen, shown in the state [st]:
    [handleSelectSession] starts the first drill with the callbacks of the
    render of the click. *)
Definition session (st : Component) (type : SessionType) (value : Z) (times : list float)
    : Component * list Report :=
  drills None st (handleSelectSession type value st) times.

End FaceOffSession.

(** ** Vocabulary of the properties *)

(** The clock operations of the specification: a tick (which exists only
    while the remaining time is positive), a manual adjustment by any number
    of seconds, and the reset to the period length. *)
Inductive ClockOp :=
| OpTick
| OpAdjust (deltaSeconds : Z)
| OpResetClock.

Definition applyClockOp (speechSynthesis : bool) (remaining : Z) (op : ClockOp) : Z :=
  match op with
  | OpTick =>
      if intervalActive true remaining then (tickClock speechSynthesis remaining).1
      else remaining
  | OpAdjust deltaSeconds => adjustClock deltaSeconds remaining
  | OpResetClock => resetClock
  end.

(** The successive values of the clock along a sequence of operations. *)
Fixpoint clockTrace (speechSynthesis : bool) (remaining : Z) (ops : list ClockOp) : list Z :=
  match ops with
  | [] => []
  | op :: ops' =>
      let remaining' := applyClockOp speechSynthesis remaining op in
      remaining' :: clockTrace speechSynthesis remaining' ops'
  end.

Definition buzzerCount (cues : list Cue) : nat :=
  length (List.filter (fun c => bool_decide (c = Buzzer)) cues).

(** The utterances handed to the speech synthesiser, with their rates, and
    the number of tones started. *)
Definition utterances (calls : list Call) : list (string * float) :=
  omap (fun c => match c with
                 | speechSynthesis_speak text rate => Some (text, rate)
                 | _ => None
                 end) calls.

Definition tonesStarted (calls : list Call) : nat :=
  length (List.filter (fun c => match c with oscillator_start => true | _ => false end)
                      calls).

(** The texts for which the cues call [speak]. *)
Definition spokenTexts (cues : list Cue) : list string :=
  omap (fun c => match c with Speak text => Some text | _ => None end) cues.

(** The queue of the speech synthesiser after the calls, no time having
    passed: [cancel] empties it and [speak] adds to it. *)
Definition speechQueue (queue : list string) (calls : list Call) : list string :=
  foldl (fun q c => match c with
                    | speechSynthesis_cancel => []
                    | speechSynthesis_speak text _ => q ++ [text]
                    | _ => q
                    end) queue calls.

(** The values a clock running down from [n] announces. *)
Fixpoint countdownTexts (n : nat) : list string :=
  match n with
  | O => []
  | S m =>
      (if (Z.of_nat m <=? 10) && (Z.of_nat m >? 0) then [pretty (Z.of_nat m)] else [])
      ++ countdownTexts m
  end.

(** One call of [recordStat], the operation [handleStatAdd] implements. *)
Record StatCall := mkStatCall {
  call_clock : Z;
  call_now : Z;
  call_player : Player.t;
  call_teamId : string;
  call_type : StatType;
  call_assistingPlayerId : option string
}.

Definition recordStat (game : Game.t) (c : StatCall) : Game.t :=
  handleStatAdd game (call_clock c) (call_now c) (call_player c) (call_teamId c)
    (call_type c) (call_assistingPlayerId c).

Definition recordStats (game : Game.t) (calls : list StatCall) : Game.t :=
  foldl recordStat game calls.

(** The input constraint of [recordStat]: the team passed in is one of the
    game's two teams and the player is on its roster. *)
Definition validCall (game : Game.t) (c : StatCall) : Prop :=
  (call_teamId c = Team.id (Game.homeTeam game)
   /\ call_player c ∈ Team.roster (Game.homeTeam game))
  \/ (call_teamId c = Team.id (Game.awayTeam game)
      /\ call_player c ∈ Team.roster (Game.awayTeam game)).

(** A stat is attributed to a player of [team]: it names the team and a
    player of its roster. *)
Definition attributedTo (team : Team.t) (s : Stat.t) : bool :=
  String.eqb (Stat.teamId s) (Team.id team)
  && bool_decide (Stat.playerId s ∈ Player.id <$> Team.roster team).

Definition isGoalOf (team : Team.t) (s : Stat.t) : bool :=
  bool_decide (Stat.type s = GOAL) && attributedTo team s.

Definition goalsOf (team : Team.t) (stats : list Stat.t) : Z :=
  Z.of_nat (length (List.filter (isGoalOf team) stats)).

(** The score of a game agrees with its goal stats. *)
Definition scoreMatchesGoals (game : Game.t) : Prop :=
  Score.home (Game.score game) = goalsOf (Game.homeTeam game) (Game.stats game)
  /\ Score.away (Game.score game) = goalsOf (Game.awayTeam game) (Game.stats game).

(** The other reading of "attributed to the players of a team": the stat
    names a player of the team's roster, whatever team id it carries. *)
Definition isGoalByRoster (team : Team.t) (s : Stat.t) : bool :=
  bool_decide (Stat.type s = GOAL)
  && bool_decide (Stat.playerId s ∈ Player.id <$> Team.roster team).

Definition goalsByRoster (team : Team.t) (stats : list Stat.t) : Z :=
  Z.of_nat (length (List.filter (isGoalByRoster team) stats)).

(** No player id is on both rosters. *)
Definition rostersDisjoint (homeTeam awayTeam : Team.t) : Prop :=
  forall playerId : string,
    playerId ∈ Player.id <$> Team.roster homeTeam ->
    playerId ∈ Player.id <$> Team.roster awayTeam -> False.

Definition validStat (game : Game.t) (s : Stat.t) : Prop :=
  (Stat.teamId s = Team.id (Game.homeTeam game)
   /\ Stat.playerId s ∈ Player.id <$> Team.roster (Game.homeTeam game))
  \/ (Stat.teamId s = Team.id (Game.awayTeam game)
      /\ Stat.playerId s ∈ Player.id <$> Team.roster (Game.awayTeam game)).

(** Following the specification's words: what one stat of the log contributes
    to the count of type [key] of the player [playerId].  A stat counts 1 for
    its own player and type; a Goal with an assisting player counts 1 more,
    as an Assist of that player. *)
Definition credit (playerId : string) (key : StatType) (s : Stat.t) : Z :=
  (if bool_decide (Stat.playerId s = playerId /\ Stat.type s = key) then 1 else 0)
  + (if bool_decide (key = ASSIST /\ Stat.type s = GOAL
                     /\ truthy (Stat.assistingPlayerId s) = true
                     /\ Stat.assistingPlayerId s = Some playerId)
     then 1 else 0).

Definition credits (playerId : string) (key : StatType) (stats : list Stat.t) : Z :=
  foldr (fun s acc => credit playerId key s + acc) 0 stats.

Definition sumZ (l : list Z) : Z := foldr Z.add 0 l.

(** *** Vocabulary of the clock display *)

Section ClockDisplayVocabulary.
Import Stdlib.Strings.Ascii.

(** The string has no colon. *)
Definition no_colon (s : string) : Prop :=
  forall s1 s2, s <> s1 +:+ String ":"%char s2.

(** The seconds field of [formatTime]. *)
Definition secondsField (sec : Z) : string :=
  (if sec <? 10 then "0" else "") +:+ pretty sec.

Definition digitValue (a : ascii) : Z := Z.of_nat (nat_of_ascii a) - 48.

(** The first two characters of a seconds field, read back as a number. *)
Definition readSecondsField (s : string) : Z :=
  match s with
  | String a (String b _) => 10 * digitValue a + digitValue b
  | _ => 0
  end.

End ClockDisplayVocabulary.

(** *** Vocabulary of the invariants of the tracker *)

(** The identity and the two teams of [g] are those of [g0]. *)
Definition sameTeams (g0 g : Game.t) : Prop :=
  Game.id g = Game.id g0
  /\ Game.homeTeam g = Game.homeTeam g0
  /\ Game.awayTeam g = Game.awayTeam g0.

(** A player together with the id of the team of [g0] that has the player on
    its roster: what a click on a roster button selects. *)
Definition validPair (g0 : Game.t) (player : Player.t) (teamId : string) : Prop :=
  (teamId = Team.id (Game.homeTeam g0) /\ player ∈ Team.roster (Game.homeTeam g0))
  \/ (teamId = Team.id (Game.awayTeam g0) /\ player ∈ Team.roster (Game.awayTeam g0)).

(** The assisting player a click in the assist modal passes on: none, or a
    player of the scoring team's roster other than the scorer. *)
Definition validAssist (g0 : Game.t) (scorer : Player.t) (teamId : string)
    (assistingPlayerId : option string) : Prop :=
  assistingPlayerId = None
  \/ exists assistingPlayer : Player.t,
       assistingPlayerId = Some (Player.id assistingPlayer)
       /\ assistingPlayer ∈ Team.roster (teamOfId g0 teamId)
       /\ Player.id assistingPlayer <> Player.id scorer.

(** The shape of an invariant of the tracker: [P] holds of the game and of
    the game a pending summary request has captured, both have the teams of
    [g0], a captured game is finished, the selections name rostered players
    and [Q] holds of the clock. *)
Definition trackerInv (g0 : Game.t) (P : Game.t -> Prop) (Q : Z -> Prop) (s : State)
    : Prop :=
  (sameTeams g0 (game s) /\ P (game s))
  /\ (forall g, summaryRequest s = Some g ->
                sameTeams g0 g /\ P g /\ Game.status g = finished)
  /\ (forall p t, selectedPlayerInfo s = Some (p, t) -> validPair g0 p t)
  /\ (forall p t, scoringPlayer (assistModal s) = Some p ->
                  scoringTeamId (assistModal s) = Some t -> validPair g0 p t)
  /\ Q (clock s).

(** The persisted numbers of a game are in range. *)
Definition inRange (g : Game.t) : Prop :=
  1 <= Game.currentPeriod g
  /\ 0 <= Score.home (Game.score g)
  /\ 0 <= Score.away (Game.score g)
  /\ 0 <= Game.gameClock g.

(** A stat as the buttons of the tracker record it for the teams of [g0]:
    its player is on the roster of the team it names, its type is not
    Assist, its timestamp is not negative, and an assisting player is only
    on a Goal and is another player of the same team. *)
Definition uiStat (g0 : Game.t) (st : Stat.t) : Prop :=
  (exists player : Player.t,
      Stat.playerId st = Player.id player /\ validPair g0 player (Stat.teamId st))
  /\ Stat.type st <> ASSIST
  /\ 0 <= Stat.timestamp st
  /\ (Stat.assistingPlayerId st = None
      \/ (Stat.type st = GOAL
          /\ exists assistingPlayer : Player.t,
               Stat.assistingPlayerId st = Some (Player.id assistingPlayer)
               /\ assistingPlayer ∈ Team.roster (teamOfId g0 (Stat.teamId st))
               /\ Player.id assistingPlayer <> Stat.playerId st)).

(** A penalty as the penalty modal records it for the teams of [g0]. *)
Definition uiPenalty (g0 : Game.t) (p : Penalty.t) : Prop :=
  (exists player : Player.t,
      Penalty.playerId p = Player.id player /\ validPair g0 player (Penalty.teamId p))
  /\ Penalty.duration p ∈ [30; 60; 90; 120; 180]
  /\ 0 <= Penalty.startTime p
  /\ Penalty.releaseTime p = Penalty.startTime p - Penalty.duration p.

Definition isScoreClick (e : Event) : bool :=
  match e with ScoreClick _ _ => true | _ => false end.

Definition isSummaryResolved (e : Event) : bool :=
  match e with SummaryResolved _ => true | _ => false end.

(** ** Sample data for the examples *)

Definition alice : Player.t := Player.mk "player_1" "Alice" "7" "Attack" None.
Definition bob : Player.t := Player.mk "player_2" "Bob" "9" "Midfield" None.
Definition carol : Player.t := Player.mk "player_3" "Carol" "4" "Defense" None.
Definition hawks : Team.t := Team.mk "team_1" "Hawks" [alice; bob].
Definition owls : Team.t := Team.mk "team_2" "Owls" [carol].

(** A freshly created game, 0-0. *)
Definition game_0_0 : Game.t := newGame hawks owls "2024-05-01T18:00" 1000.

(** The 60-second penalty of the specification's example, committed at
    clock 700. *)
Definition penalty_700_60 : Penalty.t :=
  Penalty.mk "penalty_1" "player_1" "team_1" SLASHING 60 700 (700 - 60).

Definition state_running_at_11 : State :=
  setIsClockRunning true (setClock 11 (mount game_0_0)).

Definition state_running_at_1 : State :=
  setIsClockRunning true (setClock 1 (mount game_0_0)).

(** A browser whose audio context can be created and is running, and one
    without Web Audio; no context created yet. *)
Definition browser_with_audio : Browser := mkBrowser true (fun _ => ctx_running).

Definition browser_without_audio : Browser := mkBrowser false (fun _ => ctx_running).

Definition no_audio_context : AudioRefs := mkAudioRefs false 0.

Definition sample_calls : list StatCall :=
  [ mkStatCall 700 1001 alice "team_1" GOAL (Some "player_2");
    mkStatCall 650 1002 carol "team_2" SHOT None;
    mkStatCall 640 1003 carol "team_2" GOAL None;
    mkStatCall 600 1004 bob "team_1" GOAL (Some "player_1");
    mkStatCall 590 1005 bob "team_1" GROUND_BALL None ].

(** A game that was started, played down to 500 seconds and then ended. *)
Definition live_game : Game.t :=
  GameSpread.with_gameClock 500
    (GameSpread.with_status live game_0_0).

Definition state_after_end : State :=
  (step (mkEnv COACH true) (mount live_game) EndGameClick).1.

(** * Properties *)

(** ** The penalty box *)

Section ArraySortFacts.
Context {A : Type} (compareFn : A -> A -> Z).

Lemma sort_insert_In (x y : A) (l : list A) :
  In y (sort_insert compareFn x l) <-> y = x \/ In y l.
Proof.
  induction l as [|z l IH]; simpl.
  - intuition congruence.
  - destruct (compareFn x z <=? 0); simpl; [intuition congruence|].
    rewrite IH. intuition congruence.
Qed.

Lemma Array_sort_In (y : A) (l : list A) :
  In y (Array_sort compareFn l) <-> In y l.
Proof.
  unfold Array_sort. induction l as [|x l IH]; simpl; [tauto|].
  rewrite sort_insert_In, IH. intuition congruence.
Qed.

Lemma Array_sort_length (l : list A) :
  length (Array_sort compareFn l) = length l.
Proof.
  unfold Array_sort. induction l as [|x l IH]; simpl; [reflexivity|].
  rewrite <- IH. generalize (foldr (sort_insert compareFn) [] l) as s.
  induction s as [|z s IHs]; simpl; [reflexivity|].
  destruct (compareFn x z <=? 0); simpl; congruence.
Qed.
End ArraySortFacts.

Section ArraySortByKey.
Context {A : Type} (key : A -> Z).

Lemma sort_insert_sorted (x : A) (l : list A) :
  StronglySorted (fun a b => key a <= key b) l ->
  StronglySorted (fun a b => key a <= key b) (sort_insert (fun a b => key a - key b) x l).
Proof.
  induction 1 as [|y l Hs IH Hy]; simpl.
  - repeat constructor.
  - destruct (Z.leb_spec (key x - key y) 0) as [Hle|Hgt].
    + constructor; [constructor; assumption|].
      constructor; [lia|].
      eapply Forall_impl; [exact Hy|]. intros z Hz. simpl in Hz. lia.
    + constructor; [exact IH|].
      apply Forall_forall. intros z Hz.
      apply list_elem_of_In, sort_insert_In in Hz as [->|Hz]; [lia|].
      rewrite Forall_forall in Hy. apply Hy, list_elem_of_In, Hz.
Qed.

Lemma Array_sort_sorted (l : list A) :
  StronglySorted (fun a b => key a <= key b) (Array_sort (fun a b => key a - key b) l).
Proof.
  unfold Array_sort. induction l as [|x l IH]; simpl; [constructor|].
  apply sort_insert_sorted, IH.
Qed.
End ArraySortByKey.

(** The view of [PenaltyBox] is in ascending order of release time, the
    penalty to be released last coming last. *)
Lemma activePenalties_sorted (penalties : list Penalty.t) (clock : Z) :
  StronglySorted (fun a b => Penalty.releaseTime a <= Penalty.releaseTime b)
    (activePenalties penalties clock).
Proof. unfold activePenalties. apply (Array_sort_sorted Penalty.releaseTime). Qed.

(** C1, as the code has it.  The view of [PenaltyBox] holds a penalty exactly
    when the penalty is in the log and [releaseTime < clock]; the start time
    is not looked at.  The 60-second penalty committed at clock 700 is in the
    view for every clock above 640, 701 included, and absent at 640. *)
Theorem activePenalties_iff_released_below_clock :
  (forall (penalties : list Penalty.t) (clock : Z) (p : Penalty.t),
      In p (activePenalties penalties clock)
      <-> In p penalties /\ Penalty.releaseTime p < clock)
  /\ (forall c : Z, In penalty_700_60 (activePenalties [penalty_700_60] c) <-> 640 < c).
Proof.
  assert (H : forall penalties clock p,
             In p (activePenalties penalties clock)
             <-> In p penalties /\ Penalty.releaseTime p < clock).
  { intros penalties c p. unfold activePenalties.
    rewrite Array_sort_In, filter_In. rewrite Z.gtb_ltb, Z.ltb_lt. reflexivity. }
  split; [exact H|].
  intros c. rewrite H. simpl. intuition.
Qed.

(** C1 as stated fails: at clock 701 the penalty committed at clock 700 is in
    the view, although 701 is above its start time. *)
Lemma activePenalties_ignores_startTime :
  In penalty_700_60 (activePenalties [penalty_700_60] 701)
  /\ ~ (Penalty.releaseTime penalty_700_60 < 701 <= Penalty.startTime penalty_700_60).
Proof.
  split.
  - vm_compute. left. reflexivity.
  - simpl. lia.
Qed.

(** ** Recording a penalty *)

(** C7.  With a player selected, [handleAddPenalty] passes on the game with
    exactly one penalty appended to the log; the penalty starts at the
    current clock and is released at the current clock minus the duration,
    whatever the sign of that difference, and nothing else of the game
    changes.  Duration 30 at clock 600 gives start 600 and release 570;
    duration 30 at clock 20 gives release -10. *)
Theorem handleAddPenalty_appends_one :
  (forall (game : Game.t) (clock now : Z) (player : Player.t) (teamId : string)
          (penaltyType : PenaltyType) (duration : Z),
      exists p : Penalty.t,
        handleAddPenalty game clock now (Some (player, teamId)) penaltyType duration
        = Some (GameSpread.with_penalties (default [] (Game.penalties game) ++ [p]) game)
        /\ Penalty.playerId p = Player.id player
        /\ Penalty.teamId p = teamId
        /\ Penalty.type p = penaltyType
        /\ Penalty.duration p = duration
        /\ Penalty.startTime p = clock
        /\ Penalty.releaseTime p = clock - duration)
  /\ (forall (game : Game.t) (now : Z) (player : Player.t) (teamId : string),
        exists p : Penalty.t,
          (Game.penalties <$> handleAddPenalty game 600 now (Some (player, teamId)) SLASHING 30)
          = Some (Some (default [] (Game.penalties game) ++ [p]))
          /\ Penalty.startTime p = 600 /\ Penalty.releaseTime p = 570)
  /\ (forall (game : Game.t) (now : Z) (player : Player.t) (teamId : string),
        exists p : Penalty.t,
          (Game.penalties <$> handleAddPenalty game 20 now (Some (player, teamId)) SLASHING 30)
          = Some (Some (default [] (Game.penalties game) ++ [p]))
          /\ Penalty.startTime p = 20 /\ Penalty.releaseTime p = -10).
Proof.
  split; [|split]; intros; eexists; simpl; repeat split; reflexivity.
Qed.

(** The scenario of the specification: a 30-second slashing penalty
    committed at clock 600 is shown at clock 585 and no longer at 565. *)
Example slashing_penalty_scenario :
  let g := default game_0_0
             (handleAddPenalty game_0_0 600 1 (Some (alice, "team_1")) SLASHING 30) in
  (Penalty.startTime <$> default [] (Game.penalties g)) = [600]
  /\ (Penalty.releaseTime <$> default [] (Game.penalties g)) = [570]
  /\ length (activePenalties (default [] (Game.penalties g)) 585) = 1%nat
  /\ activePenalties (default [] (Game.penalties g)) 565 = [].
Proof. vm_compute. repeat split; reflexivity. Qed.

(** ** Recording a stat *)

(** C9.  [handleStatAdd] passes on the game with exactly one stat appended:
    the log is one longer, every earlier entry is where it was, and the
    penalties, the period, the game clock, the status and both teams (with
    their rosters) are those of the game before; for a type other than Goal
    the score is unchanged too. *)
Theorem handleStatAdd_appends_one :
  forall (game : Game.t) (clock now : Z) (player : Player.t) (teamId : string)
         (type : StatType) (assistingPlayerId : option string),
    let game' := handleStatAdd game clock now player teamId type assistingPlayerId in
    Game.stats game'
    = Game.stats game
      ++ [Stat.mk (fresh_id "stat_" now) (Player.id player) teamId type clock
                  assistingPlayerId]
    /\ length (Game.stats game') = S (length (Game.stats game))
    /\ (forall (i : nat) (s : Stat.t),
           Game.stats game !! i = Some s -> Game.stats game' !! i = Some s)
    /\ Game.penalties game' = Game.penalties game
    /\ Game.currentPeriod game' = Game.currentPeriod game
    /\ Game.gameClock game' = Game.gameClock game
    /\ Game.status game' = Game.status game
    /\ Game.homeTeam game' = Game.homeTeam game
    /\ Game.awayTeam game' = Game.awayTeam game
    /\ (type <> GOAL -> Game.score game' = Game.score game).
Proof.
  intros game clk now player teamId type assist game'. subst game'.
  unfold handleStatAdd. simpl.
  repeat split; try reflexivity.
  - rewrite length_app. simpl. lia.
  - intros i s Hi. apply lookup_app_l_Some. exact Hi.
  - intros Hne. destruct (decide (type = GOAL)); [contradiction|reflexivity].
Qed.

(** C9 at a shot by Alice in the fresh game: the log holds the one new stat
    and the score is still 0-0. *)
Lemma handleStatAdd_appends_one_witness :
  SHOT <> GOAL
  /\ (let game' := handleStatAdd game_0_0 700 1001 alice "team_1" SHOT None in
      Game.stats game'
      = Game.stats game_0_0
        ++ [Stat.mk (fresh_id "stat_" 1001) (Player.id alice) "team_1" SHOT 700 None]
      /\ length (Game.stats game') = S (length (Game.stats game_0_0))
      /\ (forall (i : nat) (s : Stat.t),
             Game.stats game_0_0 !! i = Some s -> Game.stats game' !! i = Some s)
      /\ Game.penalties game' = Game.penalties game_0_0
      /\ Game.currentPeriod game' = Game.currentPeriod game_0_0
      /\ Game.gameClock game' = Game.gameClock game_0_0
      /\ Game.status game' = Game.status game_0_0
      /\ Game.homeTeam game' = Game.homeTeam game_0_0
      /\ Game.awayTeam game' = Game.awayTeam game_0_0
      /\ (SHOT <> GOAL -> Game.score game' = Game.score game_0_0))
  /\ Game.score (handleStatAdd game_0_0 700 1001 alice "team_1" SHOT None) = Score.mk 0 0.
Proof.
  split; [discriminate|]. split; [|reflexivity].
  exact (handleStatAdd_appends_one game_0_0 700 1001 alice "team_1" SHOT None).
Defined.

(** ** Manual score adjustment *)

(** C10.  On a game whose scores are non-negative, [handleManualScoreChange]
    with +1 or -1 on either team gives non-negative scores; the changed score
    is the old one plus the delta, held at 0 from below, so a decrement at 0
    leaves 0; the other team's score and every other field of the game are
    unchanged. *)
Theorem handleManualScoreChange_clamps_at_zero :
  forall (game : Game.t) (t : teamType) (delta : Delta),
    0 <= Score.home (Game.score game) ->
    0 <= Score.away (Game.score game) ->
    let game' := handleManualScoreChange game t delta in
    0 <= Score.home (Game.score game')
    /\ 0 <= Score.away (Game.score game')
    /\ match t with
       | home =>
           Score.home (Game.score game')
           = Z.max 0 (Score.home (Game.score game) + delta_value delta)
           /\ Score.away (Game.score game') = Score.away (Game.score game)
           /\ (Score.home (Game.score game) = 0 -> delta = minus_one ->
               Score.home (Game.score game') = 0)
       | away =>
           Score.away (Game.score game')
           = Z.max 0 (Score.away (Game.score game) + delta_value delta)
           /\ Score.home (Game.score game') = Score.home (Game.score game)
           /\ (Score.away (Game.score game) = 0 -> delta = minus_one ->
               Score.away (Game.score game') = 0)
       end
    /\ game' = GameSpread.with_score (Game.score game') game.
Proof.
  intros game t delta Hh Ha game'. subst game'.
  unfold handleManualScoreChange.
  destruct t, delta; simpl; repeat split; try lia; intros; try discriminate; lia.
Qed.

(** C10 at a fresh 0-0 game, decrementing the home score. *)
Lemma handleManualScoreChange_clamps_at_zero_witness :
  let game' := handleManualScoreChange game_0_0 home minus_one in
  0 <= Score.home (Game.score game')
  /\ 0 <= Score.away (Game.score game')
  /\ (Score.home (Game.score game')
      = Z.max 0 (Score.home (Game.score game_0_0) + delta_value minus_one)
      /\ Score.away (Game.score game') = Score.away (Game.score game_0_0)
      /\ (Score.home (Game.score game_0_0) = 0 -> minus_one = minus_one ->
          Score.home (Game.score game') = 0))
  /\ game' = GameSpread.with_score (Game.score game') game_0_0.
Proof.
  apply (handleManualScoreChange_clamps_at_zero game_0_0 home minus_one).
  - simpl. lia.
  - simpl. lia.
Defined.

(** ** The clock *)

Lemma applyClockOp_nonneg (speechSynthesis : bool) (remaining : Z) (op : ClockOp) :
  0 <= remaining -> 0 <= applyClockOp speechSynthesis remaining op.
Proof.
  intros H. destruct op; simpl.
  - destruct (remaining >? 0) eqn:E; simpl; [|exact H].
    apply Z.gtb_lt in E. lia.
  - unfold adjustClock. lia.
  - unfold resetClock. lia.
Qed.

(** C5.  From a non-negative clock, every value the clock takes along any
    sequence of ticks, adjustments (by any integer) and resets is
    non-negative; adjusting by -10 at 5 gives 0. *)
Theorem clock_never_negative :
  forall (speechSynthesis : bool) (ops : list ClockOp) (remaining : Z),
    0 <= remaining ->
    Forall (fun r => 0 <= r) (clockTrace speechSynthesis remaining ops)
    /\ adjustClock (-10) 5 = 0.
Proof.
  intros sp ops. split; [|reflexivity].
  revert remaining H. induction ops as [|op ops IH]; intros remaining H; simpl.
  - constructor.
  - constructor.
    + apply applyClockOp_nonneg, H.
    + apply IH, applyClockOp_nonneg, H.
Qed.

(** C5 on a run that ticks from 1, ticks again at 0, adjusts by -10 at 5 and
    by -1000, and resets. *)
Lemma clock_never_negative_witness :
  Forall (fun r => 0 <= r)
    (clockTrace true 1 [OpTick; OpTick; OpAdjust 5; OpAdjust (-10); OpResetClock;
                        OpAdjust (-1000); OpTick])
  /\ adjustClock (-10) 5 = 0.
Proof.
  apply (clock_never_negative true
           [OpTick; OpTick; OpAdjust 5; OpAdjust (-10); OpResetClock; OpAdjust (-1000); OpTick]
           1).
  lia.
Defined.

(** The effects leave the clock state and the running flag as the handler
    set them. *)
Lemma runEffects_clock (env : Env) (s s' : State) :
  clock (runEffects env s s').1 = clock s'.
Proof. unfold runEffects. simpl. case_bool_decide; reflexivity. Qed.

Lemma runEffects_isClockRunning (env : Env) (s s' : State) :
  isClockRunning (runEffects env s s').1 = isClockRunning s'.
Proof. unfold runEffects. simpl. case_bool_decide; reflexivity. Qed.

Lemma handle_clock_nonneg (env : Env) (s : State) (e : Event) :
  enabled env s e = true -> 0 <= clock s -> 0 <= clock (handle env s e).1.
Proof.
  intros En H.
  destruct e; simpl in *; repeat case_match; simplify_eq/=;
    unfold adjustClock, resetClock, intervalActive in *; lia.
Qed.

Lemma step_clock_nonneg (env : Env) (s : State) (e : Event) :
  0 <= clock s -> 0 <= clock (step env s e).1.
Proof.
  intros H. unfold step.
  destruct (enabled env s e) eqn:En; [|exact H].
  pose proof (handle_clock_nonneg env s e En H) as H1.
  destruct (handle env s e) as [s1 c1]. simpl in H1.
  pose proof (runEffects_clock env s s1) as H2.
  destruct (runEffects env s s1) as [s2 c2]. simpl in *. lia.
Qed.

(** The invariant of the clock on the component: from a state whose clock is
    non-negative, no sequence of events makes the clock state negative. *)
Lemma run_clock_nonneg (env : Env) (es : list Event) (s : State) :
  0 <= clock s -> 0 <= clock (run env s es).1.
Proof.
  revert s. induction es as [|e es IH]; intros s H; simpl; [exact H|].
  pose proof (step_clock_nonneg env s e H) as H1.
  destruct (step env s e) as [s1 c1]. simpl in H1.
  specialize (IH s1 H1). destruct (run env s1 es) as [s2 c2]. exact IH.
Qed.

(** The invariant on a run of the component that ticks from 2 to 0, fires
    again, adjusts twice by -10 and resets. *)
Lemma run_clock_nonneg_witness :
  0 <= clock (setIsClockRunning true (setClock 2 (mount game_0_0)))
  /\ 0 <= clock (run (mkEnv COACH true)
                    (setIsClockRunning true (setClock 2 (mount game_0_0)))
                    [IntervalFire; IntervalFire; IntervalFire; AdjustClockClick (-10);
                     AdjustClockClick (-10); ResetClockClick; AdjustClockClick (-10)]).1.
Proof.
  assert (H : 0 <= clock (setIsClockRunning true (setClock 2 (mount game_0_0))))
    by (simpl; lia).
  split; [exact H|].
  exact (run_clock_nonneg (mkEnv COACH true) _ _ H).
Defined.

(** *** Ticks and cues *)

Lemma step_IntervalFire (env : Env) (s : State) :
  isClockRunning s = true -> 0 < clock s ->
  step env s IntervalFire
  = (onUpdateGame (GameSpread.with_gameClock (clock s - 1) (game s))
       (setClock (clock s - 1) s),
     (tickClock (speechSynthesis_in_window env) (clock s)).2
     ++ clockEffectCleanup (speechSynthesis_in_window env)).
Proof.
  intros Hr Hc. unfold step. simpl. unfold intervalActive.
  rewrite Hr. simpl.
  replace (clock s >? 0) with true by lia.
  unfold runEffects. simpl.
  rewrite bool_decide_eq_false_2 by lia. reflexivity.
Qed.

Lemma step_IntervalFire_stopped (env : Env) (s : State) :
  clock s <= 0 -> step env s IntervalFire = (s, []).
Proof.
  intros Hc. unfold step. simpl. unfold intervalActive.
  replace (clock s >? 0) with false by lia.
  rewrite andb_false_r. reflexivity.
Qed.

Lemma buzzerCount_app (c1 c2 : list Cue) :
  buzzerCount (c1 ++ c2) = (buzzerCount c1 + buzzerCount c2)%nat.
Proof. unfold buzzerCount. rewrite List.filter_app, length_app. reflexivity. Qed.

Lemma buzzerCount_cleanup (speechSynthesis : bool) :
  buzzerCount (clockEffectCleanup speechSynthesis) = 0%nat.
Proof. destruct speechSynthesis; reflexivity. Qed.

Lemma buzzerCount_tick (speechSynthesis : bool) (prevClock : Z) :
  buzzerCount (tickClock speechSynthesis prevClock).2
  = if prevClock =? 1 then 1%nat else 0%nat.
Proof.
  unfold tickClock. simpl.
  destruct (prevClock =? 1) eqn:E1.
  - apply Z.eqb_eq in E1. subst. destruct speechSynthesis; reflexivity.
  - apply Z.eqb_neq in E1.
    destruct ((prevClock - 1 <=? 10) && (prevClock - 1 >? 0)); [reflexivity|].
    destruct (prevClock - 1 =? 0) eqn:E0; [|reflexivity].
    apply Z.eqb_eq in E0. lia.
Qed.

(** Ticking a running clock down from [n] seconds. *)
Lemma run_ticks_to_zero (env : Env) (n : nat) (s : State) :
  isClockRunning s = true -> clock s = Z.of_nat n ->
  clock (run env s (repeat IntervalFire n)).1 = 0
  /\ buzzerCount (run env s (repeat IntervalFire n)).2 = (if n is O then 0 else 1)%nat.
Proof.
  revert s. induction n as [|n IH]; intros s Hr Hc.
  - simpl. split; [exact Hc|reflexivity].
  - cbn [repeat run].
    rewrite step_IntervalFire by (try exact Hr; lia).
    set (s1 := onUpdateGame _ _).
    assert (Hr1 : isClockRunning s1 = true) by exact Hr.
    assert (Hc1 : clock s1 = Z.of_nat n) by (subst s1; simpl; lia).
    destruct (IH s1 Hr1 Hc1) as [IHc IHb].
    destruct (run env s1 (repeat IntervalFire n)) as [s2 c2]. cbn [fst snd] in *.
    split; [exact IHc|].
    rewrite !buzzerCount_app, buzzerCount_cleanup, buzzerCount_tick, IHb.
    destruct n as [|n].
    + replace (clock s =? 1) with true by (symmetry; apply Z.eqb_eq; lia). reflexivity.
    + replace (clock s =? 1) with false by (symmetry; apply Z.eqb_neq; lia). reflexivity.
Qed.

Lemma run_ticks_stopped (env : Env) (m : nat) (s : State) :
  clock s <= 0 -> run env s (repeat IntervalFire m) = (s, []).
Proof.
  intros Hc. induction m as [|m IH]; [reflexivity|].
  cbn [repeat run]. rewrite step_IntervalFire_stopped by exact Hc.
  rewrite IH. reflexivity.
Qed.

Lemma run_app (env : Env) (es1 es2 : list Event) (s : State) :
  run env s (es1 ++ es2)
  = ((run env (run env s es1).1 es2).1,
     (run env s es1).2 ++ (run env (run env s es1).1 es2).2).
Proof.
  revert s. induction es1 as [|e es1 IH]; intros s; simpl.
  - destruct (run env s es2); reflexivity.
  - destruct (step env s e) as [s1 c1]. rewrite IH.
    destruct (run env s1 es1) as [s2 c2]. simpl.
    destruct (run env s2 es2) as [s3 c3]. simpl.
    rewrite app_assoc. reflexivity.
Qed.

Lemma run_ticks_beyond (env : Env) (n extra : nat) (s : State) :
  isClockRunning s = true -> clock s = Z.of_nat n ->
  clock (run env s (repeat IntervalFire (n + extra))).1 = 0
  /\ buzzerCount (run env s (repeat IntervalFire (n + extra))).2
     = (if n is O then 0 else 1)%nat.
Proof.
  intros Hr Hc.
  destruct (run_ticks_to_zero env n s Hr Hc) as [H0 Hb].
  rewrite repeat_app, run_app. cbn [fst snd].
  rewrite (run_ticks_stopped env extra (run env s (repeat IntervalFire n)).1) by lia.
  cbn [fst snd]. rewrite app_nil_r. split; assumption.
Qed.

Lemma tick_cues_Speak (speechSynthesis : bool) (prevClock : Z) (text : string) :
  In (Speak text)
     ((tickClock speechSynthesis prevClock).2 ++ clockEffectCleanup speechSynthesis)
  <-> text = pretty (prevClock - 1) /\ 1 <= prevClock - 1 <= 10.
Proof.
  unfold tickClock, clockEffectCleanup. cbn [fst snd]. set (n := prevClock - 1).
  destruct (Z.leb_spec n 10), (Z.gtb_spec n 0), (Z.eqb_spec n 0), speechSynthesis;
    simpl; intuition (try discriminate; try lia; try congruence).
Qed.

Lemma tick_cues_Buzzer (speechSynthesis : bool) (prevClock : Z) :
  In Buzzer
     ((tickClock speechSynthesis prevClock).2 ++ clockEffectCleanup speechSynthesis)
  <-> prevClock - 1 = 0.
Proof.
  unfold tickClock, clockEffectCleanup. cbn [fst snd]. set (n := prevClock - 1).
  destruct (Z.leb_spec n 10), (Z.gtb_spec n 0), (Z.eqb_spec n 0), speechSynthesis;
    simpl; intuition (try discriminate; try lia; try congruence).
Qed.

Lemma perform_app (speechSynthesis : bool) (b : Browser) (a : AudioRefs)
    (cues1 cues2 : list Cue) :
  perform speechSynthesis b a (cues1 ++ cues2)
  = ((perform speechSynthesis b (perform speechSynthesis b a cues1).1 cues2).1,
     (perform speechSynthesis b a cues1).2
     ++ (perform speechSynthesis b (perform speechSynthesis b a cues1).1 cues2).2).
Proof.
  revert a. induction cues1 as [|cue cues1 IH]; intros a; cbn [perform app fst snd].
  - destruct (perform speechSynthesis b a cues2); reflexivity.
  - destruct (performCue speechSynthesis b a cue) as [a1 c1]. rewrite IH.
    destruct (perform speechSynthesis b a1 cues1) as [a2 c2]. cbn [fst snd].
    destruct (perform speechSynthesis b a2 cues2) as [a3 c3]. cbn [fst snd].
    rewrite app_assoc. reflexivity.
Qed.

Lemma utterances_app (c1 c2 : list Call) :
  utterances (c1 ++ c2) = utterances c1 ++ utterances c2.
Proof. unfold utterances. apply omap_app. Qed.

Lemma tonesStarted_app (c1 c2 : list Call) :
  tonesStarted (c1 ++ c2) = (tonesStarted c1 + tonesStarted c2)%nat.
Proof. unfold tonesStarted. rewrite List.filter_app, length_app. reflexivity. Qed.

Lemma spokenTexts_app (c1 c2 : list Cue) :
  spokenTexts (c1 ++ c2) = spokenTexts c1 ++ spokenTexts c2.
Proof. unfold spokenTexts. apply omap_app. Qed.

Lemma playBuzzer_sound (b : Browser) (a : AudioRefs) :
  utterances (playBuzzer b a).2 = []
  /\ tonesStarted (playBuzzer b a).2
     = (if audioCtxRef a || AudioContext_constructs b then 1 else 0)%nat
  /\ audioCtxRef (playBuzzer b a).1 || AudioContext_constructs b
     = audioCtxRef a || AudioContext_constructs b.
Proof.
  unfold playBuzzer.
  destruct (audioCtxRef a) eqn:Ha, (AudioContext_constructs b),
           (audioCtx_state b (stateReads a)); cbn; rewrite ?Ha; auto.
Qed.

(** [speak] hands its text to the synthesiser exactly when the browser has
    one; [playBuzzer] starts a tone exactly when a context exists or can be
    created. *)
Lemma utterances_perform (speechSynthesis : bool) (b : Browser) (a : AudioRefs)
    (cues : list Cue) :
  utterances (perform speechSynthesis b a cues).2
  = if speechSynthesis then (fun text => (text, 1.3%float)) <$> spokenTexts cues else [].
Proof.
  revert a. induction cues as [|cue cues IH]; intros a; cbn [perform].
  - destruct speechSynthesis; reflexivity.
  - destruct (performCue speechSynthesis b a cue) as [a1 c1] eqn:E.
    specialize (IH a1). destruct (perform speechSynthesis b a1 cues) as [a2 c2].
    cbn [snd] in *. rewrite utterances_app, IH.
    destruct cue as [text| |]; cbn [performCue] in E.
    + injection E as <- <-. destruct speechSynthesis; reflexivity.
    + injection E as <- <-. destruct speechSynthesis; reflexivity.
    + pose proof (playBuzzer_sound b a) as [Hu _]. rewrite E in Hu. cbn [snd] in Hu.
      rewrite Hu. destruct speechSynthesis; reflexivity.
Qed.

Lemma tonesStarted_perform (speechSynthesis : bool) (b : Browser) (a : AudioRefs)
    (cues : list Cue) :
  tonesStarted (perform speechSynthesis b a cues).2
  = if audioCtxRef a || AudioContext_constructs b then buzzerCount cues else 0%nat.
Proof.
  revert a. induction cues as [|cue cues IH]; intros a; cbn [perform].
  - destruct (audioCtxRef a || AudioContext_constructs b); reflexivity.
  - destruct (performCue speechSynthesis b a cue) as [a1 c1] eqn:E.
    specialize (IH a1). destruct (perform speechSynthesis b a1 cues) as [a2 c2].
    cbn [snd] in *. rewrite tonesStarted_app, IH.
    change (cue :: cues) with ([cue] ++ cues). rewrite buzzerCount_app.
    destruct cue as [text| |]; cbn [performCue] in E.
    + injection E as <- <-. unfold speak.
      destruct speechSynthesis, (audioCtxRef a || AudioContext_constructs b); reflexivity.
    + injection E as <- <-.
      destruct (audioCtxRef a || AudioContext_constructs b); reflexivity.
    + pose proof (playBuzzer_sound b a) as (_ & Ht & Hr). rewrite E in Ht, Hr.
      cbn [fst snd] in Ht, Hr. rewrite Ht, Hr.
      destruct (audioCtxRef a || AudioContext_constructs b); reflexivity.
Qed.

Lemma spokenTexts_tick (speechSynthesis : bool) (prevClock : Z) :
  spokenTexts ((tickClock speechSynthesis prevClock).2 ++ clockEffectCleanup speechSynthesis)
  = if (prevClock - 1 <=? 10) && (prevClock - 1 >? 0) then [pretty (prevClock - 1)] else [].
Proof.
  unfold tickClock, clockEffectCleanup. cbn [snd].
  destruct ((prevClock - 1 <=? 10) && (prevClock - 1 >? 0)), (prevClock - 1 =? 0),
           speechSynthesis; reflexivity.
Qed.

Lemma run_ticks_spoken (env : Env) (n extra : nat) (s : State) :
  isClockRunning s = true -> clock s = Z.of_nat n ->
  spokenTexts (run env s (repeat IntervalFire (n + extra))).2 = countdownTexts n.
Proof.
  revert s. induction n as [|n IH]; intros s Hr Hc.
  - cbn [Nat.add]. rewrite run_ticks_stopped by lia. reflexivity.
  - cbn [Nat.add repeat run].
    rewrite step_IntervalFire by (try exact Hr; lia).
    set (s1 := onUpdateGame _ _).
    assert (Hr1 : isClockRunning s1 = true) by exact Hr.
    assert (Hc1 : clock s1 = Z.of_nat n) by (subst s1; simpl; lia).
    specialize (IH s1 Hr1 Hc1).
    destruct (run env s1 (repeat IntervalFire (n + extra))) as [s2 c2]. cbn [snd] in *.
    rewrite spokenTexts_app, spokenTexts_tick, IH. cbn [countdownTexts].
    replace (clock s - 1) with (Z.of_nat n) by lia. reflexivity.
Qed.

Lemma countdownTexts_720 :
  countdownTexts 720 = ["10"; "9"; "8"; "7"; "6"; "5"; "4"; "3"; "2"; "1"].
Proof. vm_compute. reflexivity. Qed.

(** C4, as the code has it.  While the clock runs with time remaining, the
    interval tick takes exactly 1 off the clock.  It calls [speak] (with the
    new value as text) exactly when the new value lies in [1,10], and the
    call hands that text, at rate 1.3, to the speech synthesiser when the
    browser has one and does nothing otherwise.  It calls [playBuzzer]
    (once) exactly when the new value is 0, after which no interval exists,
    and the call starts one tone when an audio context exists or can be
    created and none otherwise.  A game created with 12 minutes on the
    clock, started and ticked 720 times (or more) ends at 0 with exactly one
    call of [playBuzzer], hence one tone where there is audio, after the
    values 10 down to 1 were handed to the synthesiser where there is one. *)
Theorem tick_decrements_and_cues_once :
  (forall (env : Env) (b : Browser) (a : AudioRefs) (s : State),
      enabled env s IntervalFire = true ->
      let r := step env s IntervalFire in
      let calls := (perform (speechSynthesis_in_window env) b a r.2).2 in
      clock r.1 = clock s - 1
      /\ (forall text : string,
             In (Speak text) r.2 <-> text = pretty (clock r.1) /\ 1 <= clock r.1 <= 10)
      /\ utterances calls
         = (if speechSynthesis_in_window env && ((clock r.1 <=? 10) && (clock r.1 >? 0))
            then [(pretty (clock r.1), 1.3%float)] else [])
      /\ (In Buzzer r.2 <-> clock r.1 = 0)
      /\ buzzerCount r.2 = (if clock r.1 =? 0 then 1%nat else 0%nat)
      /\ tonesStarted calls
         = (if (clock r.1 =? 0) && (audioCtxRef a || AudioContext_constructs b)
            then 1%nat else 0%nat)
      /\ (clock r.1 = 0 -> enabled env r.1 IntervalFire = false))
  /\ (forall (env : Env) (b : Browser) (a : AudioRefs) (homeTeam awayTeam : Team.t)
             (scheduledTime : string) (now : Z) (extra : nat),
        let g := newGame homeTeam awayTeam scheduledTime now in
        let started := (step env (mount g) ClockToggleClick).1 in
        let r := run env started (repeat IntervalFire (720 + extra)) in
        let calls := (perform (speechSynthesis_in_window env) b a r.2).2 in
        Game.currentPeriod g = 1 /\ clock started = 720 /\ isClockRunning started = true
        /\ clock r.1 = 0 /\ buzzerCount r.2 = 1%nat
        /\ tonesStarted calls
           = (if audioCtxRef a || AudioContext_constructs b then 1%nat else 0%nat)
        /\ utterances calls
           = (if speechSynthesis_in_window env
              then (fun text => (text, 1.3%float))
                     <$> ["10"; "9"; "8"; "7"; "6"; "5"; "4"; "3"; "2"; "1"]
              else [])).
Proof.
  split.
  - intros env b a s En r calls. subst calls r.
    simpl in En. unfold intervalActive in En.
    apply andb_true_iff in En as [Hr Hc]. apply Z.gtb_lt in Hc.
    rewrite utterances_perform, tonesStarted_perform.
    rewrite step_IntervalFire by assumption. cbn [fst snd].
    change (clock (onUpdateGame _ (setClock (clock s - 1) s))) with (clock s - 1).
    split; [reflexivity|].
    split; [intros text; apply tick_cues_Speak|].
    split.
    { rewrite spokenTexts_tick.
      destruct (speechSynthesis_in_window env),
               ((clock s - 1 <=? 10) && (clock s - 1 >? 0)); reflexivity. }
    split; [apply tick_cues_Buzzer|].
    assert (Hb : buzzerCount
                   ((tickClock (speechSynthesis_in_window env) (clock s)).2
                    ++ clockEffectCleanup (speechSynthesis_in_window env))
                 = (if clock s - 1 =? 0 then 1%nat else 0%nat)).
    { rewrite buzzerCount_app, buzzerCount_cleanup, buzzerCount_tick.
      destruct (Z.eqb_spec (clock s) 1), (Z.eqb_spec (clock s - 1) 0); lia. }
    split; [exact Hb|].
    split.
    + rewrite Hb.
      destruct (clock s - 1 =? 0), (audioCtxRef a || AudioContext_constructs b);
        reflexivity.
    + intros Hc0. simpl. unfold intervalActive.
      replace (clock s - 1 >? 0) with false by lia.
      apply andb_false_r.
  - intros env b a h aw t now extra g started r calls.
    pose proof (run_ticks_beyond env 720 extra started eq_refl eq_refl) as [Hc Hb].
    pose proof (run_ticks_spoken env 720 extra started eq_refl eq_refl) as Hs.
    fold r in Hc, Hb, Hs.
    split; [reflexivity|]. split; [reflexivity|]. split; [reflexivity|].
    split; [exact Hc|]. split; [exact Hb|].
    subst calls. rewrite tonesStarted_perform, utterances_perform, Hb, Hs.
    rewrite countdownTexts_720. split; reflexivity.
Qed.

(** C4 at a running clock showing 11, in a browser with speech synthesis and
    audio: the tick gives 10 and hands "10" to the synthesiser. *)
Lemma tick_decrements_and_cues_once_witness :
  clock (step (mkEnv COACH true) state_running_at_11 IntervalFire).1 = 10
  /\ utterances
       (perform true browser_with_audio no_audio_context
          (step (mkEnv COACH true) state_running_at_11 IntervalFire).2).2
     = [("10", 1.3%float)].
Proof.
  destruct (proj1 tick_decrements_and_cues_once (mkEnv COACH true) browser_with_audio
              no_audio_context state_running_at_11 eq_refl)
    as (H1 & _ & H2 & _).
  split; [exact H1|exact H2].
Defined.

(** The claim as it is written fails where a collaborator is missing.  In a
    browser without speech synthesis the tick from 11 to 10 makes no call at
    all, and in a browser without Web Audio the tick from 1 to 0 starts no
    tone: it logs an error. *)
Lemma cues_need_their_collaborators :
  (clock (step (mkEnv COACH false) state_running_at_11 IntervalFire).1 = 10
   /\ (perform false browser_with_audio no_audio_context
         (step (mkEnv COACH false) state_running_at_11 IntervalFire).2).2 = [])
  /\ (clock (step (mkEnv COACH true) state_running_at_1 IntervalFire).1 = 0
      /\ (perform true browser_without_audio no_audio_context
            (step (mkEnv COACH true) state_running_at_1 IntervalFire).2).2
         = [speechSynthesis_cancel; new_AudioContext;
            console_error "Web Audio API is not supported in this browser.";
            speechSynthesis_cancel]
      /\ tonesStarted
           (perform true browser_without_audio no_audio_context
              (step (mkEnv COACH true) state_running_at_1 IntervalFire).2).2 = 0%nat).
Proof. repeat split; reflexivity. Qed.

Lemma speechQueue_app (queue : list string) (c1 c2 : list Call) :
  speechQueue queue (c1 ++ c2) = speechQueue (speechQueue queue c1) c2.
Proof. unfold speechQueue. apply foldl_app. Qed.

(** An announcement does not outlive the tick that makes it.  In a browser
    with speech synthesis, the calls of a tick end with the [cancel] of the
    cleanup of the clock effect, which runs because the clock changed: the
    calls of a tick that announces a value are [cancel], [speak] and
    [cancel], and after any tick the queue of the synthesiser is empty,
    whatever it held. *)
Theorem tick_announcement_is_cancelled :
  forall (env : Env) (b : Browser) (a : AudioRefs) (s : State) (queue : list string),
    enabled env s IntervalFire = true ->
    speechSynthesis_in_window env = true ->
    speechQueue queue (perform true b a (step env s IntervalFire).2).2 = []
    /\ (1 <= clock s - 1 <= 10 ->
        (perform true b a (step env s IntervalFire).2).2
        = [speechSynthesis_cancel;
           speechSynthesis_speak (pretty (clock s - 1)) 1.3%float;
           speechSynthesis_cancel]).
Proof.
  intros env b a s queue En Hsp.
  simpl in En. unfold intervalActive in En.
  apply andb_true_iff in En as [Hr Hc]. apply Z.gtb_lt in Hc.
  rewrite step_IntervalFire by assumption. cbn [snd]. rewrite Hsp.
  split.
  - rewrite perform_app. cbn [snd clockEffectCleanup perform performCue app].
    rewrite speechQueue_app. reflexivity.
  - intros Hn. unfold tickClock. cbn [snd].
    replace ((clock s - 1 <=? 10) && (clock s - 1 >? 0)) with true
      by (symmetry; apply andb_true_iff; split; lia).
    reflexivity.
Qed.

Lemma tick_announcement_is_cancelled_witness :
  speechQueue ["11"]
    (perform true browser_with_audio no_audio_context
       (step (mkEnv COACH true) state_running_at_11 IntervalFire).2).2
  = [].
Proof.
  apply (proj1 (tick_announcement_is_cancelled (mkEnv COACH true) browser_with_audio
                  no_audio_context state_running_at_11 ["11"] eq_refl eq_refl)).
Defined.

(** ** Game creation *)

Lemma find_team_Some (teams : list Team.t) (teamId : string) (t : Team.t) :
  find_team teams teamId = Some t -> t ∈ teams /\ Team.id t = teamId.
Proof.
  unfold find_team. intros H. apply find_some in H as [Hin He].
  split; [apply list_elem_of_In; exact Hin|apply String.eqb_eq; exact He].
Qed.

(** [handleAddGame] adds a game exactly when it has both teams.  The home
    team is the first team with the id given; the away team is the first
    team with the opponent's id when an id is given, and otherwise, when a
    name is given, a new team with that name, the id [team_<now>] and an empty
    roster, which is appended to the teams whether or not the home team was
    found.  With both teams, one game is appended behind the games there
    were: id [game_<now>], these two teams, the scheduled time given, status
    scheduled, score 0-0, no stats, no penalties, period 1, 720 seconds on
    the clock and no summary; it is the game found under its id, unless an
    earlier game has that id.  Without one of the teams the games stay as
    they were. *)
Theorem handleAddGame_appends_newGame :
  forall (teams : list Team.t) (games : list Game.t) (homeTeamId : string)
         (awayTeamInfo : AwayTeamInfo) (scheduledTime : string) (now : Z),
    let result := handleAddGame teams games homeTeamId awayTeamInfo scheduledTime now in
    let newOpponentTeam :=
      Team.mk (fresh_id "team_" now) (default "" (info_name awayTeamInfo)) [] in
    let awayTeam :=
      if truthy (info_id awayTeamInfo)
      then find_team teams (default "" (info_id awayTeamInfo))
      else if truthy (info_name awayTeamInfo) then Some newOpponentTeam else None in
    result.1
    = (if negb (truthy (info_id awayTeamInfo)) && truthy (info_name awayTeamInfo)
       then teams ++ [newOpponentTeam] else teams)
    /\ (forall h a : Team.t,
          find_team teams homeTeamId = Some h -> awayTeam = Some a ->
          result.2
          = games ++ [Game.mk (fresh_id "game_" now) h a scheduledTime scheduled
                              (Score.mk 0 0) [] (Some []) 1 720 None]
          /\ h ∈ teams /\ Team.id h = homeTeamId
          /\ a ∈ result.1
          /\ (find_game games (fresh_id "game_" now) = None ->
              find_game result.2 (fresh_id "game_" now)
              = Some (Game.mk (fresh_id "game_" now) h a scheduledTime scheduled
                              (Score.mk 0 0) [] (Some []) 1 720 None)))
    /\ (find_team teams homeTeamId = None \/ awayTeam = None -> result.2 = games).
Proof.
  intros teams games homeTeamId info scheduledTime now. cbv zeta.
  assert (Hfind : forall g : Game.t,
             find_game games (Game.id g) = None ->
             find_game (games ++ [g]) (Game.id g) = Some g).
  { intros g. unfold find_game. induction games as [|x games IH]; cbn [List.find app].
    - rewrite String.eqb_refl. reflexivity.
    - destruct (Game.id x =? Game.id g)%string; [discriminate|exact IH]. }
  unfold handleAddGame.
  destruct (truthy (info_id info)) eqn:Ei; cbn [negb andb].
  - destruct (find_team teams homeTeamId) as [h|] eqn:Eh,
             (find_team teams (default "" (info_id info))) as [a|] eqn:Ea;
      cbn [fst snd]; (split; [reflexivity|]); split;
      try (intros h' a' Hh Ha; discriminate);
      try (intros [H|H]; (discriminate || reflexivity)).
    intros h' a' [= <-] [= <-].
    split; [reflexivity|]. split; [apply (find_team_Some _ _ _ Eh)|].
    split; [apply (find_team_Some _ _ _ Eh)|].
    split; [apply (find_team_Some _ _ _ Ea)|].
    apply (Hfind (newGame h a scheduledTime now)).
  - destruct (truthy (info_name info)) eqn:En;
      destruct (find_team teams homeTeamId) as [h|] eqn:Eh;
      cbn [fst snd]; (split; [reflexivity|]); split;
      try (intros h' a' Hh Ha; discriminate);
      try (intros [H|H]; (discriminate || reflexivity)).
    intros h' a' [= <-] [= <-].
    split; [reflexivity|]. split; [apply (find_team_Some _ _ _ Eh)|].
    split; [apply (find_team_Some _ _ _ Eh)|].
    split; [apply elem_of_app; right; apply list_elem_of_singleton; reflexivity|].
    apply (Hfind (newGame h (Team.mk (fresh_id "team_" now) (default "" (info_name info)) [])
                    scheduledTime now)).
Qed.

(** ** The score and the goal stats *)

Lemma goalsOf_snoc (team : Team.t) (stats : list Stat.t) (s : Stat.t) :
  goalsOf team (stats ++ [s]) = goalsOf team stats + (if isGoalOf team s then 1 else 0).
Proof.
  unfold goalsOf. rewrite List.filter_app, length_app. simpl.
  destruct (isGoalOf team s); simpl; lia.
Qed.

Lemma recordStat_teams (game : Game.t) (c : StatCall) :
  Game.homeTeam (recordStat game c) = Game.homeTeam game
  /\ Game.awayTeam (recordStat game c) = Game.awayTeam game.
Proof. split; reflexivity. Qed.

Lemma recordStat_scoreMatchesGoals (game : Game.t) (c : StatCall) :
  Team.id (Game.homeTeam game) <> Team.id (Game.awayTeam game) ->
  validCall game c ->
  scoreMatchesGoals game -> scoreMatchesGoals (recordStat game c).
Proof.
  intros Hne Hv [Hh Ha]. unfold scoreMatchesGoals, recordStat, handleStatAdd.
  cbn [Game.score Game.stats Game.homeTeam Game.awayTeam GameSpread.with_score
       GameSpread.with_stats].
  rewrite !goalsOf_snoc. unfold isGoalOf, attributedTo.
  cbn [Stat.type Stat.teamId Stat.playerId].
  assert (Hin : forall team, call_player c ∈ Team.roster team ->
                 bool_decide (Player.id (call_player c) ∈ Player.id <$> Team.roster team) = true).
  { intros team Hp. apply bool_decide_eq_true. apply list_elem_of_fmap. eauto. }
  destruct (decide (call_type c = GOAL)) as [Hg|Hg].
  - rewrite (bool_decide_eq_true_2 _ Hg). cbn [andb].
    destruct Hv as [[Ht Hp]|[Ht Hp]]; rewrite Ht.
    + rewrite String.eqb_refl, (Hin _ Hp). cbn [andb Score.home Score.away].
      replace (Team.id (Game.homeTeam game) =? Team.id (Game.awayTeam game))%string
        with false by (symmetry; apply String.eqb_neq; exact Hne).
      cbn [andb]. lia.
    + replace (Team.id (Game.awayTeam game) =? Team.id (Game.homeTeam game))%string
        with false by (symmetry; apply String.eqb_neq; congruence).
      rewrite String.eqb_refl, (Hin _ Hp). cbn [andb Score.home Score.away]. lia.
  - rewrite (bool_decide_eq_false_2 _ Hg). cbn [andb]. lia.
Qed.

Lemma recordStats_scoreMatchesGoals (calls : list StatCall) (game : Game.t) :
  Team.id (Game.homeTeam game) <> Team.id (Game.awayTeam game) ->
  Forall (validCall game) calls ->
  scoreMatchesGoals game -> scoreMatchesGoals (recordStats game calls).
Proof.
  revert game. induction calls as [|c calls IH]; intros game Hne Hv Hs; [exact Hs|].
  inversion Hv as [|? ? Hc Hcs]; subst. simpl.
  apply IH.
  - exact Hne.
  - eapply Forall_impl; [exact Hcs|]. intros c' Hc'. exact Hc'.
  - apply recordStat_scoreMatchesGoals; assumption.
Qed.

Lemma recordStats_teams (calls : list StatCall) (game : Game.t) :
  Game.homeTeam (recordStats game calls) = Game.homeTeam game
  /\ Game.awayTeam (recordStats game calls) = Game.awayTeam game.
Proof.
  revert game. induction calls as [|c calls IH]; intros game; [split; reflexivity|].
  simpl. destruct (IH (recordStat game c)) as [H1 H2]. rewrite H1, H2. split; reflexivity.
Qed.

Lemma recordStats_validStats (calls : list StatCall) (game : Game.t) :
  Forall (validCall game) calls ->
  Forall (validStat game) (Game.stats game) ->
  Forall (validStat game) (Game.stats (recordStats game calls)).
Proof.
  revert game. induction calls as [|c calls IH]; intros game Hv Hs; [exact Hs|].
  inversion Hv as [|? ? Hc Hcs]; subst. simpl.
  apply (IH (recordStat game c)); [exact Hcs|].
  unfold recordStat, handleStatAdd. cbn [Game.stats GameSpread.with_score GameSpread.with_stats].
  apply Forall_app. split; [exact Hs|].
  constructor; [|constructor].
  destruct Hc as [[Ht Hp]|[Ht Hp]]; [left|right];
    (split; [exact Ht|apply list_elem_of_fmap; eauto]).
Qed.

Lemma goalsOf_goalsByRoster (game : Game.t) (stats : list Stat.t) :
  Team.id (Game.homeTeam game) <> Team.id (Game.awayTeam game) ->
  rostersDisjoint (Game.homeTeam game) (Game.awayTeam game) ->
  Forall (validStat game) stats ->
  goalsOf (Game.homeTeam game) stats = goalsByRoster (Game.homeTeam game) stats
  /\ goalsOf (Game.awayTeam game) stats = goalsByRoster (Game.awayTeam game) stats.
Proof.
  intros Hne Hd Hs. unfold goalsOf, goalsByRoster.
  assert (He : forall s, validStat game s ->
             isGoalOf (Game.homeTeam game) s = isGoalByRoster (Game.homeTeam game) s
             /\ isGoalOf (Game.awayTeam game) s = isGoalByRoster (Game.awayTeam game) s).
  { intros s Hv. unfold isGoalOf, isGoalByRoster, attributedTo.
    destruct (bool_decide (Stat.type s = GOAL)); [|split; reflexivity]. cbn [andb].
    destruct Hv as [[Ht Hp]|[Ht Hp]]; rewrite Ht.
    - rewrite String.eqb_refl. cbn [andb].
      replace (Team.id (Game.homeTeam game) =? Team.id (Game.awayTeam game))%string
        with false by (symmetry; apply String.eqb_neq; exact Hne).
      cbn [andb]. split; [reflexivity|].
      symmetry. apply bool_decide_eq_false. intros Ha. exact (Hd _ Hp Ha).
    - rewrite String.eqb_refl. cbn [andb].
      replace (Team.id (Game.awayTeam game) =? Team.id (Game.homeTeam game))%string
        with false by (symmetry; apply String.eqb_neq; congruence).
      cbn [andb]. split; [|reflexivity].
      symmetry. apply bool_decide_eq_false. intros Hh. exact (Hd _ Hh Hp). }
  induction Hs as [|s stats Hv _ IH]; [split; reflexivity|].
  destruct (He s Hv) as [E1 E2]. destruct IH as [IH1 IH2].
  cbn [List.filter]. rewrite E1, E2.
  destruct (isGoalByRoster (Game.homeTeam game) s),
           (isGoalByRoster (Game.awayTeam game) s); cbn [length]; lia.
Qed.

(** C2.  From a freshly created game of two teams with different ids, after
    any sequence of [recordStat] calls whose team is one of the two teams and
    whose player is on that team's roster, the home score is the number of
    Goal stats attributed to home-team players and the away score the number
    attributed to away-team players; when no player id is on both rosters,
    these are the numbers of Goal stats whose player is on the home roster
    and on the away roster.  Each call with type Goal adds exactly 1 to one
    counter, the home one when the team id passed is the home team's and the
    away one otherwise, and a call with another type leaves the score as it
    was. *)
Theorem score_counts_goal_stats :
  (forall (homeTeam awayTeam : Team.t) (scheduledTime : string) (now : Z)
          (calls : list StatCall),
      Team.id homeTeam <> Team.id awayTeam ->
      Forall (validCall (newGame homeTeam awayTeam scheduledTime now)) calls ->
      let game := recordStats (newGame homeTeam awayTeam scheduledTime now) calls in
      (Score.home (Game.score game) = goalsOf homeTeam (Game.stats game)
       /\ Score.away (Game.score game) = goalsOf awayTeam (Game.stats game))
      /\ (rostersDisjoint homeTeam awayTeam ->
          Score.home (Game.score game) = goalsByRoster homeTeam (Game.stats game)
          /\ Score.away (Game.score game) = goalsByRoster awayTeam (Game.stats game)))
  /\ (forall (game : Game.t) (c : StatCall),
        let score := Game.score game in
        let score' := Game.score (recordStat game c) in
        (call_type c = GOAL -> call_teamId c = Team.id (Game.homeTeam game) ->
         score' = Score.mk (Score.home score + 1) (Score.away score))
        /\ (call_type c = GOAL -> call_teamId c <> Team.id (Game.homeTeam game) ->
            score' = Score.mk (Score.home score) (Score.away score + 1))
        /\ (call_type c <> GOAL -> score' = score)).
Proof.
  split.
  - intros h a t now calls Hne Hv game.
    pose proof (recordStats_scoreMatchesGoals calls (newGame h a t now) Hne Hv) as H.
    destruct (recordStats_teams calls (newGame h a t now)) as [Hh Ha].
    unfold scoreMatchesGoals in H. fold game in H, Hh, Ha. rewrite Hh, Ha in H.
    assert (Hm : Score.home (Game.score game) = goalsOf h (Game.stats game)
                 /\ Score.away (Game.score game) = goalsOf a (Game.stats game)).
    { apply H. split; reflexivity. }
    split; [exact Hm|].
    intros Hd.
    pose proof (recordStats_validStats calls (newGame h a t now) Hv (Forall_nil_2 _)) as Hs.
    fold game in Hs.
    destruct (goalsOf_goalsByRoster (newGame h a t now) (Game.stats game) Hne Hd Hs)
      as [E1 E2].
    cbn [newGame Game.homeTeam Game.awayTeam] in E1, E2.
    destruct Hm as [Hm1 Hm2]. split; congruence.
  - intros game c score score'. subst score score'.
    unfold recordStat, handleStatAdd. cbn [Game.score GameSpread.with_score].
    repeat split.
    + intros Hg Ht. rewrite Ht, String.eqb_refl.
      destruct (decide (call_type c = GOAL)); [reflexivity|contradiction].
    + intros Hg Ht. apply String.eqb_neq in Ht. rewrite Ht.
      destruct (decide (call_type c = GOAL)); [reflexivity|contradiction].
    + intros Hg. destruct (decide (call_type c = GOAL)); [contradiction|reflexivity].
Qed.

(** C2 on a game of two small teams: two home goals and one away goal. *)
Lemma score_counts_goal_stats_witness :
  Team.id hawks <> Team.id owls
  /\ Forall (validCall game_0_0) sample_calls
  /\ (let game := recordStats game_0_0 sample_calls in
      (Score.home (Game.score game) = goalsOf hawks (Game.stats game)
       /\ Score.away (Game.score game) = goalsOf owls (Game.stats game))
      /\ (rostersDisjoint hawks owls ->
          Score.home (Game.score game) = goalsByRoster hawks (Game.stats game)
          /\ Score.away (Game.score game) = goalsByRoster owls (Game.stats game)))
  /\ Game.score (recordStats game_0_0 sample_calls)
     = Score.mk 2 1.
Proof.
  assert (Hne : Team.id hawks <> Team.id owls) by discriminate.
  assert (Hv : Forall (validCall game_0_0) sample_calls).
  { unfold sample_calls, validCall. simpl.
    repeat constructor;
      (left; split; [reflexivity|repeat constructor])
      || (right; split; [reflexivity|repeat constructor]). }
  split; [exact Hne|]. split; [exact Hv|]. split; [|reflexivity].
  exact (proj1 score_counts_goal_stats hawks owls "2024-05-01T18:00" 1000 sample_calls Hne Hv).
Defined.

(** ** Aggregation *)

Lemma statCount_ensureRow (p : string) (m : StatsByPlayer) (playerId : string)
    (key : StatType) :
  statCount (ensureRow p m) playerId key = statCount m playerId key.
Proof.
  unfold ensureRow, statCount. destruct (m !! p) eqn:E; [reflexivity|].
  rewrite lookup_insert. case_decide; [subst; rewrite E|]; reflexivity.
Qed.

Lemma statCount_increment (p : string) (k : StatType) (m : StatsByPlayer)
    (playerId : string) (key : StatType) :
  statCount (increment p k m) playerId key
  = statCount m playerId key + (if bool_decide (p = playerId /\ k = key) then 1 else 0).
Proof.
  unfold increment, statCount. rewrite lookup_insert.
  case_decide as Hp.
  - subst p. simpl. rewrite lookup_insert.
    case_decide as Hk.
    + subst k. rewrite bool_decide_eq_true_2 by (split; reflexivity). simpl.
      destruct (m !! playerId) as [row|]; simpl; reflexivity.
    + rewrite bool_decide_eq_false_2 by (intros [_ ?]; contradiction).
      destruct (m !! playerId) as [row|]; simpl; [lia|].
      rewrite lookup_empty. simpl. lia.
  - rewrite bool_decide_eq_false_2 by (intros [? _]; contradiction). lia.
Qed.

Lemma statCount_addStat (m : StatsByPlayer) (s : Stat.t) (playerId : string)
    (key : StatType) :
  statCount (addStat m s) playerId key = statCount m playerId key + credit playerId key s.
Proof.
  unfold addStat, credit.
  destruct (bool_decide (Stat.type s = GOAL) && truthy (Stat.assistingPlayerId s)) eqn:E.
  - apply andb_true_iff in E as [Hg Ht]. apply bool_decide_eq_true in Hg.
    rewrite statCount_increment, statCount_ensureRow, statCount_increment,
      statCount_ensureRow.
    destruct (Stat.assistingPlayerId s) as [a|] eqn:Ea; [|discriminate].
    cbn [default].
    simpl in Ht.
    repeat case_bool_decide; try lia; exfalso; unfold id in *;
      repeat match goal with H : _ /\ _ |- _ => destruct H end;
      match goal with
      | H : ~ _ |- False => apply H; repeat split; solve [congruence | exact Ht]
      end.
  - rewrite statCount_increment, statCount_ensureRow. f_equal.
    rewrite (bool_decide_eq_false_2 (key = ASSIST /\ _)); [lia|].
    intros (_ & Hg & Ht & _). rewrite (bool_decide_eq_true_2 _ Hg), Ht in E. discriminate.
Qed.

Lemma statCount_foldl_addStat (stats : list Stat.t) (m : StatsByPlayer)
    (playerId : string) (key : StatType) :
  statCount (foldl addStat m stats) playerId key
  = statCount m playerId key + credits playerId key stats.
Proof.
  revert m. induction stats as [|s stats IH]; intros m; simpl; [lia|].
  rewrite IH, statCount_addStat. lia.
Qed.

Lemma foldl_emptyRows_lookup (players : list Player.t) (m : StatsByPlayer)
    (playerId : string) :
  foldl (fun m p => <[Player.id p := ∅]> m) m players !! playerId
  = if bool_decide (playerId ∈ Player.id <$> players) then Some ∅ else m !! playerId.
Proof.
  revert m. induction players as [|p players IH]; intros m; simpl; [reflexivity|].
  rewrite IH.
  destruct (decide (playerId ∈ Player.id <$> players)) as [Hin|Hin].
  - rewrite !bool_decide_eq_true_2; [reflexivity| |exact Hin].
    apply elem_of_cons. right. exact Hin.
  - rewrite (bool_decide_eq_false_2 _ Hin), lookup_insert.
    destruct (decide (Player.id p = playerId)) as [Hp|Hp].
    + rewrite bool_decide_eq_true_2; [reflexivity|].
      apply elem_of_cons. left. congruence.
    + rewrite bool_decide_eq_false_2; [reflexivity|].
      intros H. apply elem_of_cons in H as [H|H]; [congruence|contradiction].
Qed.

Lemma statCount_emptyRows (players : list Player.t) (playerId : string) (key : StatType) :
  statCount (emptyRows players) playerId key = 0.
Proof.
  unfold statCount, emptyRows. rewrite foldl_emptyRows_lookup.
  case_bool_decide; simpl; [rewrite lookup_empty|rewrite lookup_empty]; reflexivity.
Qed.

Lemma addStat_is_Some (m : StatsByPlayer) (s : Stat.t) (playerId : string) :
  is_Some (m !! playerId) -> is_Some (addStat m s !! playerId).
Proof.
  assert (He : forall p (m : StatsByPlayer),
             is_Some (m !! playerId) -> is_Some (ensureRow p m !! playerId)).
  { intros p m' H. unfold ensureRow. destruct (m' !! p); [exact H|].
    rewrite lookup_insert. case_decide; [eauto|exact H]. }
  assert (Hi : forall p k (m : StatsByPlayer),
             is_Some (m !! playerId) -> is_Some (increment p k m !! playerId)).
  { intros p k m' H. unfold increment. rewrite lookup_insert.
    case_decide; [eauto|exact H]. }
  intros H. unfold addStat.
  destruct (bool_decide (Stat.type s = GOAL) && truthy (Stat.assistingPlayerId s)); auto.
Qed.

Lemma foldl_addStat_is_Some (stats : list Stat.t) (m : StatsByPlayer) (playerId : string) :
  is_Some (m !! playerId) -> is_Some (foldl addStat m stats !! playerId).
Proof.
  revert m. induction stats as [|s stats IH]; intros m H; simpl; [exact H|].
  apply IH, addStat_is_Some, H.
Qed.

Lemma foldl_sum {A : Type} (f : A -> Z) (l : list A) (acc : Z) :
  foldl (fun sum x => sum + f x) acc l = acc + sumZ (f <$> l).
Proof.
  revert acc. induction l as [|x l IH]; intros acc.
  - unfold sumZ. simpl. lia.
  - cbn [foldl]. rewrite IH, fmap_cons. unfold sumZ. cbn [foldr]. lia.
Qed.

Lemma teamTotals_lookup (team : Team.t) (playerStats : StatsByPlayer) (key : StatType) :
  teamTotals team playerStats !! key
  = Some (sumZ ((fun p => statCount playerStats (Player.id p) key) <$> Team.roster team)).
Proof.
  unfold teamTotals, STAT_DEFINITIONS. cbn [foldl].
  rewrite <- (Z.add_0_l (sumZ _)), <- foldl_sum.
  destruct key;
    repeat (rewrite lookup_insert; case_decide; [try reflexivity; discriminate|]);
    congruence.
Qed.

(** C6.  [playerStats] is one left-to-right pass over the stat log ([foldl
    addStat]).  It holds a row for every player of either roster; the count
    it gives to a player and a stat type is the sum over the log of what each
    stat contributes: a stat counts exactly 1 for its own player under its
    own type and, when it is a Goal whose [assistingPlayerId] is present
    (a non-empty id), exactly 1 more as an Assist of the assisting player,
    whatever that player has scored; a stat of another type counts for nobody
    else.  The team totals are, for each stat type, the sum of the counts of
    the players of the team's roster. *)
Theorem playerStats_counts_credits :
  (forall (g : Game.t) (p : Player.t),
      p ∈ Team.roster (Game.homeTeam g) ++ Team.roster (Game.awayTeam g) ->
      is_Some (playerStats g !! Player.id p))
  /\ (forall (g : Game.t) (playerId : string) (key : StatType),
        statCount (playerStats g) playerId key = credits playerId key (Game.stats g))
  /\ (forall (s : Stat.t), credit (Stat.playerId s) (Stat.type s) s >= 1)
  /\ (forall (s : Stat.t), Stat.type s = GOAL -> credit (Stat.playerId s) GOAL s = 1)
  /\ (forall (s : Stat.t) (a : string),
        Stat.type s = GOAL -> Stat.assistingPlayerId s = Some a -> a <> "" ->
        credit a ASSIST s = 1)
  /\ (forall (s : Stat.t) (playerId : string) (key : StatType),
        Stat.type s <> GOAL ->
        credit playerId key s
        = if bool_decide (playerId = Stat.playerId s /\ key = Stat.type s) then 1 else 0)
  /\ (forall (s : Stat.t) (playerId : string) (key : StatType),
        Stat.type s = GOAL ->
        ~ (playerId = Stat.playerId s /\ key = GOAL) ->
        ~ (Stat.assistingPlayerId s = Some playerId /\ key = ASSIST) ->
        credit playerId key s = 0)
  /\ (forall (g : Game.t) (team : Team.t) (key : StatType),
        teamTotals team (playerStats g) !! key
        = Some (sumZ ((fun p => statCount (playerStats g) (Player.id p) key)
                        <$> Team.roster team))).
Proof.
  split; [|split; [|split; [|split; [|split; [|split; [|split]]]]]].
  - intros g p Hp. unfold playerStats.
    apply foldl_addStat_is_Some. unfold emptyRows.
    rewrite foldl_emptyRows_lookup, bool_decide_eq_true_2; [eauto|].
    apply list_elem_of_fmap. eauto.
  - intros g playerId key. unfold playerStats.
    rewrite statCount_foldl_addStat, statCount_emptyRows. lia.
  - intros s. unfold credit.
    rewrite bool_decide_eq_true_2 by (split; reflexivity).
    case_bool_decide; lia.
  - intros s Hg. unfold credit.
    rewrite bool_decide_eq_true_2 by (split; congruence).
    rewrite bool_decide_eq_false_2; [lia|]. intros [? _]. discriminate.
  - intros s a Hg Ha Hne. unfold credit.
    rewrite bool_decide_eq_false_2 by (intros [_ ?]; congruence).
    rewrite bool_decide_eq_true_2; [lia|].
    repeat split; try assumption. rewrite Ha. simpl.
    apply String.eqb_neq in Hne. rewrite Hne. reflexivity.
  - intros s playerId key Hg. unfold credit.
    rewrite (bool_decide_eq_false_2 (key = ASSIST /\ _)) by (intros (_ & ? & _); contradiction).
    rewrite Z.add_0_r.
    repeat case_bool_decide; try reflexivity; exfalso;
      repeat match goal with H : _ /\ _ |- _ => destruct H end;
      match goal with H : ~ _ |- False => apply H; split; congruence end.
  - intros s playerId key Hg H1 H2. unfold credit.
    rewrite bool_decide_eq_false_2
      by (intros [? ?]; apply H1; split; congruence).
    rewrite bool_decide_eq_false_2; [lia|].
    intros (? & _ & _ & ?). apply H2. split; assumption.
  - intros g team key. apply teamTotals_lookup.
Qed.

(** C6 on the sample game: Alice, of the home roster, has a row, and Bob's
    Assist count is the one credit of the goal he assisted. *)
Lemma playerStats_counts_credits_witness :
  let g := recordStats game_0_0 sample_calls in
  alice ∈ Team.roster (Game.homeTeam g) ++ Team.roster (Game.awayTeam g)
  /\ is_Some (playerStats g !! Player.id alice)
  /\ statCount (playerStats g) "player_2" ASSIST = credits "player_2" ASSIST (Game.stats g)
  /\ credits "player_2" ASSIST (Game.stats g) = 1.
Proof.
  intros g.
  assert (Hin : alice ∈ Team.roster (Game.homeTeam g) ++ Team.roster (Game.awayTeam g))
    by (subst g; simpl; left).
  split; [exact Hin|].
  split; [exact (proj1 playerStats_counts_credits g alice Hin)|].
  split; [exact (proj1 (proj2 playerStats_counts_credits) g "player_2" ASSIST)|].
  reflexivity.
Defined.

(** The aggregation of the sample game: Alice has a goal and an assist, Bob a
    goal, an assist and a ground ball, Carol a shot and a goal. *)
Example playerStats_sample :
  let g := recordStats game_0_0 sample_calls in
  (statCount (playerStats g) "player_1" GOAL, statCount (playerStats g) "player_1" ASSIST)
  = (1, 1)
  /\ (statCount (playerStats g) "player_2" GOAL, statCount (playerStats g) "player_2" ASSIST,
      statCount (playerStats g) "player_2" GROUND_BALL) = (1, 1, 1)
  /\ (statCount (playerStats g) "player_3" SHOT, statCount (playerStats g) "player_3" GOAL,
      statCount (playerStats g) "player_3" ASSIST) = (1, 1, 0)
  /\ teamTotals hawks (playerStats g) !! GOAL = Some 2
  /\ teamTotals hawks (playerStats g) !! ASSIST = Some 2
  /\ teamTotals owls (playerStats g) !! GOAL = Some 1.
Proof. vm_compute. repeat split; reflexivity. Qed.

(** ** The finished game *)

(** On a finished game the render offers neither the score buttons, the
    roster, the stat panel nor the end-game button: these events change
    nothing. *)
Lemma finished_game_gated_events (env : Env) (s : State) (e : Event) :
  Game.status (game s) = finished ->
  match e with
  | EndGameClick | ScoreClick _ _ | PlayerClick _ _ | CancelClick | StatClick _ _
  | GoalClick | PenaltyClick => step env s e = (s, [])
  | _ => True
  end.
Proof.
  intros Hf. unfold step.
  destruct e; try exact I; simpl; unfold notFinished; rewrite Hf; simpl;
    rewrite ?andb_false_r; reflexivity.
Qed.

(** C3 fails on the code: the clock row of the scoreboard is rendered for a
    finished game too.  In every state of the tracker whose game is finished
    the period [+] button is offered and adds 1 to [currentPeriod], and the
    reset button is offered and moves [gameClock] to 720 (through the clock
    synchronisation effect) whenever the clock state was not 720; the status
    stays [finished]. *)
Theorem finished_game_still_modified :
  forall (env : Env) (s : State),
    Game.status (game s) = finished ->
    enabled env s PeriodPlusClick = true
    /\ Game.status (game (step env s PeriodPlusClick).1) = finished
    /\ Game.currentPeriod (game (step env s PeriodPlusClick).1)
       = Game.currentPeriod (game s) + 1
    /\ enabled env s ResetClockClick = true
    /\ Game.status (game (step env s ResetClockClick).1) = finished
    /\ (clock s <> 720 ->
        Game.gameClock (game (step env s ResetClockClick).1) = 720).
Proof.
  intros env s Hf. unfold step. simpl.
  rewrite bool_decide_eq_true_2 by reflexivity.
  repeat split; try assumption.
  - unfold runEffects. simpl. case_bool_decide; simpl; assumption.
  - intros Hne. unfold runEffects. simpl.
    rewrite bool_decide_eq_false_2 by (unfold resetClock; congruence). reflexivity.
Qed.

(** C3 in the state the end-game button leaves: the game is finished with
    period 1 and game clock 0; the period button makes the period 2 and the
    reset button makes the game clock 720. *)
Lemma finished_game_still_modified_witness :
  Game.status (game state_after_end) = finished
  /\ (enabled (mkEnv COACH true) state_after_end PeriodPlusClick = true
      /\ Game.status (game (step (mkEnv COACH true) state_after_end PeriodPlusClick).1)
         = finished
      /\ Game.currentPeriod (game (step (mkEnv COACH true) state_after_end PeriodPlusClick).1)
         = Game.currentPeriod (game state_after_end) + 1
      /\ enabled (mkEnv COACH true) state_after_end ResetClockClick = true
      /\ Game.status (game (step (mkEnv COACH true) state_after_end ResetClockClick).1)
         = finished
      /\ (clock state_after_end <> 720 ->
          Game.gameClock (game (step (mkEnv COACH true) state_after_end ResetClockClick).1)
          = 720))
  /\ Game.currentPeriod (game state_after_end) = 1
  /\ Game.gameClock (game state_after_end) = 0
  /\ clock state_after_end = 500
  /\ Game.currentPeriod (game (step (mkEnv COACH true) state_after_end PeriodPlusClick).1) = 2
  /\ Game.gameClock (game (step (mkEnv COACH true) state_after_end ResetClockClick).1) = 720.
Proof.
  split; [reflexivity|]. split; [|repeat split; reflexivity].
  apply (finished_game_still_modified (mkEnv COACH true) state_after_end). reflexivity.
Defined.

(** ** The face-off drill: motion detection *)

Section MotionDetection.
Import FaceOffTrainer.

Lemma toGrayscale_length_aux (n : nat) (data : list byte) :
  (length data < n)%nat -> length (toGrayscale data) = (length data / 4)%nat.
Proof.
  revert data. induction n as [|n IH]; intros data Hn; [lia|].
  destruct data as [|r [|g [|b [|a data']]]]; try reflexivity.
  cbn [toGrayscale length]. rewrite IH by (simpl in Hn; lia).
  change (S (S (S (S (length data'))))) with (4 + length data')%nat.
  replace (4 + length data')%nat with (length data' + 1 * 4)%nat by lia.
  rewrite Nat.div_add by lia. lia.
Qed.

Lemma toGrayscale_length (data : list byte) :
  length (toGrayscale data) = (length data / 4)%nat.
Proof. apply (toGrayscale_length_aux (S (length data))). lia. Qed.

Lemma detect_cases (d : Detection) (data : list byte) (now : float) :
  detect d data now = if exceeds d data then detected d now else [requestAnimationFrame].
Proof. reflexivity. Qed.

Lemma animationFrames_still (d : Detection) (frames : list (list byte * float)) :
  Forall (fun f => exceeds d f.1 = false) frames ->
  animationFrames d frames = replicate (length frames) [requestAnimationFrame].
Proof.
  induction 1 as [|[data now] frames Hf _ IH]; [reflexivity|].
  cbn [animationFrames length replicate]. rewrite detect_cases.
  simpl in Hf. rewrite Hf. cbn [requestsFrame existsb orb]. rewrite IH. reflexivity.
Qed.

Lemma animationFrames_motion (d : Detection) (before after : list (list byte * float))
    (data : list byte) (now : float) :
  Forall (fun f => exceeds d f.1 = false) before ->
  exceeds d data = true ->
  animationFrames d (before ++ (data, now) :: after)
  = replicate (length before) [requestAnimationFrame] ++ [detected d now].
Proof.
  intros Hb He. induction Hb as [|[data0 now0] before Hf _ IH].
  - cbn [app animationFrames length replicate]. rewrite detect_cases, He. reflexivity.
  - cbn [app animationFrames length replicate]. rewrite detect_cases.
    simpl in Hf. rewrite Hf. cbn [requestsFrame existsb orb]. rewrite IH. reflexivity.
Qed.

Lemma pollingRun_no_timer (activeAssignment : bool) (d : Detection)
    (es : list BrowserEvent) (timeRemaining : Z) :
  Forall (stillEvent d) es ->
  pollingRun activeAssignment (mkPolling true (Some d) false timeRemaining) es
  = (mkPolling true (Some d) false timeRemaining,
     concat ((fun e => match e with
                       | AnimationFrame _ _ => [requestAnimationFrame]
                       | SessionTimer => []
                       end) <$> es)).
Proof.
  induction 1 as [|e es He _ IH]; [reflexivity|].
  cbn [pollingRun]. destruct e as [data now|]; cbn [pollingStep pendingDetect timerSet].
  - rewrite detect_cases. simpl in He. rewrite He.
    cbn [requestsFrame existsb orb FaceOffTrainer.timeRemaining]. rewrite IH. reflexivity.
  - rewrite IH. reflexivity.
Qed.

Lemma pollingRun_timer_ends_aux (d : Detection) (n : nat) (t : Z) :
  t = Z.of_nat (S n) ->
  pollingRun false (mkPolling true (Some d) true t) (repeat SessionTimer (S n))
  = (mkPolling false None false 0,
     [clearInterval; stopCamera; clearTimeouts; cancelAnimationFrame;
      setDrillState idle; setSessionState finished]).
Proof.
  revert t. induction n as [|n IH]; intros t Ht.
  - subst t. reflexivity.
  - change (repeat SessionTimer (S (S n))) with (SessionTimer :: repeat SessionTimer (S n)).
    cbn [pollingRun pollingStep timerSet FaceOffTrainer.timeRemaining animationFrameIdRef
         pendingDetect].
    destruct (Z.leb_spec t 1) as [Hle|Hgt]; [lia|].
    rewrite (IH (t - 1)) by lia. reflexivity.
Qed.

Lemma pollingRun_timer_ends (d : Detection) (n : nat) :
  pollingRun false (mkPolling true (Some d) true (Z.of_nat (S n))) (repeat SessionTimer (S n))
  = (mkPolling false None false 0,
     [clearInterval; stopCamera; clearTimeouts; cancelAnimationFrame;
      setDrillState idle; setSessionState finished]).
Proof. apply pollingRun_timer_ends_aux. reflexivity. Qed.

(** C8, as the code has it.  On entering the measuring state with the video
    ready, the reference frame is converted to one 8-bit luma per pixel, the
    integer part of [0.299*R + 0.587*G + 0.114*B], the measurement start is
    taken and an animation frame is requested.  Each callback converts the
    current frame the same way and compares the mean absolute difference of
    the 8-bit lumas with the threshold 10.  At the first frame whose mean
    difference exceeds it the drill goes to [result] with the reaction time
    [Math.round(now - start)], and no further frame is requested.  The loop
    has no timeout of its own: as long as no frame exceeds the threshold,
    every callback requests the next one, however many frames pass, and
    without the interval of a timed session the callback stays pending
    through any run of events; in a timed session the interval finishes the
    session at its last second, which cancels the pending callback. *)
Theorem motion_detection_first_exceeding_frame :
  SENSITIVITY_THRESHOLD = 10%float
  /\ (forall (r g b a : byte) (data : list byte),
        toGrayscale (r :: g :: b :: a :: data) = ToUint8 (luma r g b) :: toGrayscale data)
  /\ (forall data : list byte, length (toGrayscale data) = (length data / 4)%nat)
  /\ (forall (referenceFrameData : list byte) (now : float),
        goSignal true true referenceFrameData now
        = ([setDrillState measuring; playSound "whistle"; requestAnimationFrame],
           Some (mkDetection (toGrayscale referenceFrameData) now)))
  /\ (forall (d : Detection) (data : list byte) (now : float),
        detect d data now
        = if (10 <? averageDiff (referenceGrayscale d) (toGrayscale data))%float
          then [setReactionTime (Math_round (now - startTime d)%float);
                setDrillState result; stopCamera;
                handleDrillComplete (Math_round (now - startTime d)%float)]
          else [requestAnimationFrame])
  /\ (forall (d : Detection) (before after : list (list byte * float))
             (data : list byte) (now : float),
        Forall (fun f => exceeds d f.1 = false) before ->
        exceeds d data = true ->
        animationFrames d (before ++ (data, now) :: after)
        = replicate (length before) [requestAnimationFrame]
          ++ [[setReactionTime (Math_round (now - startTime d)%float);
               setDrillState result; stopCamera;
               handleDrillComplete (Math_round (now - startTime d)%float)]])
  /\ (forall (d : Detection) (frames : list (list byte * float)),
        Forall (fun f => exceeds d f.1 = false) frames ->
        animationFrames d frames = replicate (length frames) [requestAnimationFrame])
  /\ (forall (activeAssignment : bool) (d : Detection) (es : list BrowserEvent)
             (timeRemaining : Z),
        Forall (stillEvent d) es ->
        pendingDetect
          (pollingRun activeAssignment (mkPolling true (Some d) false timeRemaining) es).1
        = Some d)
  /\ (forall (d : Detection) (seconds : nat),
        pollingRun false (mkPolling true (Some d) true (Z.of_nat (S seconds)))
          (repeat SessionTimer (S seconds))
        = (mkPolling false None false 0,
           [clearInterval; stopCamera; clearTimeouts; cancelAnimationFrame;
            setDrillState idle; setSessionState finished])).
Proof.
  split; [reflexivity|]. split; [reflexivity|]. split; [exact toGrayscale_length|].
  split; [reflexivity|]. split; [reflexivity|].
  split; [exact animationFrames_motion|]. split; [exact animationFrames_still|].
  split; [|exact pollingRun_timer_ends].
  intros activeAssignment d es timeRemaining Hes.
  rewrite pollingRun_no_timer by exact Hes. reflexivity.
Qed.

(** C8 on a run of three frames after a black reference frame taken at time
    0: two still frames, then a white frame at 100.4 ms. *)
Lemma motion_detection_first_exceeding_frame_witness :
  Forall (fun f => exceeds detection_on_black f.1 = false)
         [(black_pixel, 16.7%float); (dim_red_pixel, 33.4%float)]
  /\ exceeds detection_on_black white_pixel = true
  /\ animationFrames detection_on_black
       ([(black_pixel, 16.7%float); (dim_red_pixel, 33.4%float)]
        ++ (white_pixel, 100.4%float) :: [(white_pixel, 117.1%float)])
     = replicate 2 [requestAnimationFrame]
       ++ [[setReactionTime (Math_round (100.4 - startTime detection_on_black)%float);
            setDrillState result; stopCamera;
            handleDrillComplete (Math_round (100.4 - startTime detection_on_black)%float)]]
  /\ Math_round (100.4 - startTime detection_on_black)%float = 100%float.
Proof.
  assert (Hb : Forall (fun f => exceeds detection_on_black f.1 = false)
                 [(black_pixel, 16.7%float); (dim_red_pixel, 33.4%float)]).
  { repeat constructor. }
  assert (He : exceeds detection_on_black white_pixel = true) by (vm_compute; reflexivity).
  split; [exact Hb|]. split; [exact He|]. split; [|vm_compute; reflexivity].
  exact (proj1 (proj2 (proj2 (proj2 (proj2 (proj2 motion_detection_first_exceeding_frame)))))
           detection_on_black _ _ white_pixel 100.4%float Hb He).
Defined.

(** C8 as stated fails on the code in three places.  With a black reference
    pixel and a current pixel (36, 0, 0) the mean absolute difference of the
    lumas [0.299*R + 0.587*G + 0.114*B] is 10.764, above the threshold, yet
    the drill stays in the measuring state, since the stored luma is 10.
    When motion is seen at 100.4 ms after a start at 0, the reaction time is
    100, not 100.4.  And in a timed session with two seconds left, two ticks
    of the session interval end a measurement in which no frame exceeded the
    threshold: the pending callback is cancelled and the drill goes idle. *)
Lemma motion_detection_truncates_rounds_and_is_cancelled :
  ((SENSITIVITY_THRESHOLD <? spec_meanDiff black_pixel dim_red_pixel)%float = true
   /\ detect detection_on_black dim_red_pixel 100.4%float = [requestAnimationFrame])
  /\ (detect detection_on_black white_pixel 100.4%float
      = [setReactionTime 100%float; setDrillState result; stopCamera;
         handleDrillComplete 100%float]
      /\ (100.4 - startTime detection_on_black =? 100)%float = false)
  /\ (Forall (stillEvent detection_on_black)
        [AnimationFrame black_pixel 16.7%float; SessionTimer;
         AnimationFrame dim_red_pixel 33.4%float; SessionTimer;
         AnimationFrame black_pixel 50.1%float]
      /\ pollingRun false (mkPolling true (Some detection_on_black) true 2)
           [AnimationFrame black_pixel 16.7%float; SessionTimer;
            AnimationFrame dim_red_pixel 33.4%float; SessionTimer;
            AnimationFrame black_pixel 50.1%float]
         = (mkPolling false None false 0,
            [requestAnimationFrame; requestAnimationFrame;
             clearInterval; stopCamera; clearTimeouts; cancelAnimationFrame;
             setDrillState idle; setSessionState finished])).
Proof.
  split; [|split; [|split]].
  - vm_compute. split; reflexivity.
  - vm_compute. split; reflexivity.
  - repeat constructor.
  - vm_compute. reflexivity.
Qed.

End MotionDetection.

(** * Further properties *)

(** ** Sorting *)

Section ArraySortOrder.
Context {A : Type} (compareFn : A -> A -> Z).

Lemma sort_insert_Permutation (x : A) (l : list A) :
  sort_insert compareFn x l ≡ₚ x :: l.
Proof.
  induction l as [|y l IH]; simpl; [reflexivity|].
  destruct (compareFn x y <=? 0); [reflexivity|].
  rewrite IH. apply Permutation_swap.
Qed.

Lemma Array_sort_Permutation (l : list A) : Array_sort compareFn l ≡ₚ l.
Proof.
  unfold Array_sort. induction l as [|x l IH]; simpl; [reflexivity|].
  rewrite sort_insert_Permutation, IH. reflexivity.
Qed.

(** Sortedness for any relation the comparison decides. *)
Context (R : A -> A -> Prop).
Hypothesis R_trans : forall x y z, R x y -> R y z -> R x z.
Hypothesis compare_le : forall x y, compareFn x y <= 0 -> R x y.
Hypothesis compare_gt : forall x y, 0 < compareFn x y -> R y x.

Lemma sort_insert_StronglySorted (x : A) (l : list A) :
  StronglySorted R l -> StronglySorted R (sort_insert compareFn x l).
Proof.
  induction 1 as [|y l Hs IH Hy]; simpl.
  - repeat constructor.
  - destruct (Z.leb_spec (compareFn x y) 0) as [Hle|Hgt].
    + constructor; [constructor; assumption|].
      constructor; [auto|].
      eapply Forall_impl; [exact Hy|]. intros z Hz. simpl in Hz. eauto.
    + constructor; [exact IH|].
      apply Forall_forall. intros z Hz.
      apply list_elem_of_In, sort_insert_In in Hz as [->|Hz]; [auto|].
      rewrite Forall_forall in Hy. apply Hy, list_elem_of_In, Hz.
Qed.

Lemma Array_sort_StronglySorted (l : list A) :
  StronglySorted R (Array_sort compareFn l).
Proof.
  unfold Array_sort. induction l as [|x l IH]; simpl; [constructor|].
  apply sort_insert_StronglySorted, IH.
Qed.
End ArraySortOrder.

Section ArraySortStable.
Context {A : Type} (key : A -> Z).

Lemma sort_insert_filter_key (v : Z) (x : A) (l : list A) :
  List.filter (fun a => key a =? v) (sort_insert (fun a b => key a - key b) x l)
  = List.filter (fun a => key a =? v) (x :: l).
Proof.
  induction l as [|y l IH]; [reflexivity|].
  cbn [sort_insert].
  destruct (Z.leb_spec (key x - key y) 0) as [Hle|Hgt]; [reflexivity|].
  cbn [List.filter] in *. rewrite IH.
  destruct (Z.eqb_spec (key x) v), (Z.eqb_spec (key y) v); try reflexivity. lia.
Qed.

(** The sort is stable: the elements of one key keep their order. *)
Lemma Array_sort_filter_key (v : Z) (l : list A) :
  List.filter (fun a => key a =? v) (Array_sort (fun a b => key a - key b) l)
  = List.filter (fun a => key a =? v) l.
Proof.
  unfold Array_sort. induction l as [|x l IH]; [reflexivity|].
  cbn [foldr]. rewrite sort_insert_filter_key. cbn [List.filter]. rewrite IH. reflexivity.
Qed.
End ArraySortStable.

(** ** The penalty box, continued *)

(** The view of [PenaltyBox] loses and repeats nothing: it is a rearrangement
    of the penalties of the log whose release time is below the clock, and
    the penalties that share a release time stand in it in the order of the
    log. *)
Theorem activePenalties_stable_rearrangement :
  forall (penalties : list Penalty.t) (clock : Z),
    activePenalties penalties clock
    ≡ₚ List.filter (fun p => clock >? Penalty.releaseTime p) penalties
    /\ forall releaseTime : Z,
         List.filter (fun p => Penalty.releaseTime p =? releaseTime)
                     (activePenalties penalties clock)
         = List.filter (fun p => Penalty.releaseTime p =? releaseTime)
             (List.filter (fun p => clock >? Penalty.releaseTime p) penalties).
Proof.
  intros penalties c. unfold activePenalties. split.
  - apply Array_sort_Permutation.
  - intros v. apply (Array_sort_filter_key Penalty.releaseTime).
Qed.

(** [PenaltyBox] renders nothing exactly when no penalty of the log has its
    release time below the clock; otherwise it shows one card for each such
    penalty, in the order of the view, and the remaining time on every card
    is the format of a positive number of seconds.  A penalty whose team id
    is not the home team's is shown under the away team's name. *)
Theorem PenaltyBox_cards :
  forall (penalties : list Penalty.t) (clock : Z) (homeTeam awayTeam : Team.t),
    (PenaltyBox penalties clock homeTeam awayTeam = None
     <-> forall p, In p penalties -> clock <= Penalty.releaseTime p)
    /\ forall cards : list PenaltyCard,
         PenaltyBox penalties clock homeTeam awayTeam = Some cards ->
         Forall2
           (fun p card =>
              0 < clock - Penalty.releaseTime p
              /\ card_key card = Penalty.id p
              /\ card_remaining card = formatTime (clock - Penalty.releaseTime p)
              /\ card_teamName card
                 = (if String.eqb (Penalty.teamId p) (Team.id homeTeam)
                    then Team.name homeTeam else Team.name awayTeam))
           (activePenalties penalties clock) cards.
Proof.
  intros penalties c h a. unfold PenaltyBox. split.
  - destruct (Nat.eqb_spec (length (activePenalties penalties c)) 0) as [H0|Hn].
    + split; [|reflexivity]. intros _ p Hp.
      destruct (Z.le_gt_cases c (Penalty.releaseTime p)) as [Hle|Hgt]; [exact Hle|].
      assert (Hin : In p (activePenalties penalties c)).
      { unfold activePenalties. apply Array_sort_In, filter_In. split; [exact Hp|lia]. }
      apply length_zero_iff_nil in H0. rewrite H0 in Hin. destruct Hin.
    + split; [discriminate|]. intros Hall. exfalso. apply Hn.
      destruct (activePenalties penalties c) as [|p l] eqn:E; [reflexivity|].
      assert (Hin : In p (activePenalties penalties c)) by (rewrite E; left; reflexivity).
      unfold activePenalties in Hin. apply Array_sort_In, filter_In in Hin as [Hp Hc].
      specialize (Hall p Hp). lia.
  - intros cards. destruct (length (activePenalties penalties c) =? 0)%nat; [discriminate|].
    intros [= <-].
    assert (Hact : Forall (fun p => 0 < c - Penalty.releaseTime p)
                     (activePenalties penalties c)).
    { apply Forall_forall. intros p Hp. apply list_elem_of_In in Hp.
      unfold activePenalties in Hp. apply Array_sort_In, filter_In in Hp as [_ Hc]. lia. }
    induction Hact as [|p l Hp _ IH]; cbn [List.map]; constructor; [|exact IH].
    unfold getPlayerInfo. destruct (Penalty.teamId p =? Team.id h)%string; simpl; auto.
Qed.

(** ** The clock display *)

Section ClockDisplay.
Import Stdlib.Strings.Ascii.

Lemma no_colon_cons (a : ascii) (s : string) :
  a <> ":"%char -> no_colon s -> no_colon (String a s).
Proof.
  intros Ha Hs [|b s1] s2; simpl; intros [= ? ?]; [congruence|].
  eapply Hs; eassumption.
Qed.

Lemma no_colon_empty : no_colon "".
Proof. intros [|b s1] s2; discriminate. Qed.

Lemma pretty_N_go_no_colon (x : N) (s : string) :
  no_colon s -> no_colon (pretty_N_go x s).
Proof.
  revert s. induction (N.lt_wf_0 x) as [x _ IH]; intros s Hs.
  assert (x = 0 \/ 0 < x)%N as [->|Hx] by lia; [rewrite pretty_N_go_0; exact Hs|].
  rewrite pretty_N_go_step by exact Hx. apply IH; [apply N.div_lt; lia|].
  apply no_colon_cons; [|exact Hs].
  unfold pretty_N_char. repeat case_match; discriminate.
Qed.

Lemma pretty_Z_no_colon (z : Z) : 0 <= z -> no_colon (pretty z).
Proof.
  intros Hz. destruct z as [|p|p]; [| |lia].
  - apply no_colon_cons; [discriminate|apply no_colon_empty].
  - change (pretty (Z.pos p)) with (pretty (N.pos p)). unfold pretty, pretty_N.
    case_decide; [discriminate|]. apply pretty_N_go_no_colon, no_colon_empty.
Qed.

Lemma append_colon_inj (a a' b b' : string) :
  no_colon a -> no_colon a' ->
  a +:+ String ":"%char b = a' +:+ String ":"%char b' -> a = a' /\ b = b'.
Proof.
  revert a'. induction a as [|c a IH]; intros [|c' a'] Ha Ha'; simpl.
  - intros [= ->]. split; reflexivity.
  - intros [= <- Hb]. exfalso. apply (Ha' "" a'). reflexivity.
  - intros [= -> Hb]. exfalso. apply (Ha "" a). reflexivity.
  - intros [= -> Hab]. destruct (IH a') as [-> ->]; [| |exact Hab|split; reflexivity].
    + intros s1 s2 E. apply (Ha (String c' s1) s2). simpl. rewrite E. reflexivity.
    + intros s1 s2 E. apply (Ha' (String c' s1) s2). simpl. rewrite E. reflexivity.
Qed.

Lemma readSecondsField_secondsField_nat (n : nat) :
  (n < 60)%nat -> readSecondsField (secondsField (Z.of_nat n)) = Z.of_nat n.
Proof.
  intros Hn.
  do 60 (destruct n as [|n]; [vm_compute; reflexivity|]). lia.
Qed.

Lemma readSecondsField_secondsField (sec : Z) :
  0 <= sec < 60 -> readSecondsField (secondsField sec) = sec.
Proof.
  intros H. rewrite <- (Z2Nat.id sec) at 1 2 by lia.
  apply readSecondsField_secondsField_nat. lia.
Qed.

(** [formatTime] tells the non-negative clock values apart: two different
    numbers of seconds are never displayed the same. *)
Theorem formatTime_distinguishes :
  forall s1 s2 : Z,
    0 <= s1 -> 0 <= s2 -> s1 <> s2 -> formatTime s1 <> formatTime s2.
Proof.
  intros s1 s2 H1 H2 Hne Heq. apply Hne. unfold formatTime in Heq.
  rewrite !Z.rem_mod_nonneg in Heq by lia.
  assert (Hsplit : pretty (s1 `div` 60) = pretty (s2 `div` 60)
                   /\ secondsField (s1 `mod` 60) = secondsField (s2 `mod` 60)).
  { apply (append_colon_inj (pretty (s1 `div` 60)) (pretty (s2 `div` 60))
             (secondsField (s1 `mod` 60)) (secondsField (s2 `mod` 60))).
    - apply pretty_Z_no_colon. apply Z.div_pos; lia.
    - apply pretty_Z_no_colon. apply Z.div_pos; lia.
    - exact Heq. }
  destruct Hsplit as [Hm Hs]. apply (inj pretty) in Hm.
  apply (f_equal readSecondsField) in Hs.
  rewrite !readSecondsField_secondsField in Hs by (apply Z.mod_pos_bound; lia).
  rewrite (Z.div_mod s1 60), (Z.div_mod s2 60) by lia. lia.
Qed.

(** [formatTime] at 59 and at 60 seconds. *)
Lemma formatTime_distinguishes_witness :
  formatTime 59 = "0:59" /\ formatTime 60 = "1:00" /\ formatTime 59 <> formatTime 60.
Proof.
  split; [reflexivity|]. split; [reflexivity|].
  apply (formatTime_distinguishes 59 60); lia.
Defined.

End ClockDisplay.

(** ** The game log *)

Lemma find_player_is_Some (roster : list Player.t) (playerId : string) :
  is_Some (find_player roster playerId) <-> playerId ∈ Player.id <$> roster.
Proof.
  unfold find_player. induction roster as [|p roster IH]; simpl.
  - split; [intros [? [=]]|intros H; inversion H].
  - destruct (String.eqb_spec (Player.id p) playerId) as [E|E].
    + split; [intros _; rewrite E; left|eauto].
    + rewrite IH. split; [intros H; right; exact H|].
      intros H. apply elem_of_cons in H as [H|H]; [congruence|exact H].
Qed.

Lemma logLine_fields (game : Game.t) (stat : Stat.t) (line : LogLine) :
  logLine game stat = Some line ->
  line_id line = Stat.id stat /\ line_timestamp line = Stat.timestamp stat.
Proof.
  unfold logLine. destruct (find_player (allPlayers game) (Stat.playerId stat)); [|discriminate].
  intros [= <-]. split; reflexivity.
Qed.

Lemma logLine_is_Some (game : Game.t) (stat : Stat.t) :
  is_Some (logLine game stat) <-> Stat.playerId stat ∈ Player.id <$> allPlayers game.
Proof.
  rewrite <- find_player_is_Some. unfold logLine.
  destruct (find_player (allPlayers game) (Stat.playerId stat));
    split; intros H; try (eauto; fail); destruct H as [? [=]].
Qed.

Lemma omap_logLine_ids (game : Game.t) (stats : list Stat.t) :
  line_id <$> omap (logLine game) stats
  = Stat.id <$> filter (fun s => Stat.playerId s ∈ Player.id <$> allPlayers game) stats.
Proof.
  induction stats as [|s stats IH]; [reflexivity|].
  cbn [omap list_omap]. rewrite filter_cons.
  destruct (logLine game s) as [line|] eqn:E.
  - rewrite decide_True by (apply logLine_is_Some; rewrite E; eauto).
    cbn [fmap list_fmap]. destruct (logLine_fields _ _ _ E) as [-> _].
    f_equal. exact IH.
  - rewrite decide_False; [exact IH|].
    intros H. apply logLine_is_Some in H. rewrite E in H. destruct H as [? [=]].
Qed.

Lemma omap_logLine_sorted (game : Game.t) (stats : list Stat.t) :
  StronglySorted (fun a b => Stat.timestamp b <= Stat.timestamp a) stats ->
  StronglySorted (fun a b => line_timestamp b <= line_timestamp a)
    (omap (logLine game) stats).
Proof.
  induction 1 as [|s stats Hs IH Hall]; [constructor|].
  cbn [omap list_omap]. destruct (logLine game s) as [line|] eqn:E; [|exact IH].
  constructor; [exact IH|].
  destruct (logLine_fields _ _ _ E) as [_ Ht].
  apply Forall_forall. intros line' Hin.
  apply list_elem_of_omap in Hin as (s' & Hs' & E').
  destruct (logLine_fields _ _ _ E') as [_ Ht'].
  rewrite Forall_forall in Hall. specialize (Hall s' Hs'). simpl in Hall. lia.
Qed.

Lemma omap_logLine_filter (game : Game.t) (t : Z) (stats : list Stat.t) :
  List.filter (fun line => line_timestamp line =? t) (omap (logLine game) stats)
  = omap (logLine game) (List.filter (fun s => Stat.timestamp s =? t) stats).
Proof.
  induction stats as [|s stats IH]; [reflexivity|].
  cbn [omap list_omap List.filter].
  destruct (logLine game s) as [line|] eqn:E.
  - destruct (logLine_fields _ _ _ E) as [_ Ht]. cbn [List.filter]. rewrite Ht.
    destruct (Stat.timestamp s =? t); cbn [omap list_omap]; rewrite ?E, IH; reflexivity.
  - destruct (Stat.timestamp s =? t); cbn [omap list_omap]; rewrite ?E, IH; reflexivity.
Qed.

Lemma sort_insert_ext {A : Type} (f g : A -> A -> Z) (x : A) (l : list A) :
  (forall a b, f a b = g a b) -> sort_insert f x l = sort_insert g x l.
Proof.
  intros H. induction l as [|y l IH]; [reflexivity|].
  cbn [sort_insert]. rewrite H, IH. reflexivity.
Qed.

Lemma Array_sort_ext {A : Type} (f g : A -> A -> Z) (l : list A) :
  (forall a b, f a b = g a b) -> Array_sort f l = Array_sort g l.
Proof.
  intros H. unfold Array_sort. induction l as [|x l IH]; [reflexivity|].
  cbn [foldr]. rewrite IH. apply sort_insert_ext, H.
Qed.

(** The game log has one line for each stat whose player is on one of the
    two rosters and none for any other stat, the highest timestamp first,
    and the lines of one timestamp stand in the order of the stats. *)
Theorem gameLog_lines :
  forall game : Game.t,
    StronglySorted (fun a b => line_timestamp b <= line_timestamp a) (gameLog game)
    /\ line_id <$> gameLog game
       ≡ₚ Stat.id <$> filter (fun s => Stat.playerId s ∈ Player.id <$> allPlayers game)
                             (Game.stats game)
    /\ forall timestamp : Z,
         List.filter (fun line => line_timestamp line =? timestamp) (gameLog game)
         = omap (logLine game)
             (List.filter (fun s => Stat.timestamp s =? timestamp) (Game.stats game)).
Proof.
  intros game. unfold gameLog. split; [|split].
  - apply omap_logLine_sorted.
    apply (Array_sort_StronglySorted
             (fun a b => Stat.timestamp b - Stat.timestamp a)
             (fun a b => Stat.timestamp b <= Stat.timestamp a)); intros; lia.
  - rewrite omap_logLine_ids. apply fmap_Permutation.
    rewrite Array_sort_Permutation. reflexivity.
  - intros t. rewrite omap_logLine_filter. f_equal.
    rewrite (Array_sort_ext _ (fun a b => - Stat.timestamp a - - Stat.timestamp b))
      by (intros; lia).
    pose proof (Array_sort_filter_key (fun s => - Stat.timestamp s) (- t) (Game.stats game))
      as H.
    erewrite (List.filter_ext _ (fun s => - Stat.timestamp s =? - t)),
             (List.filter_ext (fun s => Stat.timestamp s =? t)
                (fun s => - Stat.timestamp s =? - t)); [exact H| |];
      intros s; destruct (Z.eqb_spec (Stat.timestamp s) t),
                         (Z.eqb_spec (- Stat.timestamp s) (- t)); auto; lia.
Qed.

(** ** Invariants of the tracker *)

Section TrackerInvariant.
Variable g0 : Game.t.
Variable P : Game.t -> Prop.
Variable Q : Z -> Prop.
Variable allowed : Event -> Prop.

Hypothesis Q_tick :
  forall speechSynthesis c, 0 < c -> Q c -> Q (tickClock speechSynthesis c).1.
Hypothesis Q_adjust : forall seconds c, Q c -> Q (adjustClock seconds c).
Hypothesis Q_reset : Q resetClock.
Hypothesis P_period_down :
  forall g, P g -> P (GameSpread.with_currentPeriod (Z.max 1 (Game.currentPeriod g - 1)) g).
Hypothesis P_period_up :
  forall g, P g -> P (GameSpread.with_currentPeriod (Game.currentPeriod g + 1) g).
Hypothesis P_gameClock :
  forall g c, P g -> Q c -> P (GameSpread.with_gameClock c g).
Hypothesis P_end : forall g, P g -> P (handleEndGame g).
Hypothesis P_score :
  forall g t d, allowed (ScoreClick t d) -> P g -> P (handleManualScoreChange g t d).
Hypothesis P_stat :
  forall g clock now p t type,
    sameTeams g0 g -> P g -> validPair g0 p t -> Q clock ->
    type ∈ [SHOT; GROUND_BALL; TURNOVER; CAUSED_TURNOVER; FACEOFF_WIN; FACEOFF_LOSS; SAVE] ->
    P (handleStatAdd g clock now p t type None).
Hypothesis P_goal :
  forall g clock now p t a,
    sameTeams g0 g -> P g -> validPair g0 p t -> Q clock -> validAssist g0 p t a ->
    P (handleStatAdd g clock now p t GOAL a).
Hypothesis P_penalty :
  forall g g' clock now p t penaltyType duration,
    sameTeams g0 g -> P g -> validPair g0 p t -> Q clock ->
    duration ∈ [30; 60; 90; 120; 180] ->
    handleAddPenalty g clock now (Some (p, t)) penaltyType duration = Some g' ->
    P g'.
Hypothesis P_summary :
  forall g text, P g -> Game.status g = finished -> P (GameSpread.with_aiSummary text g).

Lemma teamOfId_sameTeams (g : Game.t) (teamId : string) :
  sameTeams g0 g -> teamOfId g teamId = teamOfId g0 teamId.
Proof. intros (_ & Hh & Ha). unfold teamOfId. rewrite Hh, Ha. reflexivity. Qed.

Ltac tracker_goals :=
  split; [split; [repeat split|]|split; [|split; [|split]]];
  cbn [game clock isClockRunning assistModal isPenaltyModalOpen isGeneratingSummary
       selectedPlayerInfo summaryRequest onUpdateGame setClock setIsClockRunning
       setAssistModal setIsPenaltyModalOpen setSelectedPlayerInfo setSummary
       scoringPlayer scoringTeamId assistModalClosed fst snd] in *;
  eauto; try solve [cbn in *; eauto | intros; congruence].

Lemma handle_trackerInv (env : Env) (s : State) (e : Event) :
  allowed e -> enabled env s e = true ->
  trackerInv g0 P Q s -> trackerInv g0 P Q (handle env s e).1.
Proof.
  intros Hal En (([Hid [Hh Ha]] & HP) & Hsum & Hsel & Hmod & Hclk).
  assert (Hsame : sameTeams g0 (game s)) by (repeat split; assumption).
  destruct e; cbn [handle enabled] in *.
  - (* ClockToggleClick *) tracker_goals.
  - (* PeriodMinusClick *) tracker_goals.
  - (* PeriodPlusClick *) tracker_goals.
  - (* ResetClockClick *) tracker_goals.
  - (* AdjustClockClick *) tracker_goals.
  - (* EndGameClick *) tracker_goals.
  - (* ReturnClick *) tracker_goals.
  - (* ScoreClick *) tracker_goals.
  - (* PlayerClick *)
    tracker_goals. intros p t' [= <- <-].
    apply andb_true_iff in En as [_ En]. apply orb_true_iff in En as [En|En];
      apply andb_true_iff in En as [Et Ep];
      apply String.eqb_eq in Et; apply bool_decide_eq_true in Ep;
      [left|right]; split; congruence.
  - (* CancelClick *) tracker_goals.
  - (* StatClick *)
    apply andb_true_iff in En as [En Hty]. apply bool_decide_eq_true in Hty.
    destruct (selectedPlayerInfo s) as [[p t]|] eqn:Es in |- *; cbn [fst].
    + tracker_goals.
    + tracker_goals.
  - (* GoalClick *)
    destruct (selectedPlayerInfo s) as [[p t]|] eqn:Es in |- *; cbn [fst].
    + tracker_goals. intros p' t' [= <-] [= <-]. eauto.
    + tracker_goals.
  - (* PenaltyClick *) tracker_goals.
  - (* AssistClick *)
    apply andb_true_iff in En as [Hshown Hcand].
    assert (HP1 :
      let s1 :=
        match scoringPlayer (assistModal s), scoringTeamId (assistModal s) with
        | Some scorer, Some teamId =>
            if truthy (Some teamId) then
              onUpdateGame
                (handleStatAdd (game s) (clock s) now scorer teamId GOAL
                   (Player.id <$> assistingPlayer)) s
            else s
        | _, _ => s
        end in
      sameTeams g0 (game s1) /\ P (game s1) /\ summaryRequest s1 = summaryRequest s
      /\ clock s1 = clock s).
    { destruct (scoringPlayer (assistModal s)) as [scorer|] eqn:Esc;
        [|repeat split; auto].
      destruct (scoringTeamId (assistModal s)) as [teamId|] eqn:Et;
        [|repeat split; auto].
      destruct (truthy (Some teamId)); [|repeat split; auto].
      cbn. repeat split; auto.
      apply P_goal; eauto.
      destruct assistingPlayer as [ap|]; [|left; reflexivity].
      right. exists ap. split; [reflexivity|].
      apply bool_decide_eq_true in Hcand. unfold assistCandidates in Hcand.
      rewrite Esc, Et in Hcand. apply list_elem_of_In, filter_In in Hcand as [Hin Hne].
      rewrite teamOfId_sameTeams in Hin by exact Hsame.
      split; [apply list_elem_of_In; exact Hin|].
      apply negb_true_iff, String.eqb_neq in Hne. exact Hne. }
    cbv zeta in HP1. destruct HP1 as ([Hid1 [Hh1 Ha1]] & HP1 & Hs1 & Hc1).
    cbn [fst]. tracker_goals.
    intros g Hg. rewrite Hs1 in Hg. auto.
  - (* PenaltySubmitClick *)
    apply andb_true_iff in En as [En Hd]. apply bool_decide_eq_true in Hd.
    destruct (handleAddPenalty (game s) (clock s) now (selectedPlayerInfo s) penaltyType
                duration) as [g'|] eqn:Ep; cbn [fst]; [|tracker_goals].
    destruct (selectedPlayerInfo s) as [[p t]|] eqn:Es; [|discriminate].
    assert (HP' : P g') by (eapply P_penalty; eauto).
    injection Ep as <-.
    tracker_goals.
  - (* PenaltyCloseClick *) tracker_goals.
  - (* SummaryClick *)
    apply andb_true_iff in En as [En _]. apply andb_true_iff in En as [En _].
    unfold notFinished in En. apply negb_true_iff, negb_false_iff in En.
    apply bool_decide_eq_true in En.
    tracker_goals. intros g [= <-]. auto.
  - (* SummaryResolved *)
    destruct (summaryRequest s) as [g|] eqn:Eg; cbn [fst]; [|tracker_goals].
    destruct (Hsum g eq_refl) as ([Hid' [Hh' Ha']] & HPg & Hfin).
    tracker_goals.
  - (* IntervalFire *)
    apply andb_true_iff in En as [_ En].
    pose proof (Q_tick (speechSynthesis_in_window env) (clock s) ltac:(lia) Hclk) as Hclk'.
    unfold tickClock in *. cbn [fst] in *. tracker_goals.
Qed.

Lemma runEffects_trackerInv (env : Env) (s s' : State) :
  trackerInv g0 P Q s' -> trackerInv g0 P Q (runEffects env s s').1.
Proof.
  intros (([Hid [Hh Ha]] & HP) & Hsum & Hsel & Hmod & Hclk).
  unfold runEffects. cbn [fst]. case_bool_decide; [tracker_goals|].
  tracker_goals.
Qed.

Lemma step_trackerInv (env : Env) (s : State) (e : Event) :
  allowed e -> trackerInv g0 P Q s -> trackerInv g0 P Q (step env s e).1.
Proof.
  intros Hal Hinv. unfold step.
  destruct (enabled env s e) eqn:En; [|exact Hinv].
  pose proof (handle_trackerInv env s e Hal En Hinv) as H1.
  destruct (handle env s e) as [s1 c1]. cbn [fst] in H1.
  pose proof (runEffects_trackerInv env s s1 H1) as H2.
  destruct (runEffects env s s1) as [s2 c2]. exact H2.
Qed.

Lemma run_trackerInv (env : Env) (es : list Event) (s : State) :
  Forall allowed es -> trackerInv g0 P Q s -> trackerInv g0 P Q (run env s es).1.
Proof.
  revert s. induction es as [|e es IH]; intros s Hal Hinv; [exact Hinv|].
  inversion Hal as [|? ? He Hes]; subst. cbn [run].
  pose proof (step_trackerInv env s e He Hinv) as H1.
  destruct (step env s e) as [s1 c1]. cbn [fst] in H1.
  specialize (IH s1 Hes H1). destruct (run env s1 es) as [s2 c2]. exact IH.
Qed.

Lemma mount_trackerInv :
  P g0 -> Q (Game.gameClock g0) -> trackerInv g0 P Q (mount g0).
Proof.
  intros HP Hc. tracker_goals; cbn; intros; discriminate.
Qed.
End TrackerInvariant.

Lemma tick_nonneg (speechSynthesis : bool) (c : Z) :
  0 < c -> 0 <= c -> 0 <= (tickClock speechSynthesis c).1.
Proof. intros. unfold tickClock. cbn [fst]. lia. Qed.

Lemma adjustClock_nonneg (seconds c : Z) : 0 <= c -> 0 <= adjustClock seconds c.
Proof. intros. unfold adjustClock. lia. Qed.

Lemma resetClock_nonneg : 0 <= resetClock.
Proof. unfold resetClock. lia. Qed.

Lemma Forall_allowed_any (es : list Event) : Forall (fun _ => True) es.
Proof. apply Forall_forall. auto. Qed.

(** Whatever is clicked and however long the clock runs, the game the
    tracker hands back keeps the id, the two teams (names and rosters) and
    the scheduled time of the game it was opened with. *)
Theorem run_keeps_identity_and_teams :
  forall (env : Env) (g0 : Game.t) (es : list Event),
    let g := game (run env (mount g0) es).1 in
    Game.id g = Game.id g0
    /\ Game.homeTeam g = Game.homeTeam g0
    /\ Game.awayTeam g = Game.awayTeam g0
    /\ Game.scheduledTime g = Game.scheduledTime g0.
Proof.
  intros env g0 es.
  assert (Hinv : trackerInv g0 (fun g => Game.scheduledTime g = Game.scheduledTime g0)
                   (fun _ => True) (run env (mount g0) es).1).
  { apply run_trackerInv with (allowed := fun _ => True); auto.
    - intros g g' clock now p t penaltyType duration _ Hg _ _ _ [= <-]. exact Hg.
    - apply Forall_allowed_any.
    - apply mount_trackerInv; auto. }
  destruct Hinv as (((Hid & Hh & Ha) & Hs) & _). cbv zeta. auto.
Qed.

(** A game opened with a period of at least 1, scores that are not
    negative and a stored clock that is not negative keeps all four in that
    range, whatever is clicked and however long the clock runs. *)
Theorem run_keeps_numbers_in_range :
  forall (env : Env) (g0 : Game.t) (es : list Event),
    inRange g0 -> inRange (game (run env (mount g0) es).1).
Proof.
  intros env g0 es H0.
  assert (Hinv : trackerInv g0 inRange (fun c => 0 <= c) (run env (mount g0) es).1).
  { apply run_trackerInv with (allowed := fun _ => True);
      try (intros; apply tick_nonneg; assumption);
      try (intros; apply adjustClock_nonneg; assumption);
      try exact resetClock_nonneg;
      try apply Forall_allowed_any;
      try (apply mount_trackerInv; [exact H0|apply H0]).
    - intros g (? & ? & ? & ?). repeat split; cbn; auto; lia.
    - intros g (? & ? & ? & ?). repeat split; cbn; auto; lia.
    - intros g c (? & ? & ? & ?) ?. repeat split; cbn; auto.
    - intros g (? & ? & ? & ?). repeat split; cbn; auto; lia.
    - intros g [] [] _ (? & ? & ? & ?); repeat split; cbn; auto; lia.
    - intros g clock now p t type _ (? & ? & ? & ?) _ _ Hty.
      unfold handleStatAdd. destruct (decide (type = GOAL)) as [->|_].
      + exfalso. repeat (apply elem_of_cons in Hty as [Hty|Hty]; [discriminate|]).
        inversion Hty.
      + repeat split; cbn; auto.
    - intros g clock now p t a _ (? & ? & ? & ?) _ _ _.
      unfold handleStatAdd. cbn [decide]. destruct (decide (GOAL = GOAL)); [|congruence].
      destruct (String.eqb t (Team.id (Game.homeTeam g))); repeat split; cbn; auto; lia.
    - intros g g' clock now p t penaltyType duration _ Hg _ _ _ [= <-]. exact Hg.
    - intros g text (? & ? & ? & ?) _. repeat split; cbn; auto. }
  destruct Hinv as ((_ & HP) & _). exact HP.
Qed.

Lemma run_keeps_numbers_in_range_witness :
  inRange game_0_0
  /\ inRange (game (run (mkEnv COACH true) (mount game_0_0)
                      [ScoreClick home minus_one; PeriodMinusClick;
                       AdjustClockClick (-10)]).1).
Proof.
  assert (H0 : inRange game_0_0) by (vm_compute; repeat split; discriminate).
  split; [exact H0|].
  exact (run_keeps_numbers_in_range (mkEnv COACH true) game_0_0
           [ScoreClick home minus_one; PeriodMinusClick; AdjustClockClick (-10)] H0).
Defined.

(** The stats of the game the tracker was opened with stay at the head
    of the log, in their order, and every stat behind them has the shape the
    buttons give it: a player on the roster of the team it names, a type
    other than Assist, a timestamp that is not negative, and an assisting
    player only on a Goal, who is another player of the same team. *)
Theorem run_records_valid_stats :
  forall (env : Env) (g0 : Game.t) (es : list Event),
    0 <= Game.gameClock g0 ->
    exists recorded : list Stat.t,
      Game.stats (game (run env (mount g0) es).1) = Game.stats g0 ++ recorded
      /\ Forall (uiStat g0) recorded.
Proof.
  intros env g0 es H0.
  set (P := fun g => exists recorded : list Stat.t,
                Game.stats g = Game.stats g0 ++ recorded /\ Forall (uiStat g0) recorded).
  assert (Hinv : trackerInv g0 P (fun c => 0 <= c) (run env (mount g0) es).1).
  { apply run_trackerInv with (allowed := fun _ => True);
      try (intros; apply tick_nonneg; assumption);
      try (intros; apply adjustClock_nonneg; assumption);
      try exact resetClock_nonneg;
      try apply Forall_allowed_any;
      try (intros g; intros; unfold P in *; cbn in *; assumption).
    - intros g clock now p t type _ (recorded & Hr & Hv) Hp Hc Hty.
      exists (recorded ++ [Stat.mk (fresh_id "stat_" now) (Player.id p) t type clock None]).
      split.
      + unfold handleStatAdd. cbn. rewrite Hr, <- app_assoc. reflexivity.
      + apply Forall_app. split; [exact Hv|]. constructor; [|constructor].
        split; [cbn; eauto|]. split; [|split; [exact Hc|left; reflexivity]].
        cbn. intros ->. repeat (apply elem_of_cons in Hty as [Hty|Hty]; [discriminate|]).
        inversion Hty.
    - intros g clock now p t a _ (recorded & Hr & Hv) Hp Hc Ha.
      exists (recorded ++ [Stat.mk (fresh_id "stat_" now) (Player.id p) t GOAL clock a]).
      split.
      + unfold handleStatAdd. cbn. rewrite Hr, <- app_assoc. reflexivity.
      + apply Forall_app. split; [exact Hv|]. constructor; [|constructor].
        split; [cbn; eauto|]. split; [discriminate|]. split; [exact Hc|]. cbn.
        destruct Ha as [->|(ap & -> & Hin & Hne)]; [left; reflexivity|].
        right. split; [reflexivity|]. eauto.
    - intros g g' clock now p t penaltyType duration _ Hg _ _ _ [= <-]. exact Hg.
    - apply mount_trackerInv; [|exact H0]. exists []. rewrite app_nil_r. split; auto. }
  destruct Hinv as ((_ & HP) & _). exact HP.
Qed.

Lemma run_records_valid_stats_witness :
  exists recorded : list Stat.t,
    Game.stats (game (run (mkEnv COACH true) (mount game_0_0)
                        [PlayerClick alice "team_1"; GoalClick;
                         AssistClick (Some bob) 1001]).1)
    = Game.stats game_0_0 ++ recorded
    /\ Forall (uiStat game_0_0) recorded.
Proof.
  apply (run_records_valid_stats (mkEnv COACH true) game_0_0
           [PlayerClick alice "team_1"; GoalClick; AssistClick (Some bob) 1001]).
  vm_compute. discriminate.
Defined.

(** The penalties of the game the tracker was opened with stay at the
    head of the list, and every penalty behind them names a player on the
    roster of the team it names, has one of the five durations of the modal,
    a start time that is not negative, and a release time equal to the start
    time minus the duration. *)
Theorem run_records_valid_penalties :
  forall (env : Env) (g0 : Game.t) (es : list Event),
    0 <= Game.gameClock g0 ->
    exists recorded : list Penalty.t,
      default [] (Game.penalties (game (run env (mount g0) es).1))
      = default [] (Game.penalties g0) ++ recorded
      /\ Forall (uiPenalty g0) recorded.
Proof.
  intros env g0 es H0.
  set (P := fun g => exists recorded : list Penalty.t,
                default [] (Game.penalties g) = default [] (Game.penalties g0) ++ recorded
                /\ Forall (uiPenalty g0) recorded).
  assert (Hinv : trackerInv g0 P (fun c => 0 <= c) (run env (mount g0) es).1).
  { apply run_trackerInv with (allowed := fun _ => True);
      try (intros; apply tick_nonneg; assumption);
      try (intros; apply adjustClock_nonneg; assumption);
      try exact resetClock_nonneg;
      try apply Forall_allowed_any;
      try (intros g; intros; unfold P in *; cbn in *; assumption).
    - intros g g' clock now p t penaltyType duration _ (recorded & Hr & Hv) Hp Hc Hd [= <-].
      exists (recorded ++ [Penalty.mk (fresh_id "penalty_" now) (Player.id p) t penaltyType
                             duration clock (clock - duration)]).
      split.
      + cbn. rewrite Hr, <- app_assoc. reflexivity.
      + apply Forall_app. split; [exact Hv|]. constructor; [|constructor].
        split; [cbn; eauto|]. split; [exact Hd|]. split; [exact Hc|reflexivity].
    - apply mount_trackerInv; [|exact H0]. exists []. rewrite app_nil_r. split; auto. }
  destruct Hinv as ((_ & HP) & _). exact HP.
Qed.

Lemma run_records_valid_penalties_witness :
  exists recorded : list Penalty.t,
    default [] (Game.penalties (game (run (mkEnv COACH true) (mount game_0_0)
                                        [PlayerClick alice "team_1"; PenaltyClick;
                                         PenaltySubmitClick SLASHING 60 1001]).1))
    = default [] (Game.penalties game_0_0) ++ recorded
    /\ Forall (uiPenalty game_0_0) recorded.
Proof.
  apply (run_records_valid_penalties (mkEnv COACH true) game_0_0
           [PlayerClick alice "team_1"; PenaltyClick; PenaltySubmitClick SLASHING 60 1001]).
  vm_compute. discriminate.
Defined.

(** Ending a game is final for the tracker: once the game it holds is
    finished, no click, no tick of the clock and no arriving summary makes
    it anything else. *)
Theorem finished_game_stays_finished :
  forall (env : Env) (g0 : Game.t) (es1 es2 : list Event),
    let s1 := (run env (mount g0) es1).1 in
    Game.status (game s1) = finished ->
    Game.status (game (run env s1 es2).1) = finished.
Proof.
  intros env g0 es1 es2 s1 Hfin.
  assert (H1 : trackerInv g0 (fun _ => True) (fun _ => True) s1).
  { apply run_trackerInv with (allowed := fun _ => True); auto.
    - apply Forall_allowed_any.
    - apply mount_trackerInv; auto. }
  assert (H2 : trackerInv g0 (fun g => Game.status g = finished) (fun _ => True)
                 (run env s1 es2).1).
  { apply run_trackerInv with (allowed := fun _ => True); auto.
    - intros g g' clock now p t penaltyType duration _ Hg _ _ _ [= <-]. exact Hg.
    - apply Forall_allowed_any.
    - destruct H1 as ((Hs & _) & Hsum & Hsel & Hmod & _).
      split; [split; assumption|]. split; [|auto].
      intros g Hg. destruct (Hsum g Hg) as (? & _ & ?). auto. }
  destruct H2 as ((_ & HP) & _). exact HP.
Qed.

Lemma finished_game_stays_finished_witness :
  Game.status (game (run (mkEnv COACH true) (mount game_0_0) [EndGameClick]).1) = finished
  /\ Game.status
       (game (run (mkEnv COACH true)
                (run (mkEnv COACH true) (mount game_0_0) [EndGameClick]).1
                [PeriodPlusClick; SummaryClick; ResetClockClick;
                 SummaryResolved "Hawks win."]).1) = finished.
Proof.
  split; [reflexivity|].
  apply (finished_game_stays_finished (mkEnv COACH true) game_0_0 [EndGameClick]
           [PeriodPlusClick; SummaryClick; ResetClockClick; SummaryResolved "Hawks win."]).
  reflexivity.
Defined.

Lemma step_gameClock_synced (env : Env) (s : State) (e : Event) :
  (Game.status (game s) <> finished -> Game.gameClock (game s) = clock s)
  /\ (forall g, summaryRequest s = Some g -> Game.status g = finished) ->
  let s' := (step env s e).1 in
  (Game.status (game s') <> finished -> Game.gameClock (game s') = clock s')
  /\ (forall g, summaryRequest s' = Some g -> Game.status g = finished).
Proof.
  intros [Hsync Hsum]. cbv zeta. unfold step.
  destruct (enabled env s e) eqn:En; [|split; assumption].
  destruct (handle env s e) as [s1 c1] eqn:Eh.
  assert (H1 : (Game.status (game s1) <> finished -> clock s1 = clock s ->
                Game.gameClock (game s1) = clock s1)
               /\ (forall g, summaryRequest s1 = Some g -> Game.status g = finished)).
  { destruct e; cbn [handle enabled] in *;
      repeat match goal with
             | H : context [match ?x with _ => _ end] |- _ => destruct x eqn:?
             | H : (_, _) = (_, _) |- _ => injection H as <- <-
             | H : handleAddPenalty _ _ _ _ _ _ = Some _ |- _ =>
                 unfold handleAddPenalty in H
             | H : Some _ = Some _ |- _ => injection H as <-
             end;
      try discriminate;
      cbn [game clock summaryRequest onUpdateGame setClock setIsClockRunning setAssistModal
           setIsPenaltyModalOpen setSelectedPlayerInfo setSummary] in *;
      (split; [|try assumption]).
    all: try (intros Hn Hc; cbn in *; try rewrite Hc; auto; fail).
    all: try (intros Hn _; cbn in Hn; congruence).
    all: try (intros g [=]; fail).
    - intros g [= <-]. apply andb_true_iff in En as [En _].
      apply andb_true_iff in En as [En _]. unfold notFinished in En.
      apply negb_true_iff, negb_false_iff, bool_decide_eq_true in En. exact En.
    - intros Hn _. exfalso. apply Hn. cbn. apply Hsum. reflexivity. }
  destruct H1 as [Hsync1 Hsum1].
  unfold runEffects. cbn [fst]. case_bool_decide as Hc.
  - cbn [fst]. split; auto.
  - cbn [fst game clock summaryRequest onUpdateGame]. split; [|exact Hsum1].
    intros _. reflexivity.
Qed.

(** While the game is not finished, the clock stored in the game the
    tracker hands back is the clock on display. *)
Theorem run_stores_displayed_clock :
  forall (env : Env) (g0 : Game.t) (es : list Event),
    let s := (run env (mount g0) es).1 in
    Game.status (game s) <> finished -> Game.gameClock (game s) = clock s.
Proof.
  intros env g0 es.
  assert (H : forall s,
             (Game.status (game s) <> finished -> Game.gameClock (game s) = clock s)
             /\ (forall g, summaryRequest s = Some g -> Game.status g = finished) ->
             let s' := (run env s es).1 in
             (Game.status (game s') <> finished -> Game.gameClock (game s') = clock s')
             /\ (forall g, summaryRequest s' = Some g -> Game.status g = finished)).
  { induction es as [|e es IH]; intros s Hs; [exact Hs|].
    cbn [run]. pose proof (step_gameClock_synced env s e Hs) as H1. cbv zeta in H1.
    destruct (step env s e) as [s1 c1]. cbn [fst] in H1.
    specialize (IH s1 H1). cbv zeta in IH.
    destruct (run env s1 es) as [s2 c2]. exact IH. }
  apply H. split; [reflexivity|]. intros g [=].
Qed.

Lemma run_stores_displayed_clock_witness :
  clock (run (mkEnv COACH true) (mount game_0_0)
           [AdjustClockClick (-10); ClockToggleClick; IntervalFire; PeriodPlusClick]).1
  = 709
  /\ Game.gameClock
       (game (run (mkEnv COACH true) (mount game_0_0)
                [AdjustClockClick (-10); ClockToggleClick; IntervalFire;
                 PeriodPlusClick]).1)
     = clock (run (mkEnv COACH true) (mount game_0_0)
                [AdjustClockClick (-10); ClockToggleClick; IntervalFire;
                 PeriodPlusClick]).1.
Proof.
  split; [reflexivity|].
  apply (run_stores_displayed_clock (mkEnv COACH true) game_0_0
           [AdjustClockClick (-10); ClockToggleClick; IntervalFire; PeriodPlusClick]).
  vm_compute. discriminate.
Defined.

Lemma sumZ_fmap_add {A : Type} (f g : A -> Z) (l : list A) :
  sumZ ((fun x => f x + g x) <$> l) = sumZ (f <$> l) + sumZ (g <$> l).
Proof.
  induction l as [|x l IH]; [reflexivity|].
  rewrite !fmap_cons. unfold sumZ in *. cbn [foldr]. lia.
Qed.

Lemma sumZ_credit_players (players : list Player.t) (s : Stat.t) :
  NoDup (Player.id <$> players) ->
  sumZ ((fun p => credit (Player.id p) GOAL s) <$> players)
  = if bool_decide (Stat.type s = GOAL)
       && bool_decide (Stat.playerId s ∈ Player.id <$> players)
    then 1 else 0.
Proof.
  induction players as [|p players IH]; intros Hnd.
  - cbn. rewrite andb_false_r. reflexivity.
  - rewrite fmap_cons in Hnd. apply NoDup_cons in Hnd as [Hp Hnd].
    rewrite !fmap_cons. unfold sumZ in *. cbn [foldr]. rewrite (IH Hnd). unfold credit.
    rewrite (bool_decide_eq_false_2 (GOAL = ASSIST /\ _)) by (intros [? _]; discriminate).
    repeat case_bool_decide; cbn [andb]; try lia; exfalso;
      repeat match goal with
             | H : _ /\ _ |- _ => destruct H
             | H : _ ∈ _ :: _ |- _ => apply elem_of_cons in H as [H|H]
             | H : ~ (_ ∈ _ :: _) |- _ => rewrite elem_of_cons in H
             end;
      try congruence; tauto.
Qed.

Lemma sumZ_credits_players (players : list Player.t) (stats : list Stat.t) :
  NoDup (Player.id <$> players) ->
  sumZ ((fun p => credits (Player.id p) GOAL stats) <$> players)
  = Z.of_nat
      (length (List.filter
                 (fun s => bool_decide (Stat.type s = GOAL)
                           && bool_decide (Stat.playerId s ∈ Player.id <$> players))
                 stats)).
Proof.
  intros Hnd. induction stats as [|s stats IH].
  - cbn. induction players as [|p players IHp]; [reflexivity|].
    rewrite fmap_cons in Hnd. apply NoDup_cons in Hnd as [_ Hnd].
    rewrite fmap_cons. unfold sumZ in *. cbn [foldr]. rewrite (IHp Hnd). reflexivity.
  - unfold credits in *. cbn [foldr List.filter].
    rewrite (sumZ_fmap_add (fun p => credit (Player.id p) GOAL s)), IH,
      (sumZ_credit_players players s Hnd).
    destruct (bool_decide (Stat.type s = GOAL)
              && bool_decide (Stat.playerId s ∈ Player.id <$> players));
      cbn [length]; lia.
Qed.

Lemma validStat_sameTeams (g0 g : Game.t) (s : Stat.t) :
  sameTeams g0 g -> validStat g0 s -> validStat g s.
Proof. intros (_ & Hh & Ha). unfold validStat. rewrite Hh, Ha. auto. Qed.

Lemma run_scoreMatchesGoals (env : Env) (g0 : Game.t) (es : list Event) :
  Team.id (Game.homeTeam g0) <> Team.id (Game.awayTeam g0) ->
  scoreMatchesGoals g0 ->
  Forall (fun e => isScoreClick e = false) es ->
  let g := game (run env (mount g0) es).1 in
  sameTeams g0 g
  /\ scoreMatchesGoals g
  /\ (Forall (validStat g0) (Game.stats g0) -> Forall (validStat g0) (Game.stats g)).
Proof.
  intros Hne H0 Hes.
  set (P := fun g => scoreMatchesGoals g
                     /\ (Forall (validStat g0) (Game.stats g0) ->
                         Forall (validStat g0) (Game.stats g))).
  assert (Hrec : forall g clock now p t type a,
             sameTeams g0 g -> P g -> validPair g0 p t ->
             P (handleStatAdd g clock now p t type a)).
  { intros g clock now p t type a Hs [Hm Hv] Hp. split.
    - apply (recordStat_scoreMatchesGoals g (mkStatCall clock now p t type a)).
      + destruct Hs as (_ & -> & ->). exact Hne.
      + unfold validCall. cbn. destruct Hs as (_ & -> & ->). exact Hp.
      + exact Hm.
    - intros Hv0. unfold handleStatAdd. cbn [Game.stats GameSpread.with_score
                                              GameSpread.with_stats].
      apply Forall_app. split; [auto|]. constructor; [|constructor].
      destruct Hp as [[Ht Hp]|[Ht Hp]]; [left|right];
        (split; [exact Ht|apply list_elem_of_fmap; eauto]). }
  assert (Hinv : trackerInv g0 P (fun _ => True) (run env (mount g0) es).1).
  { apply run_trackerInv with (allowed := fun e => isScoreClick e = false);
      try (intros g; intros; unfold P in *; cbn in *; auto; fail); auto.
    - intros g t d [=].
    - intros g g' clock now p t penaltyType duration _ Hg _ _ _ [= <-]. exact Hg.
    - apply mount_trackerInv; [|exact I]. split; auto. }
  destruct Hinv as ((Hs & Hm & Hv) & _). cbv zeta. auto.
Qed.

(** As long as the score buttons are not used, the score agrees with
    the log: starting from a game of two teams with different ids whose
    score counts its Goal stats, after any clicks and clock ticks other than
    a manual score change the home score is the number of Goal stats
    attributed to home-team players and the away score the number attributed
    to away-team players. *)
Theorem run_score_matches_goals :
  forall (env : Env) (g0 : Game.t) (es : list Event),
    Team.id (Game.homeTeam g0) <> Team.id (Game.awayTeam g0) ->
    scoreMatchesGoals g0 ->
    Forall (fun e => isScoreClick e = false) es ->
    scoreMatchesGoals (game (run env (mount g0) es).1).
Proof.
  intros env g0 es Hne H0 Hes.
  exact (proj1 (proj2 (run_scoreMatchesGoals env g0 es Hne H0 Hes))).
Qed.

Lemma run_score_matches_goals_witness :
  scoreMatchesGoals
    (game (run (mkEnv COACH true) (mount game_0_0)
             [PlayerClick alice "team_1"; GoalClick; AssistClick (Some bob) 1001;
              PlayerClick carol "team_2"; StatClick SHOT 1002; EndGameClick]).1).
Proof.
  apply (run_score_matches_goals (mkEnv COACH true) game_0_0
           [PlayerClick alice "team_1"; GoalClick; AssistClick (Some bob) 1001;
            PlayerClick carol "team_2"; StatClick SHOT 1002; EndGameClick]).
  - vm_compute. discriminate.
  - split; reflexivity.
  - repeat constructor.
Defined.

(** The scoreboard and the stats table agree.  Starting from a game of two
    teams with different ids whose score counts its Goal stats, whose stats
    each name a team of the game and a player of its roster, and whose two
    rosters have no player id twice, after any clicks and clock ticks other
    than a manual score change the Goal total of each team in the stats
    table is that team's score. *)
Theorem run_goal_totals_equal_score :
  forall (env : Env) (g0 : Game.t) (es : list Event),
    Team.id (Game.homeTeam g0) <> Team.id (Game.awayTeam g0) ->
    NoDup (Player.id <$> allPlayers g0) ->
    scoreMatchesGoals g0 ->
    Forall (validStat g0) (Game.stats g0) ->
    Forall (fun e => isScoreClick e = false) es ->
    let g := game (run env (mount g0) es).1 in
    teamTotals (Game.homeTeam g) (playerStats g) !! GOAL = Some (Score.home (Game.score g))
    /\ teamTotals (Game.awayTeam g) (playerStats g) !! GOAL
       = Some (Score.away (Game.score g)).
Proof.
  intros env g0 es Hne Hnd H0 Hv0 Hes.
  destruct (run_scoreMatchesGoals env g0 es Hne H0 Hes) as (Hs & [Hh Ha] & Hv).
  cbv zeta. set (g := game (run env (mount g0) es).1) in *.
  specialize (Hv Hv0).
  unfold allPlayers in Hnd. rewrite fmap_app in Hnd.
  apply NoDup_app in Hnd as (Hndh & Hdis & Hnda).
  assert (Hs' := Hs). destruct Hs' as (_ & Eh & Ea).
  destruct (goalsOf_goalsByRoster g (Game.stats g)) as [Gh Ga].
  { rewrite Eh, Ea. exact Hne. }
  { rewrite Eh, Ea. intros pid H1 H2. exact (Hdis pid H1 H2). }
  { eapply Forall_impl; [exact Hv|]. intros s. apply validStat_sameTeams. exact Hs. }
  assert (Hcount : forall pid,
             statCount (playerStats g) pid GOAL = credits pid GOAL (Game.stats g)).
  { intros pid. unfold playerStats. rewrite statCount_foldl_addStat, statCount_emptyRows.
    lia. }
  rewrite !teamTotals_lookup. split; f_equal.
  - rewrite Hh, Gh. unfold goalsByRoster, isGoalByRoster.
    rewrite <- sumZ_credits_players by (rewrite Eh; exact Hndh).
    f_equal. apply list_fmap_ext. intros ? p _. apply Hcount.
  - rewrite Ha, Ga. unfold goalsByRoster, isGoalByRoster.
    rewrite <- sumZ_credits_players by (rewrite Ea; exact Hnda).
    f_equal. apply list_fmap_ext. intros ? p _. apply Hcount.
Qed.

Lemma run_goal_totals_equal_score_witness :
  teamTotals hawks
    (playerStats
       (game (run (mkEnv COACH true) (mount game_0_0)
                [PlayerClick alice "team_1"; GoalClick; AssistClick (Some bob) 1001;
                 PlayerClick carol "team_2"; StatClick SHOT 1002; EndGameClick]).1))
    !! GOAL = Some 1.
Proof.
  apply (run_goal_totals_equal_score (mkEnv COACH true) game_0_0
           [PlayerClick alice "team_1"; GoalClick; AssistClick (Some bob) 1001;
            PlayerClick carol "team_2"; StatClick SHOT 1002; EndGameClick]).
  - vm_compute. discriminate.
  - vm_compute. repeat constructor;
      repeat (rewrite elem_of_cons || rewrite elem_of_nil); intuition discriminate.
  - split; reflexivity.
  - constructor.
  - repeat constructor.
Defined.

Lemma step_keeps_summaryRequest (env : Env) (s : State) (e : Event) (g : Game.t) :
  isSummaryResolved e = false ->
  summaryRequest s = Some g /\ isGeneratingSummary s = true ->
  summaryRequest (step env s e).1 = Some g /\ isGeneratingSummary (step env s e).1 = true.
Proof.
  intros He [Hr Hg]. unfold step.
  destruct (enabled env s e) eqn:En; [|split; assumption].
  assert (H1 : summaryRequest (handle env s e).1 = Some g
               /\ isGeneratingSummary (handle env s e).1 = true).
  { destruct e; try discriminate He; cbn [handle enabled] in *;
      repeat case_match; simplify_eq/=; try (split; assumption).
    rewrite Hg in En. rewrite andb_false_r in En. discriminate. }
  destruct (handle env s e) as [s1 c1]. cbn [fst] in H1.
  unfold runEffects. cbn [fst]. case_bool_decide; exact H1.
Qed.

Lemma run_keeps_summaryRequest (env : Env) (es : list Event) (s : State) (g : Game.t) :
  Forall (fun e => isSummaryResolved e = false) es ->
  summaryRequest s = Some g /\ isGeneratingSummary s = true ->
  summaryRequest (run env s es).1 = Some g /\ isGeneratingSummary (run env s es).1 = true.
Proof.
  revert s. induction es as [|e es IH]; intros s Hes Hs; [exact Hs|].
  inversion Hes as [|? ? He Hes']; subst. cbn [run].
  pose proof (step_keeps_summaryRequest env s e g He Hs) as H1.
  destruct (step env s e) as [s1 c1]. cbn [fst] in H1.
  specialize (IH s1 Hes' H1). destruct (run env s1 es) as [s2 c2]. exact IH.
Qed.

(** A summary is stored in the game as it was when the summary was
    requested: when the summary arrives, the game handed back is the game of
    the moment of the click with the summary added, whatever was clicked and
    however the clock moved in between. *)
Theorem summary_is_stored_in_the_requesting_game :
  forall (env : Env) (s : State) (es : list Event) (summary : string),
    enabled env s SummaryClick = true ->
    Forall (fun e => isSummaryResolved e = false) es ->
    game (run env s (SummaryClick :: es ++ [SummaryResolved summary])).1
    = GameSpread.with_aiSummary summary (game s).
Proof.
  intros env s es summary En Hes.
  change (SummaryClick :: es ++ [SummaryResolved summary])
    with ([SummaryClick] ++ es ++ [SummaryResolved summary]).
  rewrite !run_app. cbn [fst].
  assert (H1 : summaryRequest (run env s [SummaryClick]).1 = Some (game s)
               /\ isGeneratingSummary (run env s [SummaryClick]).1 = true).
  { cbn [run]. unfold step. rewrite En. cbn [handle]. unfold runEffects.
    cbn. rewrite !bool_decide_eq_true_2 by reflexivity. cbn. split; reflexivity. }
  pose proof (run_keeps_summaryRequest env es _ _ Hes H1) as [H2 _].
  set (s2 := (run env (run env s [SummaryClick]).1 es).1) in *.
  cbn [run]. unfold step. cbn [enabled handle]. rewrite H2.
  rewrite bool_decide_eq_true_2 by eauto. unfold runEffects. cbn.
  rewrite bool_decide_eq_true_2 by reflexivity. reflexivity.
Qed.

Lemma summary_is_stored_in_the_requesting_game_witness :
  game (run (mkEnv COACH true) state_after_end
          [SummaryClick; PeriodPlusClick; ResetClockClick; SummaryResolved "Hawks win."]).1
  = GameSpread.with_aiSummary "Hawks win." (game state_after_end).
Proof.
  apply (summary_is_stored_in_the_requesting_game (mkEnv COACH true) state_after_end
           [PeriodPlusClick; ResetClockClick] "Hawks win.").
  - reflexivity.
  - repeat constructor.
Defined.

(** A penalty just recorded is in the penalty box: after the penalty
    modal is submitted for the selected player, the penalty with that
    player, team, type and duration, started at the clock on display, is
    among the active penalties at that clock. *)
Theorem submitted_penalty_is_active :
  forall (env : Env) (s : State) (penaltyType : PenaltyType) (duration now : Z),
    enabled env s (PenaltySubmitClick penaltyType duration now) = true ->
    exists (player : Player.t) (teamId : string),
      selectedPlayerInfo s = Some (player, teamId)
      /\ Penalty.mk (fresh_id "penalty_" now) (Player.id player) teamId penaltyType
                    duration (clock s) (clock s - duration)
         ∈ activePenalties
             (default []
                (Game.penalties
                   (game (step env s (PenaltySubmitClick penaltyType duration now)).1)))
             (clock (step env s (PenaltySubmitClick penaltyType duration now)).1).
Proof.
  intros env s penaltyType duration now En.
  unfold step. rewrite En.
  cbn [enabled] in En. apply andb_true_iff in En as [En Hd].
  apply andb_true_iff in En as [_ Hsel].
  apply bool_decide_eq_true in Hsel as [[player teamId] Hsel].
  apply bool_decide_eq_true in Hd.
  exists player, teamId. split; [exact Hsel|].
  cbn [handle]. rewrite Hsel. cbn [handleAddPenalty]. unfold runEffects. cbn.
  rewrite bool_decide_eq_true_2 by reflexivity. cbn.
  unfold activePenalties. apply list_elem_of_In, Array_sort_In, filter_In. split.
  - apply in_or_app. right. left. reflexivity.
  - cbn. repeat (apply elem_of_cons in Hd as [->|Hd]; [lia|]). inversion Hd.
Qed.

Lemma submitted_penalty_is_active_witness :
  exists (player : Player.t) (teamId : string),
    selectedPlayerInfo
      (run (mkEnv COACH true) (mount game_0_0) [PlayerClick alice "team_1"; PenaltyClick]).1
    = Some (player, teamId)
    /\ Penalty.mk (fresh_id "penalty_" 1001) (Player.id player) teamId SLASHING 60
         (clock (run (mkEnv COACH true) (mount game_0_0)
                   [PlayerClick alice "team_1"; PenaltyClick]).1)
         (clock (run (mkEnv COACH true) (mount game_0_0)
                   [PlayerClick alice "team_1"; PenaltyClick]).1 - 60)
       ∈ activePenalties
           (default []
              (Game.penalties
                 (game (step (mkEnv COACH true)
                          (run (mkEnv COACH true) (mount game_0_0)
                             [PlayerClick alice "team_1"; PenaltyClick]).1
                          (PenaltySubmitClick SLASHING 60 1001)).1)))
           (clock (step (mkEnv COACH true)
                     (run (mkEnv COACH true) (mount game_0_0)
                        [PlayerClick alice "team_1"; PenaltyClick]).1
                     (PenaltySubmitClick SLASHING 60 1001)).1).
Proof.
  apply (submitted_penalty_is_active (mkEnv COACH true)
           (run (mkEnv COACH true) (mount game_0_0)
              [PlayerClick alice "team_1"; PenaltyClick]).1 SLASHING 60 1001).
  reflexivity.
Defined.

(** ** The games of the application *)

Lemma find_game_Some (games : list Game.t) (gameId : string) (g : Game.t) :
  find_game games gameId = Some g -> g ∈ games /\ Game.id g = gameId.
Proof.
  unfold find_game. intros H. apply find_some in H as [Hin He].
  split; [apply list_elem_of_In; exact Hin|apply String.eqb_eq; exact He].
Qed.

Lemma find_game_None (games : list Game.t) (gameId : string) :
  find_game games gameId = None <-> gameId ∉ Game.id <$> games.
Proof.
  unfold find_game. induction games as [|g games IH]; cbn [List.find].
  - split; [intros _ H; inversion H|reflexivity].
  - rewrite fmap_cons, not_elem_of_cons.
    destruct (String.eqb_spec (Game.id g) gameId) as [E|E].
    + split; [discriminate|]. intros [H _]. congruence.
    + rewrite IH. split; [intros H; split; [congruence|exact H]|intros [_ H]; exact H].
Qed.

Lemma find_game_map_update (games : list Game.t) (updatedGame : Game.t) (gameId : string) :
  find_game
    (List.map (fun g => if String.eqb (Game.id g) (Game.id updatedGame)
                        then updatedGame else g) games) gameId
  = if String.eqb gameId (Game.id updatedGame)
    then match find_game games gameId with Some _ => Some updatedGame | None => None end
    else find_game games gameId.
Proof.
  unfold find_game. induction games as [|g games IH]; cbn [List.map List.find].
  - destruct (String.eqb gameId (Game.id updatedGame)); reflexivity.
  - destruct (String.eqb_spec (Game.id g) (Game.id updatedGame)) as [E|E],
             (String.eqb_spec gameId (Game.id updatedGame)) as [E'|E'].
    + rewrite E'. rewrite String.eqb_refl. rewrite E, String.eqb_refl. reflexivity.
    + destruct (String.eqb_spec (Game.id updatedGame) gameId) as [E2|E2]; [congruence|].
      destruct (String.eqb_spec (Game.id g) gameId) as [E3|E3]; [congruence|].
      rewrite IH. destruct (String.eqb_spec gameId (Game.id updatedGame)); congruence.
    + destruct (String.eqb_spec (Game.id g) gameId) as [E3|E3]; [congruence|].
      rewrite IH. destruct (String.eqb_spec gameId (Game.id updatedGame)); congruence.
    + destruct (String.eqb_spec (Game.id g) gameId) as [E3|E3]; [reflexivity|].
      rewrite IH. destruct (String.eqb_spec gameId (Game.id updatedGame)); congruence.
Qed.

(** [handleUpdateGame] keeps the games as a store keyed by id.  A game whose
    id is in the list replaces the game found under that id; a game whose id
    is not in the list is dropped without a trace; what is found under any
    other id, and the ids of the list in their order, stay as they were; and
    of two updates of one id the later one wins. *)
Theorem handleUpdateGame_lookup :
  forall (a : App) (updatedGame : Game.t),
    let a' := (handleUpdateGame a updatedGame).1 in
    (is_Some (find_game (app_games a) (Game.id updatedGame)) ->
     find_game (app_games a') (Game.id updatedGame) = Some updatedGame)
    /\ (find_game (app_games a) (Game.id updatedGame) = None -> a' = a)
    /\ (forall gameId : string,
          gameId <> Game.id updatedGame ->
          find_game (app_games a') gameId = find_game (app_games a) gameId)
    /\ Game.id <$> app_games a' = Game.id <$> app_games a
    /\ (forall laterGame : Game.t,
          Game.id laterGame = Game.id updatedGame ->
          (handleUpdateGame a' laterGame).1 = (handleUpdateGame a laterGame).1).
Proof.
  intros a updatedGame. cbv zeta. unfold handleUpdateGame. cbn [fst app_games].
  repeat split.
  - intros [g Hg]. rewrite find_game_map_update, String.eqb_refl, Hg. reflexivity.
  - intros Hn. apply find_game_None in Hn. destruct a as [ts gs act v]. cbn in *. f_equal.
    induction gs as [|g gs IH]; [reflexivity|].
    rewrite fmap_cons, not_elem_of_cons in Hn. destruct Hn as [Hg Hgs].
    cbn [List.map]. rewrite IH by exact Hgs.
    destruct (String.eqb_spec (Game.id g) (Game.id updatedGame)); congruence.
  - intros gameId Hne. rewrite find_game_map_update.
    destruct (String.eqb_spec gameId (Game.id updatedGame)); congruence.
  - induction (app_games a) as [|g gs IH]; [reflexivity|].
    cbn [List.map]. rewrite !fmap_cons, IH.
    destruct (String.eqb_spec (Game.id g) (Game.id updatedGame)) as [E|E];
      [rewrite E|]; reflexivity.
  - intros laterGame Hid. cbn [app_teams app_games app_activeGameId app_currentView].
    f_equal. rewrite List.map_map. apply List.map_ext. intros g. rewrite Hid.
    destruct (String.eqb (Game.id g) (Game.id updatedGame)) eqn:E;
      [rewrite String.eqb_refl|rewrite E]; reflexivity.
Qed.

(** The game the tracker hands to [onUpdateGame] is the game it is rendered
    with next: when the tracker was opened with the active game, whatever
    was clicked in it since, updating the application with the tracker's
    game makes that game the active game.  The update sets the timeout that
    leaves the game view exactly when that game is finished, and once the
    callback of a timeout set in the game view has run there is no active
    game. *)
Theorem tracker_update_becomes_active_game :
  forall (env : Env) (a : App) (g0 : Game.t) (es : list Event),
    activeGame a = Some g0 ->
    activeGame (handleUpdateGame a (game (run env (mount g0) es).1)).1
    = Some (game (run env (mount g0) es).1)
    /\ ((handleUpdateGame a (game (run env (mount g0) es).1)).2 = true
        <-> Game.status (game (run env (mount g0) es).1) = finished)
    /\ activeGame
         (navigateAfterFinish View.game
            (handleUpdateGame a (game (run env (mount g0) es).1)).1)
       = None.
Proof.
  intros env a g0 es Hact.
  assert (Hinv : trackerInv g0 (fun _ => True) (fun _ => True) (run env (mount g0) es).1).
  { apply run_trackerInv with (allowed := fun _ => True); auto.
    - apply Forall_allowed_any.
    - apply mount_trackerInv; auto. }
  destruct Hinv as (((Hid & _) & _) & _).
  set (g := game (run env (mount g0) es).1) in *.
  unfold activeGame in *. unfold handleUpdateGame.
  cbn [fst snd app_games app_activeGameId].
  destruct (app_activeGameId a) as [gameId|] eqn:Ea; [|discriminate].
  destruct (find_game_Some _ _ _ Hact) as [_ Hg0].
  split; [|split].
  - rewrite find_game_map_update. rewrite Hid, Hg0, String.eqb_refl, Hact. reflexivity.
  - rewrite Hid, Hg0. rewrite bool_decide_eq_true_2 by reflexivity. cbn [andb].
    apply bool_decide_eq_true.
  - reflexivity.
Qed.

Lemma tracker_update_becomes_active_game_witness :
  activeGame
    (handleUpdateGame (mkApp [hawks; owls] [game_0_0] (Some (Game.id game_0_0)) View.game)
       (game (run (mkEnv COACH true) (mount game_0_0)
                [PeriodPlusClick; AdjustClockClick 10]).1)).1
  = Some (game (run (mkEnv COACH true) (mount game_0_0)
                  [PeriodPlusClick; AdjustClockClick 10]).1).
Proof.
  apply (tracker_update_becomes_active_game (mkEnv COACH true)
           (mkApp [hawks; owls] [game_0_0] (Some (Game.id game_0_0)) View.game)
           game_0_0 [PeriodPlusClick; AdjustClockClick 10]).
  reflexivity.
Defined.

(** [startGame] on the id of a game of the list makes that game, set live
    and otherwise as it was, the active game and shows the game view; on an
    id that no game has it changes nothing. *)
Theorem startGame_opens_the_game :
  forall (a : App) (gameId : string),
    (forall g : Game.t,
        find_game (app_games a) gameId = Some g ->
        activeGame (startGame a gameId) = Some (GameSpread.with_status live g)
        /\ app_currentView (startGame a gameId) = View.game
        /\ app_teams (startGame a gameId) = app_teams a
        /\ forall otherId : string,
             otherId <> gameId ->
             find_game (app_games (startGame a gameId)) otherId
             = find_game (app_games a) otherId)
    /\ (find_game (app_games a) gameId = None -> startGame a gameId = a).
Proof.
  intros a gameId. split.
  - intros g Hg. unfold startGame. rewrite Hg.
    destruct (find_game_Some _ _ _ Hg) as [_ Hid].
    unfold activeGame, handleUpdateGame.
    cbn [fst app_games app_activeGameId app_currentView app_teams].
    repeat split.
    + rewrite find_game_map_update. cbn [Game.id GameSpread.with_status].
      rewrite Hid, String.eqb_refl, Hg. reflexivity.
    + intros otherId Hne. rewrite find_game_map_update.
      cbn [Game.id GameSpread.with_status]. rewrite Hid.
      destruct (String.eqb_spec otherId gameId); congruence.
  - intros Hn. unfold startGame. rewrite Hn. reflexivity.
Qed.

Lemma find_game_filter (games : list Game.t) (keep : Game.t -> bool) (gameId : string)
    (g : Game.t) :
  find_game games gameId = Some g -> keep g = true ->
  find_game (List.filter keep games) gameId = Some g.
Proof.
  unfold find_game. induction games as [|x games IH]; cbn [List.find List.filter];
    [discriminate|].
  destruct (String.eqb_spec (Game.id x) gameId) as [E|E].
  - intros [= ->] Hk. rewrite Hk. cbn [List.find]. rewrite E, String.eqb_refl. reflexivity.
  - intros Hf Hk. destruct (keep x); [cbn [List.find]|]; auto.
    destruct (String.eqb_spec (Game.id x) gameId); [congruence|auto].
Qed.

(** Deleting removes and keeps the right games.  After [handleDeleteGame] no
    game is found under the deleted id and every other id finds what it
    found before.  After [handleDeleteTeam] the team is not found, no game
    that can be found has it as home or away team, and a game of two other
    teams that was found under its id is still found. *)
Theorem deleting_games_and_teams :
  forall (a : App) (gameId teamId : string),
    find_game (app_games (handleDeleteGame a gameId)) gameId = None
    /\ (forall otherId : string,
          otherId <> gameId ->
          find_game (app_games (handleDeleteGame a gameId)) otherId
          = find_game (app_games a) otherId)
    /\ find_team (app_teams (handleDeleteTeam a teamId)) teamId = None
    /\ (forall (anyId : string) (g : Game.t),
          find_game (app_games (handleDeleteTeam a teamId)) anyId = Some g ->
          Team.id (Game.homeTeam g) <> teamId /\ Team.id (Game.awayTeam g) <> teamId)
    /\ (forall (anyId : string) (g : Game.t),
          find_game (app_games a) anyId = Some g ->
          Team.id (Game.homeTeam g) <> teamId -> Team.id (Game.awayTeam g) <> teamId ->
          find_game (app_games (handleDeleteTeam a teamId)) anyId = Some g).
Proof.
  intros a gameId teamId. unfold handleDeleteGame, handleDeleteTeam.
  cbn [app_games app_teams]. repeat split.
  - apply find_game_None. intros H. apply list_elem_of_fmap in H as (g & Hid & Hin).
    apply list_elem_of_In, filter_In in Hin as [_ Hk].
    apply negb_true_iff, String.eqb_neq in Hk. congruence.
  - intros otherId Hne. unfold find_game.
    induction (app_games a) as [|g gs IH]; [reflexivity|].
    cbn [List.filter List.find].
    destruct (String.eqb_spec (Game.id g) gameId) as [E|E]; cbn [negb List.find].
    + destruct (String.eqb_spec (Game.id g) otherId); [congruence|exact IH].
    + rewrite IH. reflexivity.
  - unfold find_team. induction (app_teams a) as [|t ts IH]; [reflexivity|].
    cbn [List.filter]. destruct (String.eqb_spec (Team.id t) teamId) as [E|E];
      cbn [negb List.find]; [exact IH|].
    destruct (String.eqb_spec (Team.id t) teamId); [congruence|exact IH].
  - apply find_game_Some in H as [Hin _].
    apply list_elem_of_In, filter_In in Hin as [_ Hk].
    apply andb_true_iff in Hk as [Hk _]. apply negb_true_iff, String.eqb_neq in Hk. exact Hk.
  - apply find_game_Some in H as [Hin _].
    apply list_elem_of_In, filter_In in Hin as [_ Hk].
    apply andb_true_iff in Hk as [_ Hk]. apply negb_true_iff, String.eqb_neq in Hk. exact Hk.
  - intros anyId g Hg Hh Ha. apply find_game_filter; [exact Hg|].
    apply andb_true_iff. split; apply negb_true_iff, String.eqb_neq; assumption.
Qed.

(** ** Scheduling a game *)

Lemma NoDup_fmap_id_inj (teams : list Team.t) (t1 t2 : Team.t) :
  NoDup (Team.id <$> teams) -> t1 ∈ teams -> t2 ∈ teams -> Team.id t1 = Team.id t2 ->
  t1 = t2.
Proof.
  induction teams as [|t teams IH]; intros Hnd H1 H2 Hid; [inversion H1|].
  rewrite fmap_cons in Hnd. apply NoDup_cons in Hnd as [Hn Hnd].
  apply elem_of_cons in H1 as [->|H1]; apply elem_of_cons in H2 as [->|H2].
  - reflexivity.
  - exfalso. apply Hn. rewrite Hid. apply list_elem_of_fmap. eauto.
  - exfalso. apply Hn. rewrite <- Hid. apply list_elem_of_fmap. eauto.
  - apply IH; assumption.
Qed.

Section ScheduleFacts.
Variables toLowerCase trim : string -> string.

(** A game scheduled through the form has two different teams.  When no two
    teams share an id and the id made for a new opponent is not taken, the
    game that [handleAddGame] of the application adds for a submission of
    the schedule form has a home team of the list, home and away teams with
    different ids, and names that differ even when case is ignored. *)
Theorem scheduled_game_has_two_teams :
  forall (teams : list Team.t) (games : list Game.t)
         (homeTeamIdField awayTeamName gameDate : string) (now : Z)
         (homeTeamId : string) (awayTeamInfo : AwayTeamInfo) (scheduledTime : string)
         (g : Game.t),
    NoDup (Team.id <$> teams) ->
    fresh_id "team_" now ∉ Team.id <$> teams ->
    Schedule_handleAddGame toLowerCase trim teams homeTeamIdField awayTeamName gameDate
    = onAddGame homeTeamId awayTeamInfo scheduledTime ->
    (handleAddGame teams games homeTeamId awayTeamInfo scheduledTime now).2 = games ++ [g] ->
    Game.homeTeam g ∈ teams
    /\ Team.id (Game.homeTeam g) <> Team.id (Game.awayTeam g)
    /\ toLowerCase (Team.name (Game.homeTeam g)) <> toLowerCase (Team.name (Game.awayTeam g)).
Proof.
  intros teams games hf an gd now hid info time g Hnd Hfresh Hs Ha.
  unfold Schedule_handleAddGame in Hs.
  destruct (find_team teams hf) as [h|] eqn:Eh; [|discriminate].
  destruct (truthy (Some (trim an)) && truthy (Some gd)) eqn:Et; [|discriminate].
  apply andb_true_iff in Et as [Etn _].
  destruct (String.eqb_spec (toLowerCase (Team.name h)) (toLowerCase (trim an)))
    as [En|En]; [discriminate|].
  destruct (find_team_Some _ _ _ Eh) as [Hhin Hhid].
  destruct (List.find _ teams) as [existing|] eqn:Ee; injection Hs as <- <- <-.
  - apply find_some in Ee as [Hein Hen]. apply String.eqb_eq in Hen.
    apply list_elem_of_In in Hein.
    unfold handleAddGame in Ha. cbn [info_id info_name] in Ha. rewrite Eh in Ha.
    destruct (truthy (Some (Team.id existing))); cbn [from_option] in Ha; unfold id in Ha.
    + destruct (find_team teams (Team.id existing)) as [a|] eqn:Ea.
      * cbn [snd] in Ha. apply app_inj_tail in Ha as [_ <-].
        cbn [newGame Game.homeTeam Game.awayTeam].
        destruct (find_team_Some _ _ _ Ea) as [Hain Haid].
        assert (a = existing) by (apply (NoDup_fmap_id_inj teams); assumption). subst a.
        split; [exact Hhin|]. split; [|congruence].
        intros Hid. apply En. rewrite <- Hen. f_equal. f_equal.
        apply (NoDup_fmap_id_inj teams); assumption.
      * cbn [snd] in Ha. apply (f_equal length) in Ha. rewrite length_app in Ha.
        cbn in Ha. lia.
    + cbn [truthy] in Ha. cbn [snd] in Ha. apply (f_equal length) in Ha.
      rewrite length_app in Ha. cbn in Ha. lia.
  - unfold handleAddGame in Ha. cbn [info_id info_name truthy] in Ha. rewrite Eh in Ha.
    cbn [truthy] in Etn. rewrite Etn in Ha. cbn [default snd] in Ha.
    apply app_inj_tail in Ha as [_ <-]. cbn [newGame Game.homeTeam Game.awayTeam Team.id
                                              Team.name].
    split; [exact Hhin|]. split; [|exact En].
    intros Hid. apply Hfresh. rewrite <- Hid. apply list_elem_of_fmap. eauto.
Qed.
End ScheduleFacts.

Lemma scheduled_game_has_two_teams_witness :
  Team.id (Game.homeTeam (newGame hawks owls "2024-05-01T18:00" 1000))
  <> Team.id (Game.awayTeam (newGame hawks owls "2024-05-01T18:00" 1000)).
Proof.
  refine (proj1 (proj2
    (scheduled_game_has_two_teams (fun s => s) (fun s => s) [hawks; owls] []
       "team_1" "Owls" "2024-05-01T18:00" 1000
       "team_1" (mkAwayTeamInfo (Some "team_2") None) "2024-05-01T18:00"
       (newGame hawks owls "2024-05-01T18:00" 1000) _ _ _ _))).
  - vm_compute. repeat constructor;
      repeat (rewrite elem_of_cons || rewrite elem_of_nil); intuition discriminate.
  - intros H. cbn in H.
    repeat (apply elem_of_cons in H as [H|H]; [discriminate|]). inversion H.
  - reflexivity.
  - reflexivity.
Defined.

(** ** Adding the first team *)

Lemma fresh_team_id_not_sample (now : Z) :
  String.eqb (fresh_id "team_" now) "sample_team_id" = false.
Proof. reflexivity. Qed.

Lemma cleanUser_clean (sampleTeamPlayerIds : list string) (user : User.t) :
  let user' := cleanUser sampleTeamPlayerIds user in
  User.id user' = User.id user
  /\ User.role user' = User.role user
  /\ ("sample_team_id" ∉ default [] (User.teamIds user'))
  /\ ("sample_team_id" ∉ default [] (User.followedTeamIds user'))
  /\ (forall playerId, playerId ∈ default [] (User.followedPlayerIds user') ->
                       playerId ∉ sampleTeamPlayerIds)
  /\ (forall playerId, playerId ∈ default [] (User.followedPlayerIds user) ->
                       playerId ∉ sampleTeamPlayerIds ->
                       playerId ∈ default [] (User.followedPlayerIds user')).
Proof.
  cbv zeta. unfold cleanUser.
  assert (Hfilter : forall l : list string,
            "sample_team_id"
            ∉ List.filter (fun id => negb (String.eqb id "sample_team_id")) l).
  { intros l H. apply list_elem_of_In, filter_In in H as [_ H]. discriminate. }
  assert (Hwithout : forall ids : option (list string),
            "sample_team_id"
            ∉ default []
                (if match ids with
                    | Some l => bool_decide ("sample_team_id" ∈ l)
                    | None => false
                    end
                 then List.filter (fun id => negb (String.eqb id "sample_team_id")) <$> ids
                 else ids)).
  { intros [l|]; cbn; [|intros H; inversion H].
    case_bool_decide; cbn; [apply Hfilter|assumption]. }
  assert (Hplayers : forall l : list string,
            (forall p, p ∈ List.filter (fun id => negb (bool_decide (id ∈ sampleTeamPlayerIds))) l
                       -> p ∉ sampleTeamPlayerIds)
            /\ (forall p, p ∈ l -> p ∉ sampleTeamPlayerIds ->
                          p ∈ List.filter
                                (fun id => negb (bool_decide (id ∈ sampleTeamPlayerIds))) l)).
  { intros l. split.
    - intros p H. apply list_elem_of_In, filter_In in H as [_ H].
      apply negb_true_iff, bool_decide_eq_false in H. exact H.
    - intros p Hin Hn. apply list_elem_of_In, filter_In. split.
      + apply list_elem_of_In. exact Hin.
      + apply negb_true_iff, bool_decide_eq_false. exact Hn. }
  destruct user as [uid uname mail pw r tids ftids fpids st].
  cbn [User.id User.role User.teamIds User.followedTeamIds User.followedPlayerIds
       User.username User.email User.password User.status].
  match goal with |- context [if ?c then _ else _] => destruct c eqn:Hc end;
    cbn [User.id User.role User.teamIds User.followedTeamIds User.followedPlayerIds].
  - repeat split; auto.
    + destruct fpids as [l|]; cbn; [apply Hplayers|intros p H; inversion H].
    + destruct fpids as [l|]; cbn; [apply Hplayers|intros p H; inversion H].
  - apply orb_false_iff in Hc as [Hc Hp]. apply orb_false_iff in Hc as [Ht Hf].
    repeat split; auto.
    + destruct tids as [l|]; cbn; [|intros H; inversion H].
      apply bool_decide_eq_false in Ht. exact Ht.
    + destruct ftids as [l|]; cbn; [|intros H; inversion H].
      apply bool_decide_eq_false in Hf. exact Hf.
    + destruct fpids as [l|]; cbn in *; [|intros p H; inversion H].
      apply negb_false_iff, Nat.eqb_eq in Hp.
      intros p Hin. apply (proj1 (Hplayers l)).
      assert (Heq : List.filter (fun id => negb (bool_decide (id ∈ sampleTeamPlayerIds))) l = l).
      { clear -Hp. induction l as [|x l IH]; [reflexivity|].
        cbn [List.filter] in *. destruct (negb (bool_decide (x ∈ sampleTeamPlayerIds))).
        - cbn [length] in Hp. f_equal. apply IH. lia.
        - exfalso.
          pose proof (List.filter_length_le
                        (fun id => negb (bool_decide (id ∈ sampleTeamPlayerIds))) l).
          cbn [length] in Hp. lia. }
      rewrite Heq. exact Hin.
Qed.

(** Adding the first real team retires the sample team.  When the sample
    team is the only team, [handleAddTeam] leaves it in the list with an
    empty roster, in front of the new team, and afterwards no user belongs
    to it, follows it or follows one of its former players, while every
    other followed player is still followed and the users keep their ids and
    roles.  In every other case the new team is appended and the users are
    not touched. *)
Theorem handleAddTeam_retires_sample_team :
  forall (teams : list Team.t) (users : list User.t) (teamName : string) (now : Z),
    let newTeam := Team.mk (fresh_id "team_" now) teamName [] in
    let result := handleAddTeam teams users teamName now in
    (forall sample : Team.t,
        teams = [sample] -> Team.id sample = "sample_team_id" ->
        result.1 = [Team.mk "sample_team_id" (Team.name sample) []; newTeam]
        /\ Forall2
             (fun user user' =>
                User.id user' = User.id user
                /\ User.role user' = User.role user
                /\ ("sample_team_id" ∉ default [] (User.teamIds user'))
                /\ ("sample_team_id" ∉ default [] (User.followedTeamIds user'))
                /\ (forall playerId,
                       playerId ∈ default [] (User.followedPlayerIds user') ->
                       playerId ∉ Player.id <$> Team.roster sample)
                /\ (forall playerId,
                       playerId ∈ default [] (User.followedPlayerIds user) ->
                       playerId ∉ Player.id <$> Team.roster sample ->
                       playerId ∈ default [] (User.followedPlayerIds user')))
             users result.2)
    /\ (find_team teams "sample_team_id" = None \/ length teams <> 1%nat ->
        result = (teams ++ [newTeam], users)).
Proof.
  intros teams users teamName now. cbv zeta. split.
  - intros sample -> Hid. unfold handleAddTeam, find_team. cbn [List.find].
    rewrite Hid. cbn [String.eqb Ascii.eqb Bool.eqb length Nat.eqb fst snd app List.map].
    rewrite Hid. cbn [Team.id]. rewrite fresh_team_id_not_sample.
    split; [reflexivity|].
    induction users as [|u users IH]; cbn [List.map]; constructor; [|exact IH].
    apply cleanUser_clean.
  - intros H. unfold handleAddTeam.
    destruct (find_team teams "sample_team_id") as [sample|]; [|reflexivity].
    destruct H as [H|H]; [discriminate|].
    destruct (Nat.eqb_spec (length teams) 1); [contradiction|reflexivity].
Qed.

(** ** A still scene *)

Section StillScene.
Import FaceOffTrainer.

Lemma toGrayscale_range_aux (n : nat) (data : list byte) :
  (length data <= n)%nat -> Forall (fun z => 0 <= z < 256) (toGrayscale data).
Proof.
  revert data. induction n as [|n IH]; intros data Hn.
  - destruct data; [constructor|simpl in Hn; lia].
  - destruct data as [|r [|g [|b [|a data]]]]; try constructor.
    + unfold ToUint8. apply Z.mod_pos_bound. lia.
    + apply IH. simpl in Hn. lia.
Qed.

Lemma toGrayscale_range (data : list byte) :
  Forall (fun z => 0 <= z < 256) (toGrayscale data).
Proof. apply (toGrayscale_range_aux (length data)). lia. Qed.

Lemma abs_diff_self_table :
  (fun n => (0 + abs (number_of (Z.of_nat n) - number_of (Z.of_nat n)))%float) <$> seq 0 256
  = replicate 256 0%float.
Proof. vm_compute. reflexivity. Qed.

Lemma abs_diff_self (z : Z) :
  0 <= z < 256 -> (0 + abs (number_of z - number_of z))%float = 0%float.
Proof.
  intros Hz.
  pose proof (f_equal (fun l => l !! Z.to_nat z) abs_diff_self_table) as H.
  cbv beta in H. rewrite list_lookup_fmap in H.
  rewrite lookup_seq_lt in H by lia.
  rewrite lookup_replicate_2 in H by lia.
  cbn [fmap option_fmap option_map] in H. injection H as H.
  cbn [Nat.add] in H. rewrite Z2Nat.id in H by lia. exact H.
Qed.

Lemma sumAbsDiff_self (l : list Z) :
  Forall (fun z => 0 <= z < 256) l -> sumAbsDiff 0 l l = 0%float.
Proof.
  induction 1 as [|z l Hz _ IH]; [reflexivity|].
  cbn [sumAbsDiff tail]. rewrite (abs_diff_self z Hz). exact IH.
Qed.

Lemma threshold_above_zero_quotient (x : float) :
  (SENSITIVITY_THRESHOLD <? 0 / x)%float = false.
Proof.
  rewrite ltb_spec, div_spec. unfold SENSITIVITY_THRESHOLD.
  destruct (Prim2SF x) as [s|s| |s m e]; try (destruct s; reflexivity); reflexivity.
Qed.

(** A still scene never measures a reaction: on a frame equal to the
    reference frame, whatever its size and content, [detect] sets no
    reaction time and asks for the next frame, so a run of such frames goes
    on for as long as frames arrive. *)
Theorem still_scene_is_never_a_reaction :
  forall (referenceFrameData : list byte) (start : float)
         (frameTimes : list float),
    animationFrames (mkDetection (toGrayscale referenceFrameData) start)
      ((fun now => (referenceFrameData, now)) <$> frameTimes)
    = (fun _ => [requestAnimationFrame]) <$> frameTimes.
Proof.
  intros data start times.
  assert (Hd : forall now,
             detect (mkDetection (toGrayscale data) start) data now
             = [requestAnimationFrame]).
  { intros now. unfold detect, averageDiff. cbn [referenceGrayscale].
    rewrite (sumAbsDiff_self _ (toGrayscale_range data)).
    rewrite threshold_above_zero_quotient. reflexivity. }
  induction times as [|now times IH]; [reflexivity|].
  rewrite !fmap_cons. cbn [animationFrames]. rewrite Hd.
  cbn [requestsFrame existsb orb]. rewrite IH. reflexivity.
Qed.
End StillScene.

(** ** The sessions of the face-off drill *)

Section FaceOffSessions.
Import FaceOffSession.

(** An assigned drill is reported without the time it measured.  The drill
    that completes an assignment calls [onCompleteAssignment] with the
    reaction times of the render that started the drill, while the measured
    time is added to the state only; for the drill started when the
    component is opened with an assignment the reported list is empty. *)
Theorem assigned_drill_reports_earlier_times :
  forall (id : string) (closure st : Component) (finalTime : float),
    sessionConfig closure = None ->
    0 <= completedDrills st ->
    (motionDetected (Some id) closure finalTime st).2
    = [mkReport id (reactionTimes closure)]
    /\ reactionTimes (motionDetected (Some id) closure finalTime st).1
       = reactionTimes st ++ [finalTime]
    /\ (closure = mount (Some id) -> st = whistle (handleStartDrill (mount (Some id))) ->
        (motionDetected (Some id) closure finalTime st).2 = [mkReport id []]
        /\ reactionTimes (motionDetected (Some id) closure finalTime st).1 = [finalTime]).
Proof.
  intros id closure st finalTime Hc Hn.
  assert (H : motionDetected (Some id) closure finalTime st
              = (mkComponent (sessionState st) (sessionConfig st) FaceOffTrainer.result
                             (Some finalTime) (reactionTimes st ++ [finalTime])
                             (completedDrills st + 1) (timeRemaining st),
                 [mkReport id (reactionTimes closure)])).
  { unfold motionDetected, handleDrillComplete. rewrite Hc.
    cbn [completedDrills setDrillState setReactionTime fmap option_fmap option_map
         from_option].
    rewrite (bool_decide_eq_true_2 (is_Some (Some id))) by eauto.
    cbn [orb andb]. unfold Datatypes.id.
    replace (completedDrills st + 1 >=? 1) with true by lia.
    reflexivity. }
  rewrite H. cbn [fst snd reactionTimes]. repeat split.
  - subst closure. reflexivity.
  - subst st. reflexivity.
Qed.

Lemma assigned_drill_reports_earlier_times_witness :
  (motionDetected (Some "assignment_1") (mount (Some "assignment_1")) 312%float
     (whistle (handleStartDrill (mount (Some "assignment_1"))))).2
  = [mkReport "assignment_1" []].
Proof.
  refine (proj1 (proj2 (proj2
    (assigned_drill_reports_earlier_times "assignment_1" (mount (Some "assignment_1"))
       (whistle (handleStartDrill (mount (Some "assignment_1")))) 312%float _ _))
    eq_refl eq_refl)).
  - reflexivity.
  - cbn. lia.
Defined.

Ltac session_simpl :=
  cbn [sessionState sessionConfig drillState reactionTime reactionTimes completedDrills
       timeRemaining setDrillState setSessionState setReactionTime whistle handleStartDrill
       handleSelectSession mount handleFinishSession type value fmap option_fmap option_map
       from_option fst snd] in *;
  unfold Datatypes.id in *.

Lemma drills_count (n : Z) (m : nat) :
  forall (times : list float) (closure st : Component),
    sessionConfig closure = Some (mkSessionConfig count n) ->
    sessionConfig st = Some (mkSessionConfig count n) ->
    sessionState st = FaceOffTrainer.running ->
    completedDrills st + Z.of_nat (S m) = n ->
    let final := drills None closure st times in
    final.2 = []
    /\ reactionTimes final.1 = reactionTimes st ++ take (S m) times
    /\ completedDrills final.1 = completedDrills st + Z.of_nat (length (take (S m) times))
    /\ (sessionState final.1 = FaceOffTrainer.finished <-> (S m <= length times)%nat)
    /\ (sessionState final.1 = FaceOffTrainer.finished
        \/ sessionState final.1 = FaceOffTrainer.running).
Proof.
  induction m as [|m IH]; intros times closure st Hc Hs Hr Hk; cbv zeta;
    destruct st as [ss sc ds rt rts cd tr], closure as [css csc cds crt crts ccd ctr];
    session_simpl; subst ss sc csc.
  - destruct times as [|time times].
    + cbn [drills fst snd take length]. session_simpl. rewrite app_nil_r, Z.add_0_r.
      repeat split; auto; [discriminate|lia].
    + cbn [drills]. unfold motionDetected, handleDrillComplete. session_simpl.
      rewrite (bool_decide_eq_true_2 (count = count)) by reflexivity. cbn [orb andb].
      replace (cd + 1 >=? n) with true by lia.
      session_simpl. unfold resultEffect. session_simpl.
      rewrite (bool_decide_eq_false_2 (FaceOffTrainer.finished = FaceOffTrainer.running))
        by discriminate.
      cbn [negb orb]. session_simpl. cbn [take length].
      repeat split; auto; lia.
  - destruct times as [|time times].
    + cbn [drills fst snd take length]. session_simpl. rewrite app_nil_r, Z.add_0_r.
      repeat split; auto; [discriminate|lia].
    + cbn [drills]. unfold motionDetected, handleDrillComplete. session_simpl.
      rewrite (bool_decide_eq_true_2 (count = count)) by reflexivity. cbn [orb andb].
      replace (cd + 1 >=? n) with false by lia.
      unfold resultEffect. session_simpl.
      rewrite !bool_decide_eq_true_2 by reflexivity. cbn [negb orb andb].
      replace (cd + 1 >=? n) with false by lia.
      rewrite (bool_decide_eq_false_2 (count = timed)) by discriminate. cbn [andb].
      match goal with
      | |- context [drills None ?c ?s times] =>
          pose proof (IH times c s eq_refl eq_refl eq_refl) as IH'
      end.
      session_simpl. specialize (IH' ltac:(lia)). cbv zeta in IH'.
      destruct IH' as (H1 & H2 & H3 & H4 & H5).
      match goal with
      | |- context [drills None ?c ?s times] => destruct (drills None c s times) as [st2 r2]
      end.
      session_simpl. subst r2.
      rewrite H2, H3, <- app_assoc. cbn [take length app].
      repeat split; auto; try lia.
      * intros Hf. apply H4 in Hf. lia.
      * intros Hl. apply H4. lia.
Qed.

(** A session by drill count ends with its last drill, unless it is a
    session of one drill.  On the setup screen no session is configured (the
    screen is shown when the component is opened and after
    [handleStartNewSession]).  In a session of [n] drills chosen there, the
    times kept are those of the first [n] drills; the session is finished
    exactly when [n] is at least 2 and [n] drills were measured, and until
    then it is running: a session of one drill stays running after its
    drill, with no next drill. *)
Theorem count_session_ends_with_last_drill :
  forall (st : Component) (n : Z) (times : list float),
    sessionConfig st = None ->
    1 <= n ->
    let final := (session st count n times).1 in
    (session st count n times).2 = []
    /\ reactionTimes final = take (Z.to_nat n) times
    /\ completedDrills final = Z.of_nat (length (take (Z.to_nat n) times))
    /\ (sessionState final = FaceOffTrainer.finished
        <-> 2 <= n /\ (Z.to_nat n <= length times)%nat)
    /\ (sessionState final = FaceOffTrainer.finished
        \/ sessionState final = FaceOffTrainer.running).
Proof.
  intros st n times Hst Hn. cbv zeta. unfold session.
  destruct st as [ss sc ds rt rts cd tr]. session_simpl. subst sc.
  destruct times as [|time times].
  - cbn [drills]. session_simpl. rewrite take_nil. cbn [length].
    repeat split; auto; try discriminate. intros [_ H]. lia.
  - cbn [drills]. unfold motionDetected, handleDrillComplete. session_simpl.
    rewrite (bool_decide_eq_false_2 (is_Some None)) by (intros [? [=]]).
    cbn [orb andb]. unfold resultEffect. session_simpl.
    rewrite !bool_decide_eq_true_2 by reflexivity. cbn [negb orb andb].
    rewrite (bool_decide_eq_false_2 (count = timed)) by discriminate. cbn [andb].
    destruct (Z.geb_spec (0 + 1) n) as [H1|H1].
    + assert (n = 1) by lia. subst n. session_simpl.
      change (Z.to_nat 1) with 1%nat. cbn [take length app]. rewrite take_0.
      repeat split; auto; try discriminate; try lia.
    + match goal with
      | |- context [drills None ?c ?s times] =>
          pose proof (drills_count n (Z.to_nat n - 2) times c s eq_refl eq_refl eq_refl) as Hd
      end.
      session_simpl. specialize (Hd ltac:(lia)). cbv zeta in Hd.
      destruct Hd as (H2 & H3 & H4 & H5 & H6).
      match goal with
      | |- context [drills None ?c ?s times] => destruct (drills None c s times) as [st2 r2]
      end.
      session_simpl. subst r2.
      replace (Z.to_nat n) with (S (S (Z.to_nat n - 2))) by lia.
      cbn [take length]. rewrite H3, H4. cbn [app].
      repeat split; auto; try lia.
      * apply H5 in H. lia.
      * intros [_ Hl]. apply H5. lia.
Qed.

Lemma count_session_ends_with_last_drill_witness :
  sessionState (session (mount None) count 3 [310; 295; 402]%float).1
  = FaceOffTrainer.finished
  /\ sessionState
       (session (handleStartNewSession (session (mount None) count 3 [310; 295; 402]%float).1)
          count 1 [310]%float).1
     = FaceOffTrainer.running.
Proof.
  split.
  - apply (proj1 (proj2 (proj2 (proj2
      (count_session_ends_with_last_drill (mount None) 3 [310; 295; 402]%float
         eq_refl ltac:(lia)))))).
    cbn. lia.
  - destruct (proj2 (proj2 (proj2 (proj2
      (count_session_ends_with_last_drill
         (handleStartNewSession (session (mount None) count 3 [310; 295; 402]%float).1)
         1 [310]%float eq_refl ltac:(lia))))))
      as [H|H]; [|exact H].
    apply (proj1 (proj2 (proj2 (proj2
      (count_session_ends_with_last_drill
         (handleStartNewSession (session (mount None) count 3 [310; 295; 402]%float).1)
         1 [310]%float eq_refl ltac:(lia)))))) in H.
    lia.
Defined.
End FaceOffSessions.

(** ** The timer of a timed session during a measurement *)

Section SessionTimerFacts.
Import FaceOffTrainer.

Lemma pollingRun_finished (activeAssignment : bool) (es : list BrowserEvent) :
  pollingRun activeAssignment (mkPolling false None false 0) es
  = (mkPolling false None false 0, []).
Proof.
  induction es as [|e es IH]; [reflexivity|].
  cbn [pollingRun]. destruct e; cbn [pollingStep pendingDetect timerSet]; rewrite IH;
    reflexivity.
Qed.

(** The timer ends a measurement at its last second, however the animation
    frames fall between its ticks.  With [t] seconds remaining and a
    measurement under way, while no frame shows motion every frame asks for
    the next one and the first [t - 1] ticks only count down; the tick after
    them clears the interval, cancels the pending frame and finishes the
    session, and nothing that comes later has any effect. *)
Theorem timed_session_ends_at_last_tick :
  forall (activeAssignment : bool) (d : Detection) (before after : list BrowserEvent)
         (t : Z),
    Forall (stillEvent d) before ->
    Z.of_nat (timerTicks before) = t - 1 ->
    pollingRun activeAssignment (mkPolling true (Some d) true t)
      (before ++ SessionTimer :: after)
    = (mkPolling false None false 0,
       concat (stillActions <$> before)
       ++ clearInterval :: handleFinishSession true activeAssignment).
Proof.
  intros activeAssignment d before after t Hstill. revert t.
  induction Hstill as [|e before He _ IH]; intros t Ht.
  - cbn [app pollingRun pollingStep timerSet FaceOffTrainer.timeRemaining animationFrameIdRef
         fmap list_fmap concat].
    cbn in Ht. replace (t <=? 1) with true by lia.
    rewrite pollingRun_finished. cbn [app]. rewrite app_nil_r. reflexivity.
  - cbn [app pollingRun]. destruct e as [data now|].
    + cbn [pollingStep pendingDetect timerSet FaceOffTrainer.timeRemaining].
      rewrite detect_cases. simpl in He. rewrite He.
      cbn [requestsFrame existsb orb].
      rewrite (IH t) by exact Ht. rewrite fmap_cons. reflexivity.
    + cbn [pollingStep pendingDetect timerSet FaceOffTrainer.timeRemaining
           animationFrameIdRef].
      unfold timerTicks in Ht. cbn [List.filter length] in Ht. fold (timerTicks before) in Ht.
      replace (t <=? 1) with false by lia.
      rewrite (IH (t - 1)) by lia. rewrite fmap_cons. reflexivity.
Qed.

Lemma timed_session_ends_at_last_tick_witness :
  pollingRun false (mkPolling true (Some detection_on_black) true 2)
    ([AnimationFrame black_pixel 16%float; SessionTimer;
      AnimationFrame black_pixel 1016%float]
     ++ SessionTimer :: [AnimationFrame white_pixel 2016%float])
  = (mkPolling false None false 0,
     [requestAnimationFrame; requestAnimationFrame; clearInterval; stopCamera;
      clearTimeouts; cancelAnimationFrame; setDrillState idle; setSessionState finished]).
Proof.
  apply (timed_session_ends_at_last_tick false detection_on_black
           [AnimationFrame black_pixel 16%float; SessionTimer;
            AnimationFrame black_pixel 1016%float]
           [AnimationFrame white_pixel 2016%float] 2).
  - repeat constructor.
  - reflexivity.
Defined.
End SessionTimerFacts.

(** ** What the tracker shows of what it recorded *)

Lemma filter_Forall_id {A : Type} (P : A -> Prop) `{!forall x, Decision (P x)}
    (l : list A) :
  Forall P l -> filter P l = l.
Proof.
  induction 1 as [|x l Hx _ IH]; [reflexivity|].
  rewrite filter_cons, decide_True by exact Hx. f_equal. exact IH.
Qed.

(** No recorded stat is missing from the game log.  When every stat of the
    game the tracker was opened with names a player of one of the two
    rosters, then after any clicks and clock ticks the game log has exactly
    one line for each stat of the game. *)
Theorem run_game_log_is_complete :
  forall (env : Env) (g0 : Game.t) (es : list Event),
    Forall (fun s => Stat.playerId s ∈ Player.id <$> allPlayers g0) (Game.stats g0) ->
    line_id <$> gameLog (game (run env (mount g0) es).1)
    ≡ₚ Stat.id <$> Game.stats (game (run env (mount g0) es).1).
Proof.
  intros env g0 es H0.
  set (P := fun g => Forall (fun s => Stat.playerId s ∈ Player.id <$> allPlayers g0)
                       (Game.stats g)).
  assert (Hrec : forall g clock now p t type a,
             P g -> validPair g0 p t -> P (handleStatAdd g clock now p t type a)).
  { intros g clock now p t type a Hg Hp. unfold P, handleStatAdd.
    cbn [Game.stats GameSpread.with_score GameSpread.with_stats].
    apply Forall_app. split; [exact Hg|]. constructor; [|constructor].
    cbn [Stat.playerId]. unfold allPlayers. rewrite fmap_app, elem_of_app.
    destruct Hp as [[_ Hp]|[_ Hp]]; [left|right]; apply list_elem_of_fmap; eauto. }
  assert (Hinv : trackerInv g0 P (fun _ => True) (run env (mount g0) es).1).
  { apply run_trackerInv with (allowed := fun _ => True);
      try (intros g; intros; unfold P in *; cbn in *; auto; fail); auto.
    - intros g g' clock now p t penaltyType duration _ Hg _ _ _ [= <-]. exact Hg.
    - apply Forall_allowed_any.
    - apply mount_trackerInv; [exact H0|exact I]. }
  destruct Hinv as (((_ & Hh & Ha) & HP) & _). unfold P in HP. clear P Hrec.
  set (g := game (run env (mount g0) es).1) in *.
  unfold gameLog. rewrite omap_logLine_ids.
  assert (Hall : allPlayers g = allPlayers g0) by (unfold allPlayers; rewrite Hh, Ha; reflexivity).
  rewrite Hall.
  rewrite filter_Forall_id.
  - apply fmap_Permutation, Array_sort_Permutation.
  - apply Forall_forall. intros s Hs. rewrite Forall_forall in HP. apply HP.
    apply list_elem_of_In, Array_sort_In, list_elem_of_In in Hs. exact Hs.
Qed.

Lemma run_game_log_is_complete_witness :
  line_id <$> gameLog
                (game (run (mkEnv COACH true) (mount game_0_0)
                         [PlayerClick alice "team_1"; GoalClick; AssistClick (Some bob) 1001;
                          PlayerClick carol "team_2"; StatClick SHOT 1002]).1)
  ≡ₚ Stat.id <$> Game.stats
                   (game (run (mkEnv COACH true) (mount game_0_0)
                            [PlayerClick alice "team_1"; GoalClick;
                             AssistClick (Some bob) 1001;
                             PlayerClick carol "team_2"; StatClick SHOT 1002]).1).
Proof.
  apply (run_game_log_is_complete (mkEnv COACH true) game_0_0
           [PlayerClick alice "team_1"; GoalClick; AssistClick (Some bob) 1001;
            PlayerClick carol "team_2"; StatClick SHOT 1002]).
  constructor.
Defined.

Lemma find_player_id (roster : list Player.t) (playerId : string) (p : Player.t) :
  find_player roster playerId = Some p -> Player.id p = playerId.
Proof.
  unfold find_player. intros H. apply find_some in H as [_ H].
  apply String.eqb_eq. exact H.
Qed.

(** Every card of the penalty box names its player.  When the two teams
    have different ids and every penalty of the game the tracker was opened
    with names a player on the roster of its team, then after any clicks and
    clock ticks every card of the penalty box, at any clock, shows a player
    of the roster, the one the penalty names. *)
Theorem run_penalty_cards_name_players :
  forall (env : Env) (g0 : Game.t) (es : list Event) (clock : Z)
         (cards : list PenaltyCard),
    Team.id (Game.homeTeam g0) <> Team.id (Game.awayTeam g0) ->
    Forall (fun p => Penalty.playerId p
                     ∈ Player.id <$> Team.roster (teamOfId g0 (Penalty.teamId p)))
           (default [] (Game.penalties g0)) ->
    PenaltyBox (default [] (Game.penalties (game (run env (mount g0) es).1))) clock
               (Game.homeTeam (game (run env (mount g0) es).1))
               (Game.awayTeam (game (run env (mount g0) es).1))
    = Some cards ->
    Forall2 (fun p card =>
               exists player : Player.t,
                 card_player card = Some player /\ Player.id player = Penalty.playerId p)
            (activePenalties
               (default [] (Game.penalties (game (run env (mount g0) es).1))) clock)
            cards.
Proof.
  intros env g0 es c cards Hne H0.
  set (P := fun g => Forall (fun p => Penalty.playerId p
                                      ∈ Player.id <$> Team.roster
                                                        (teamOfId g0 (Penalty.teamId p)))
                       (default [] (Game.penalties g))).
  assert (Hinv : trackerInv g0 P (fun _ => True) (run env (mount g0) es).1).
  { apply run_trackerInv with (allowed := fun _ => True);
      try (intros g; intros; unfold P in *; cbn in *; auto; fail); auto.
    - intros g g' clock now p t penaltyType duration _ Hg Hp _ _ [= <-].
      unfold P. cbn [Game.penalties GameSpread.with_penalties from_option]. unfold id.
      apply Forall_app. split; [exact Hg|]. constructor; [|constructor].
      cbn [Penalty.playerId Penalty.teamId]. apply list_elem_of_fmap. exists p.
      split; [reflexivity|]. unfold teamOfId.
      destruct Hp as [[-> Hp]|[-> Hp]].
      + rewrite String.eqb_refl. exact Hp.
      + destruct (String.eqb_spec (Team.id (Game.awayTeam g0)) (Team.id (Game.homeTeam g0)));
          [congruence|exact Hp].
    - apply Forall_allowed_any.
    - apply mount_trackerInv; [exact H0|exact I]. }
  destruct Hinv as (((_ & Hh & Ha) & HP) & _). unfold P in HP. clear P.
  set (g := game (run env (mount g0) es).1) in *.
  unfold PenaltyBox.
  destruct (length (activePenalties (default [] (Game.penalties g)) c) =? 0)%nat;
    [discriminate|].
  intros [= <-].
  assert (Hact : Forall (fun p => Penalty.playerId p
                                  ∈ Player.id <$> Team.roster
                                                    (teamOfId g0 (Penalty.teamId p)))
                   (activePenalties (default [] (Game.penalties g)) c)).
  { apply Forall_forall. intros p Hp. rewrite Forall_forall in HP. apply HP.
    unfold activePenalties in Hp.
    apply list_elem_of_In, Array_sort_In, filter_In in Hp as [Hp _].
    apply list_elem_of_In. exact Hp. }
  induction Hact as [|p l Hp _ IH]; cbn [List.map]; constructor; [|exact IH].
  unfold getPlayerInfo. rewrite Hh, Ha. fold (teamOfId g0 (Penalty.teamId p)).
  cbn [card_player].
  apply find_player_is_Some in Hp as [player Hf].
  exists player. split; [exact Hf|]. apply (find_player_id _ _ _ Hf).
Qed.

Lemma run_penalty_cards_name_players_witness :
  Forall2 (fun p card =>
             exists player : Player.t,
               card_player card = Some player /\ Player.id player = Penalty.playerId p)
          (activePenalties
             (default []
                (Game.penalties
                   (game (run (mkEnv COACH true) (mount game_0_0)
                            [PlayerClick alice "team_1"; PenaltyClick;
                             PenaltySubmitClick SLASHING 60 1001]).1)))
             720)
          [mkPenaltyCard "penalty_1001" "Hawks" (Some alice) SLASHING 60 "1:00"].
Proof.
  apply (run_penalty_cards_name_players (mkEnv COACH true) game_0_0
           [PlayerClick alice "team_1"; PenaltyClick; PenaltySubmitClick SLASHING 60 1001]
           720).
  - vm_compute. discriminate.
  - constructor.
  - reflexivity.
Defined.
